(** * Action tracking middleware (mobx-keystone): a shallow embedding

    The development follows [actionTrackingMiddleware] and
    [simplifyActionContext] of the action tracking middleware, and the
    helpers [failure], [isObject], [deleteFromArray] and [mapGetOrDefault]
    of [utils/index.ts].

    - JavaScript values are a small inductive type, objects being finite
      property lists.
    - Every context carries a reference ([loc]) to its mutable [data] bag.
      The private slot [ctx.data[dataSymbol]] of all bags is one finite map,
      the [Store], so that two contexts holding the same reference alias.
    - The driver ([start], [finish], [resume], [suspend], [mware]) runs in a
      state-and-log monad: the state is the [Store], the log records every
      write to a tracking record and every call of a user hook together
      with the store the hook could read when it was called.
    - User hooks are observers: they return normally and do not write the
      private tracking record.

    The first part holds the embedding and the vocabulary of the
    statements; the second part, [Properties], holds the proofs. *)

From Stdlib Require Import ZArith String List.
From stdpp Require Import base option list gmap strings pretty.

#[local] Set Warnings "-register-all".
Open Scope string_scope.
Open Scope list_scope.

(** ** JavaScript values *)

Inductive JsValue : Type :=
| JsUndefined
| JsNull
| JsBool (b : bool)
| JsNumber (n : Z)
| JsString (s : string)
| JsFunction (fname : string)
| JsObject (cls : string) (props : list (string * JsValue)).

(** [!!v] *)
Definition truthy (v : JsValue) : bool :=
  match v with
  | JsUndefined | JsNull => false
  | JsBool b => b
  | JsNumber n => negb (Z.eqb n 0)
  | JsString s => negb (String.eqb s "")
  | JsFunction _ | JsObject _ _ => true
  end.

Inductive JsType := TUndefined | TObject | TBoolean | TNumber | TString | TFunction.

Definition typeof (v : JsValue) : JsType :=
  match v with
  | JsUndefined => TUndefined
  | JsNull => TObject
  | JsBool _ => TBoolean
  | JsNumber _ => TNumber
  | JsString _ => TString
  | JsFunction _ => TFunction
  | JsObject _ _ => TObject
  end.

Definition isFunction (v : JsValue) : bool :=
  match typeof v with TFunction => true | _ => false end.

(** Conversion of a value used as a property key ([model[actionName]]).
    A string is its own key and a function stands for its text. Two
    conversions are primitives of the language that the value model does
    not determine, and are parameters:
    - [numberToString], the text of a number: the decimal numeral for a
      small integer, but rounded digits above 2^53 and exponent form from
      1e21 on (["1e+21"]);
    - [objectToKey], the key of an object: what its [toString] or
      [valueOf] method returns, or the exception that the conversion
      throws ([inl]). *)
Section toPropertyKey.

Variable numberToString : Z -> string.
Variable objectToKey : JsValue -> JsValue + string.

Definition toPropertyKey (v : JsValue) : JsValue + string :=
  match v with
  | JsUndefined => inr "undefined"
  | JsNull => inr "null"
  | JsBool true => inr "true"
  | JsBool false => inr "false"
  | JsNumber n => inr (numberToString n)
  | JsString s => inr s
  | JsFunction f => inr f
  | JsObject _ _ => objectToKey v
  end.

End toPropertyKey.

Fixpoint lookupProp (k : string) (props : list (string * JsValue)) : JsValue :=
  match props with
  | [] => JsUndefined
  | (k', v) :: rest => if String.eqb k k' then v else lookupProp k rest
  end.

(** [o[k]] for a value that is an object; the property list stands for
    every property reachable from the object, own or inherited. *)
Definition getProp (o : JsValue) (k : string) : JsValue :=
  match o with
  | JsObject _ props => lookupProp k props
  | _ => JsUndefined
  end.

(** [s === v] for a string [s]. *)
Definition strictEqString (s : string) (v : JsValue) : bool :=
  match v with
  | JsString s' => String.eqb s s'
  | _ => false
  end.

(** ** utils/index.ts *)

Definition failure (msg : string) : JsValue :=
  JsObject "MobxStateTreeNextError" [("message", JsString msg)].

Definition isObject (value : JsValue) : bool :=
  match value with
  | JsNull => false
  | _ => match typeof value with TObject => true | _ => false end
  end.

(** *** Arrays and maps *)

Section arrays.
Context {T : Type}.

(** [x === y] on what the array holds. Strict equality is not equality
    of values: [NaN] is not strictly equal to itself, and two objects
    with the same contents are strictly equal only when they are one
    object. Nothing is assumed of it. *)
Variable strictEq : T -> T -> bool.

(** [array.indexOf(value)]: the first index whose element is strictly
    equal to [value], [-1] when no index has one. *)
Fixpoint indexOf (array : list T) (value : T) : Z :=
  match array with
  | [] => (-1)%Z
  | x :: rest =>
      if strictEq x value then 0%Z
      else
        let i := indexOf rest value in
        if (0 <=? i)%Z then (i + 1)%Z else (-1)%Z
  end.

(** [array.splice(index, 1)] for an index that is not negative: the array
    without the element at [index], unchanged when [index] is past the
    end. *)
Definition splice1 (array : list T) (index : Z) : list T :=
  take (Z.to_nat index) array ++ drop (S (Z.to_nat index)) array.

(** [deleteFromArray]: the answer and the array as it is left. *)
Definition deleteFromArray (array : list T) (value : T) : bool * list T :=
  let index := indexOf array value in
  if (0 <=? index)%Z then (true, splice1 array index) else (false, array).

End arrays.

Section maps.
Context {K V U : Type} `{Countable K}.

(** [mapGetOrDefault]: what is returned, the map as it is left, and what
    the call of [def], which may have effects of its own on [U], leaves. *)
Definition mapGetOrDefault (map : gmap K V) (key : K) (def : U -> V * U) (u : U)
    : V * gmap K V * U :=
  match map !! key with
  | Some v => (v, map, u)
  | None =>
      let '(newValue, u') := def u in
      (newValue, <[key := newValue]> map, u')
  end.

End maps.

(** ** Action contexts *)

Inductive ActionContextActionType := Sync | Async.

Inductive ActionContextAsyncStepType := Spawn | Return | Throw | Resume | ResumeError.

(** Reference to a [data] bag. *)
Definition loc := positive.

Inductive ActionContext : Type := mkActionContext {
  name : string;
  type : ActionContextActionType;
  asyncStepType : option ActionContextAsyncStepType;
  target : JsValue;
  args : list JsValue;
  parentContext : option ActionContext;
  previousAsyncStepContext : option ActionContext;
  data : loc
}.

Module Simple.
Inductive SimpleActionContext : Type := mk {
  name : string;
  type : ActionContextActionType;
  target : JsValue;
  args : list JsValue;
  parentContext : option SimpleActionContext;
  data : loc
}.
End Simple.
Abbreviation SimpleActionContext := Simple.SimpleActionContext.

Inductive ActionTrackingResult := RReturn | RThrow.

(** Structural equality of values and of simple contexts is decidable. *)
#[global] Instance JsValue_eq_dec : EqDecision JsValue.
Proof.
  unfold EqDecision. fix go 1. intros a b.
  destruct a as [| |b1|n1|s1|f1|c1 p1], b as [| |b2|n2|s2|f2|c2 p2];
    try (right; discriminate); try (left; reflexivity).
  - destruct (decide (b1 = b2)); [left; congruence | right; congruence].
  - destruct (decide (n1 = n2)); [left; congruence | right; congruence].
  - destruct (decide (s1 = s2)); [left; congruence | right; congruence].
  - destruct (decide (f1 = f2)); [left; congruence | right; congruence].
  - destruct (decide (c1 = c2)); [| right; congruence].
    assert (Decision (p1 = p2)) as [->| ].
    { revert p2. induction p1 as [|[k1 v1] p1 IH]; intros [|[k2 v2] p2];
        try (right; discriminate); try (left; reflexivity).
      destruct (decide (k1 = k2)); [| right; congruence].
      destruct (go v1 v2); [| right; congruence].
      destruct (IH p2); [left; congruence | right; congruence]. }
    + left; congruence.
    + right; congruence.
Defined.

#[global] Instance ActionContextActionType_eq_dec : EqDecision ActionContextActionType.
Proof. solve_decision. Defined.

#[global] Instance SimpleActionContext_eq_dec : EqDecision SimpleActionContext.
Proof.
  unfold EqDecision. fix go 1. intros a b.
  destruct a as [n1 t1 g1 a1 p1 d1], b as [n2 t2 g2 a2 p2 d2].
  destruct (decide (n1 = n2)); [| right; congruence].
  destruct (decide (t1 = t2)); [| right; congruence].
  destruct (decide (g1 = g2)); [| right; congruence].
  destruct (decide (a1 = a2)); [| right; congruence].
  destruct (decide (d1 = d2)); [| right; congruence].
  destruct p1 as [q1|], p2 as [q2|]; try (right; congruence).
  - destruct (go q1 q2); [left; congruence | right; congruence].
  - left; congruence.
Defined.

(** The [while (ctx.previousAsyncStepContext)] loop shared by [filter] and
    [simplifyActionContext]. *)
Fixpoint chainRoot (ctx : ActionContext) : ActionContext :=
  match previousAsyncStepContext ctx with
  | Some prev => chainRoot prev
  | None => ctx
  end.

(** [simplifyActionContext]: the loop is folded into the recursion, a
    context with a previous step being simplified as that step is;
    [simplifyActionContext_root] below gives the loop-then-build reading. *)
Fixpoint simplifyActionContext (ctx : ActionContext) : SimpleActionContext :=
  match previousAsyncStepContext ctx with
  | Some prev => simplifyActionContext prev
  | None =>
      {| Simple.name := name ctx;
         Simple.type := type ctx;
         Simple.target := target ctx;
         Simple.args := args ctx;
         Simple.data := data ctx;
         Simple.parentContext :=
           match parentContext ctx with
           | Some p => Some (simplifyActionContext p)
           | None => None
           end |}
  end.

(** A simple context read back as an action context: it has neither an
    async step type nor a previous step. *)
Fixpoint asActionContext (s : SimpleActionContext) : ActionContext :=
  {| name := Simple.name s;
     type := Simple.type s;
     asyncStepType := None;
     target := Simple.target s;
     args := Simple.args s;
     parentContext :=
       match Simple.parentContext s with
       | Some p => Some (asActionContext p)
       | None => None
       end;
     previousAsyncStepContext := None;
     data := Simple.data s |}.

(** ** The context local store *)

Inductive State := Idle | Started | RealResumed | FakeResumed | Suspended | Finished.

#[global] Instance State_eq_dec : EqDecision State.
Proof. solve_decision. Defined.

(** [Data] and [Partial<Data>]: a field that is absent is [None]. *)
Record Data := mkData {
  startAccepted : option bool;
  state : option State
}.

(** [Object.assign(currentData, partialData)] *)
Definition assign (currentData partialData : Data) : Data :=
  {| startAccepted :=
       match startAccepted partialData with
       | Some b => Some b
       | None => startAccepted currentData
       end;
     state :=
       match state partialData with
       | Some s => Some s
       | None => state currentData
       end |}.

(** The slot [data[dataSymbol]] of every bag. *)
Abbreviation Store := (gmap loc Data).

(** ** Hooks, events and the driver monad *)

Inductive HookCall :=
| OnFilter (ctx : SimpleActionContext)
| OnStart (ctx : SimpleActionContext)
| OnResume (ctx : SimpleActionContext)
| OnSuspend (ctx : SimpleActionContext)
| OnFinish (ctx : SimpleActionContext) (result : ActionTrackingResult) (value : JsValue).

Inductive Event :=
| Write (l : loc) (before : option Data) (after : Data)
| Call (h : HookCall) (seen : Store).

(** The hooks object. [onStart] and [onFinish] are mandatory, the other
    three are optional; the answer of the user predicate may depend on the
    context and on what it can read at the time of the call. *)
Record ActionTrackingMiddleware := mkHooks {
  hooks_filter : option (SimpleActionContext -> Store -> bool);
  has_onResume : bool;
  has_onSuspend : bool
}.

Definition M (A : Type) : Type := Store -> A * Store * list Event.

Definition ret {A} (a : A) : M A := fun s => (a, s, []).

Definition bind {A B} (m : M A) (k : A -> M B) : M B :=
  fun s =>
    let '(a, s1, log1) := m s in
    let '(b, s2, log2) := k a s1 in
    (b, s2, log1 ++ log2).

Notation "'do' x <- m ; k" := (bind m (fun x => k))
  (at level 10, x name, m at level 100, k at level 200).
Notation "m ;; k" := (bind m (fun _ => k))
  (at level 100, k at level 200, right associativity).

Definition result_of {A} (r : A * Store * list Event) : A := fst (fst r).
Definition store_of {A} (r : A * Store * list Event) : Store := snd (fst r).
Definition log_of {A} (r : A * Store * list Event) : list Event := snd r.

(** What a call of the wrapped callback produces. *)
Inductive Outcome :=
| Normal (v : JsValue)
| Thrown (err : JsValue).

Definition getCtxData (l : loc) (s : Store) : option Data := s !! l.

Definition setCtxData (l : loc) (partialData : Data) : M unit :=
  fun s =>
    let after :=
      match s !! l with
      | None => partialData
      | Some currentData => assign currentData partialData
      end in
    (tt, <[l := after]> s, [Write l (s !! l) after]).

Definition callHook (h : HookCall) : M unit :=
  fun s => (tt, s, [Call h s]).

(** [parentData && parentData.startAccepted && parentData.state === st] *)
Definition acceptedInState (st : State) (parentData : option Data) : bool :=
  match parentData with
  | Some d =>
      match startAccepted d, state d with
      | Some true, Some s => bool_decide (s = st)
      | _, _ => false
      end
  | None => false
  end.

(** ** The middleware *)

Section actionTrackingMiddleware.

(** [model instanceof Model]; the class [Model] is imported. *)
Variable instanceofModel : JsValue -> bool.

(** The text of [${ctx.asyncStepType}]; the enumeration is imported. *)
Variable asyncStepTypeText : option ActionContextAsyncStepType -> string.

(** The two conversions behind [model[actionName]]. *)
Variable numberToString : Z -> string.
Variable objectToKey : JsValue -> JsValue + string.

Section closures.

(** [actionName] as destructured from the target, and the hooks. *)
Variable actionName : JsValue.
Variable hooks : ActionTrackingMiddleware.

(** [userFilter]: the user predicate on the simplified context, [true]
    when there is none. *)
Definition userFilter (ctx : ActionContext) : M bool :=
  match hooks_filter hooks with
  | Some f =>
      fun s =>
        (f (simplifyActionContext ctx) s, s,
         [Call (OnFilter (simplifyActionContext ctx)) s])
  | None => ret true
  end.

Definition resumeSuspendSupport : bool :=
  has_onResume hooks || has_onSuspend hooks.

(** [actionName && ctx.name !== actionName] *)
Definition otherAction (ctx : ActionContext) : bool :=
  truthy actionName && negb (strictEqString (name ctx) actionName).

(** The branch shared by sync steps and Spawn steps: start and finish are
    on the same context. *)
Definition acceptStart (ctx : ActionContext) : M bool :=
  do accepted <- userFilter ctx;
  if accepted
  then setCtxData (data ctx) {| startAccepted := Some true; state := Some Idle |} ;;
       ret accepted
  else ret accepted.

(** [filter]. For Return and Throw the answer depends on whether the
    spawn step was accepted; [data.startAccepted] is read as a boolean,
    an absent field counting as [false]. *)
Definition filter (ctx : ActionContext) : M bool :=
  if otherAction ctx then ret false
  else
    match type ctx with
    | Sync => acceptStart ctx
    | Async =>
        match asyncStepType ctx with
        | Some Spawn => acceptStart ctx
        | Some Return | Some Throw =>
            fun s =>
              let previousCtx := chainRoot ctx in
              match getCtxData (data previousCtx) s with
              | Some d =>
                  (match startAccepted d with Some b => b | None => false end, s, [])
              | None => (false, s, [])
              end
        | Some Resume | Some ResumeError => ret resumeSuspendSupport
        | None => ret false
        end
    end.

Definition start (simpleCtx : SimpleActionContext) : M unit :=
  setCtxData (Simple.data simpleCtx) {| startAccepted := None; state := Some Started |} ;;
  callHook (OnStart simpleCtx).

(** [resume]: ensure parents are resumed, then mark the context and call
    [onResume] if there is one. *)
Fixpoint resume (simpleCtx : SimpleActionContext) (real : bool) : M unit :=
  match Simple.parentContext simpleCtx with
  | Some parentCtx =>
      fun s =>
        if acceptedInState Suspended (getCtxData (Simple.data parentCtx) s)
        then resume parentCtx false s
        else ret tt s
  | None => ret tt
  end ;;
  setCtxData (Simple.data simpleCtx)
    {| startAccepted := None;
       state := Some (if real then RealResumed else FakeResumed) |} ;;
  if has_onResume hooks then callHook (OnResume simpleCtx) else ret tt.

(** [suspend]: mark the context and call [onSuspend] if there is one, then
    ensure parents are suspended if they were fakely resumed. *)
Fixpoint suspend (simpleCtx : SimpleActionContext) : M unit :=
  setCtxData (Simple.data simpleCtx) {| startAccepted := None; state := Some Suspended |} ;;
  (if has_onSuspend hooks then callHook (OnSuspend simpleCtx) else ret tt) ;;
  match Simple.parentContext simpleCtx with
  | Some parentCtx =>
      fun s =>
        if acceptedInState FakeResumed (getCtxData (Simple.data parentCtx) s)
        then suspend parentCtx s
        else ret tt s
  | None => ret tt
  end.

(** [finish]: fakely resume and suspend the parent if needed, around the
    write of [finished] and the call of [onFinish]. *)
Definition finish (simpleCtx : SimpleActionContext)
    (result : ActionTrackingResult) (value : JsValue) : M unit :=
  do parentResumed <-
    match Simple.parentContext simpleCtx with
    | Some parentCtx =>
        fun s =>
          if acceptedInState Suspended (getCtxData (Simple.data parentCtx) s)
          then (resume parentCtx false ;; ret true) s
          else ret false s
    | None => ret false
    end;
  setCtxData (Simple.data simpleCtx) {| startAccepted := None; state := Some Finished |} ;;
  callHook (OnFinish simpleCtx result value) ;;
  match Simple.parentContext simpleCtx with
  | Some parentCtx => if parentResumed then suspend parentCtx else ret tt
  | None => ret tt
  end.

(** The wrapper put around [next]: [try { return origNext() } finally
    { suspend(simpleCtx) }] after a real resume. *)
Definition wrapNext (simpleCtx : SimpleActionContext) (origNext : M Outcome) : M Outcome :=
  resume simpleCtx true ;;
  do r <- origNext;
  suspend simpleCtx ;;
  ret r.

Definition filteredOut (ctx : ActionContext) : JsValue :=
  failure ("asssertion error: async step should have been filtered out - "
           +:+ asyncStepTypeText (asyncStepType ctx)).

(** [mware]. A [Thrown] outcome stands for an exception that leaves the
    function; in the sync branch it is caught, reported and rethrown. *)
Definition mware (ctx : ActionContext) (origNext : M Outcome) : M Outcome :=
  let simpleCtx := simplifyActionContext ctx in
  let next := wrapNext simpleCtx origNext in
  match type ctx with
  | Sync =>
      start simpleCtx ;;
      do r <- next;
      match r with
      | Thrown err => finish simpleCtx RThrow err ;; ret (Thrown err)
      | Normal v => finish simpleCtx RReturn v ;; ret (Normal v)
      end
  | Async =>
      match asyncStepType ctx with
      | Some Spawn => start simpleCtx ;; next
      | Some Return =>
          do r <- next;
          match r with
          | Normal v => finish simpleCtx RReturn v ;; ret (Normal v)
          | Thrown err => ret (Thrown err)
          end
      | Some Throw =>
          do r <- next;
          match r with
          | Normal v => finish simpleCtx RThrow v ;; ret (Normal v)
          | Thrown err => ret (Thrown err)
          end
      | Some Resume | Some ResumeError =>
          if resumeSuspendSupport then next else ret (Thrown (filteredOut ctx))
      | None => ret (Thrown (filteredOut ctx))
      end
  end.

End closures.

(** What [addActionMiddleware] receives. *)
Record ActionMiddleware := mkActionMiddleware {
  mw_middleware : ActionContext -> M Outcome -> M Outcome;
  mw_filter : ActionContext -> M bool;
  mw_target : JsValue
}.

(** [actionTrackingMiddleware]: the failure thrown ([inl]) or the
    middleware object. [model[actionName]] is evaluated only for a truthy
    [actionName]; an exception of the key conversion leaves the function
    as it is. *)
Definition actionTrackingMiddleware (target : JsValue) (hooks : ActionTrackingMiddleware)
    : JsValue + ActionMiddleware :=
  if negb (isObject target) then inl (failure "target must be an object")
  else
    let model := getProp target "model" in
    let actionName := getProp target "actionName" in
    if negb (instanceofModel model) then inl (failure "target must be a model")
    else
      let created :=
        inr {| mw_middleware := mware hooks;
               mw_filter := filter actionName hooks;
               mw_target := model |} in
      if truthy actionName
      then
        match toPropertyKey numberToString objectToKey actionName with
        | inl err => inl err
        | inr key =>
            if negb (isFunction (getProp model key))
            then inl (failure "action must be a function or undefined")
            else created
        end
      else created.

End actionTrackingMiddleware.

(** ** Reading a log *)

Definition calls (log : list Event) : list HookCall :=
  omap (fun e => match e with Call h _ => Some h | Write _ _ _ => None end) log.

Definition callCtx (h : HookCall) : SimpleActionContext :=
  match h with
  | OnFilter c | OnStart c | OnResume c | OnSuspend c | OnFinish c _ _ => c
  end.

(** The hook calls made for one invocation, in order. *)
Definition callsFor (c : SimpleActionContext) (log : list Event) : list HookCall :=
  List.filter (fun h => bool_decide (callCtx h = c)) (calls log).

(** An event without the stores it refers to. *)
Inductive Shape :=
| SWrite (l : loc) (st : option State)
| SCall (h : HookCall).

Definition shape (e : Event) : Shape :=
  match e with
  | Write l _ after => SWrite l (state after)
  | Call h _ => SCall h
  end.

Definition stateAt (l : loc) (s : Store) : option State := s !! l ≫= state.

Definition tracked (d : option Data) : bool :=
  match d with
  | Some x => match startAccepted x with Some b => b | None => false end
  | None => false
  end.

Fixpoint ancestors (c : SimpleActionContext) : list SimpleActionContext :=
  match Simple.parentContext c with
  | Some p => p :: ancestors p
  | None => []
  end.

Fixpoint depth (c : SimpleActionContext) : nat :=
  match Simple.parentContext c with
  | Some p => S (depth p)
  | None => 0
  end.

(** The unbroken run of ancestors, from the parent upwards, that are
    accepted and suspended in store [s]. *)
Fixpoint suspendedRun (s : Store) (c : SimpleActionContext) : list SimpleActionContext :=
  match Simple.parentContext c with
  | Some p =>
      if acceptedInState Suspended (getCtxData (Simple.data p) s)
      then p :: suspendedRun s p
      else []
  | None => []
  end.

Definition optCall (configured : bool) (h : HookCall) : list Shape :=
  if configured then [SCall h] else [].

(** What a hook can expect to read from its own context. *)
Definition postState (h : HookCall) : option State -> Prop :=
  match h with
  | OnFilter _ => fun _ => True
  | OnStart _ => fun st => st = Some Started
  | OnResume _ => fun st => st = Some RealResumed \/ st = Some FakeResumed
  | OnSuspend _ => fun st => st = Some Suspended
  | OnFinish _ _ _ => fun st => st = Some Finished
  end.

Definition seesPostState (e : Event) : Prop :=
  match e with
  | Call h seen => postState h (stateAt (Simple.data (callCtx h)) seen)
  | Write _ _ _ => True
  end.

(** ** The lifecycle state machine *)

(** The arrows of idle -> started -> {realResumed, fakeResumed, suspended}
    -> finished. *)
Definition resumedOrSuspended (s : State) : bool :=
  match s with
  | RealResumed | FakeResumed | Suspended => true
  | _ => false
  end.

Definition transition (s s' : State) : bool :=
  match s, s' with
  | Idle, Started => true
  | Started, (RealResumed | FakeResumed) => true
  | (RealResumed | FakeResumed | Suspended),
    (RealResumed | FakeResumed | Suspended | Finished) => true
  | _, _ => false
  end.

(** A write that leaves an accepted record either creates it at idle or
    moves the state of an accepted record along an arrow. *)
Definition allowedWrite (e : Event) : Prop :=
  match e with
  | Write _ before after =>
      startAccepted after = Some true ->
      match before with
      | None => state after = Some Idle
      | Some d =>
          startAccepted d = Some true /\
          match state d, state after with
          | Some s, Some s' => transition s s' = true
          | _, _ => False
          end
      end
  | Call _ _ => True
  end.

(** ** Steps as the middleware chain delivers them *)

(** One execution step: its context, the steps that run nested inside the
    continuation, and what the continuation finally produces. *)
Inductive Step : Type :=
| mkStep (ctx : ActionContext) (body : list Step) (out : Outcome).

Section runAll.
Variable run : Step -> M Outcome.
Variable out : Outcome.

Fixpoint runAll (b : list Step) : M Outcome :=
  match b with
  | [] => ret out
  | s :: b' => run s ;; runAll b'
  end.
End runAll.

Section chain.
Variable asyncStepTypeText : option ActionContextAsyncStepType -> string.
Variable actionName : JsValue.
Variable hooks : ActionTrackingMiddleware.

(** Modelled from the spec: the generic middleware chain of
    [action/middleware] is imported; it asks [filter(ctx)] once per step
    and runs [middleware(ctx, next)] when the step is accepted, the
    continuation alone otherwise. *)
Fixpoint runStep (s : Step) : M Outcome :=
  match s with
  | mkStep ctx body out =>
      let origNext := runAll runStep out body in
      do accepted <- filter actionName hooks ctx;
      if accepted then mware asyncStepTypeText hooks ctx origNext else origNext
  end.

Fixpoint runSchedule (steps : list Step) : M unit :=
  match steps with
  | [] => ret tt
  | s :: rest => runStep s ;; runSchedule rest
  end.
End chain.

(** Where a step-chain stands, by the bag of its root; a bag without an
    entry has not been used by any step yet. *)
Inductive ChainStatus := Running | Open | Done.

#[global] Instance ChainStatus_eq_dec : EqDecision ChainStatus.
Proof. solve_decision. Defined.

Abbreviation Chains := (gmap loc ChainStatus).

Section wfAll.
Variable wf : Chains -> Step -> option Chains.

Fixpoint wfAll (st : Chains) (b : list Step) : option Chains :=
  match b with
  | [] => Some st
  | s :: b' =>
      match wf st s with
      | Some st1 => wfAll st1 b'
      | None => None
      end
  end.
End wfAll.

(** The simple context of [ctx] and its parent would share one bag. *)
Definition parentShares (ctx : ActionContext) : bool :=
  match parentContext (chainRoot ctx) with
  | Some p => bool_decide (data (chainRoot p) = data (chainRoot ctx))
  | None => false
  end.

(** The step order of one chain: a sync action is a single step on a fresh
    bag; an async action is a spawn step on a fresh bag, then resume steps,
    then one return or throw step; no step of a chain runs inside another
    step of the same chain. *)
Fixpoint wfStep (st : Chains) (s : Step) : option Chains :=
  match s with
  | mkStep ctx body _ =>
      let l := data (chainRoot ctx) in
      let begins (final : ChainStatus) :=
        match previousAsyncStepContext ctx, st !! l with
        | None, None =>
            match wfAll wfStep (<[l := Running]> st) body with
            | Some st2 => Some (<[l := final]> st2)
            | None => None
            end
        | _, _ => None
        end in
      let continues (final : ChainStatus) :=
        match st !! l with
        | Some Open =>
            match wfAll wfStep (<[l := Running]> st) body with
            | Some st2 => Some (<[l := final]> st2)
            | None => None
            end
        | _ => None
        end in
      if parentShares ctx then None
      else
        match type ctx, asyncStepType ctx with
        | Sync, _ => begins Done
        | Async, Some Spawn => begins Open
        | Async, (Some Resume | Some ResumeError) => continues Open
        | Async, (Some Return | Some Throw) => continues Done
        | Async, None => wfAll wfStep st body
        end
  end.

Definition wfSchedule (steps : list Step) : bool :=
  match wfAll wfStep ∅ steps with
  | Some _ => true
  | None => false
  end.

(** ** Operations between two steps of a chain *)

Inductive DriverOp :=
| OpStart (c : SimpleActionContext)
| OpResume (c : SimpleActionContext) (real : bool)
| OpSuspend (c : SimpleActionContext)
| OpFinish (c : SimpleActionContext) (result : ActionTrackingResult) (value : JsValue)
| OpFilter (ctx : ActionContext).

Section ops.
Variable actionName : JsValue.
Variable hooks : ActionTrackingMiddleware.

Definition runOp (op : DriverOp) : M unit :=
  match op with
  | OpStart c => start c
  | OpResume c real => resume hooks c real
  | OpSuspend c => suspend hooks c
  | OpFinish c result value => finish hooks c result value
  | OpFilter ctx => filter actionName hooks ctx ;; ret tt
  end.

Fixpoint runOps (ops : list DriverOp) : M unit :=
  match ops with
  | [] => ret tt
  | op :: rest => runOp op ;; runOps rest
  end.
End ops.

(** The filter, when it writes, writes the bag of the context it is given. *)
Definition opAvoids (l : loc) (op : DriverOp) : Prop :=
  match op with
  | OpFilter ctx => data ctx <> l
  | _ => True
  end.

(** [data.startAccepted] of a bag, [None] when the record or the field is
    absent. *)
Definition startAcceptedAt (l : loc) (s : Store) : option bool :=
  getCtxData l s ≫= startAccepted.

(** A computation keeps a property of the store. *)
Definition keeps {A} (I : Store -> Prop) (m : M A) : Prop :=
  forall s, I s -> I (store_of (m s)).

(** ** What one driver operation leaves in the log *)

Definition shapeCalls (shs : list Shape) : list HookCall :=
  omap (fun sh => match sh with SCall h => Some h | SWrite _ _ => None end) shs.

Definition shapeCallsFor (c : SimpleActionContext) (shs : list Shape) : list HookCall :=
  List.filter (fun h => bool_decide (callCtx h = c)) (shapeCalls shs).

Definition resumeShape (hooks : ActionTrackingMiddleware) (real : bool)
    (a : SimpleActionContext) : list Shape :=
  SWrite (Simple.data a) (Some (if real then RealResumed else FakeResumed))
  :: optCall (has_onResume hooks) (OnResume a).

Definition suspendShape (hooks : ActionTrackingMiddleware)
    (a : SimpleActionContext) : list Shape :=
  SWrite (Simple.data a) (Some Suspended)
  :: optCall (has_onSuspend hooks) (OnSuspend a).

Definition finishShape (c : SimpleActionContext)
    (result : ActionTrackingResult) (value : JsValue) : list Shape :=
  [SWrite (Simple.data c) (Some Finished); SCall (OnFinish c result value)].

(** The write of [finish]. *)
Definition finishWrite (c : SimpleActionContext) : M unit :=
  setCtxData (Simple.data c) {| startAccepted := None; state := Some Finished |}.

(** The tag and value [finish] is given for an outcome of the wrapped
    callback of a sync action. *)
Definition syncFinishCall (c : SimpleActionContext) (r : Outcome) : HookCall :=
  match r with
  | Normal v => OnFinish c RReturn v
  | Thrown err => OnFinish c RThrow err
  end.

(** The store once the record of bag [l] has been given state [st]. *)
Definition mark (l : loc) (st : State) (s : Store) : Store :=
  store_of (setCtxData l {| startAccepted := None; state := Some st |} s).

(** The unbroken run of ancestors, from the parent upwards, that are
    accepted and fake-resumed when the suspension reaches them, each one
    being looked at after the context below it has been marked. *)
Fixpoint fakeResumedRun (s : Store) (c : SimpleActionContext) : list SimpleActionContext :=
  match Simple.parentContext c with
  | Some p =>
      let s1 := mark (Simple.data c) Suspended s in
      if acceptedInState FakeResumed (getCtxData (Simple.data p) s1)
      then p :: fakeResumedRun s1 p
      else []
  | None => []
  end.

(** ** What the driver does to the records of other invocations *)

(** The record has one of the states realResumed, fakeResumed, suspended. *)
Definition inS3 (d : option Data) : Prop :=
  match d ≫= state with
  | Some st => resumedOrSuspended st = true
  | None => False
  end.

(** A record is left alone, or it is accepted and moves between the three
    states above. *)
Definition bagStep (d d' : option Data) : Prop :=
  d' = d \/ (tracked d = true /\ inS3 d /\ tracked d' = true /\ inS3 d').

(** The record an operation is called on keeps its acceptance flag and,
    when accepted, ends in one of the three states. *)
Definition ownStep (d d' : option Data) : Prop :=
  tracked d' = tracked d /\ (tracked d' = true -> inS3 d').

Definition opStep (own : loc) (s s' : Store) : Prop :=
  forall l, bagStep (s !! l) (s' !! l) \/ (l = own /\ ownStep (s !! l) (s' !! l)).

Definition othersStep (own : loc) (s s' : Store) : Prop :=
  forall l, l <> own -> bagStep (s !! l) (s' !! l).

(** The stores a sequence of steps can be in, given where every chain
    stands: a bag no step has used has no record, and the accepted record
    of a chain that is running or open is in one of the three states. *)
Definition Inv (st : Chains) (s : Store) : Prop :=
  (forall l, st !! l = None -> s !! l = None) /\
  (forall l, st !! l = Some Running \/ st !! l = Some Open ->
             tracked (s !! l) = true -> inS3 (s !! l)).

(** [Inv] but for the record of bag [own], which is about to be resumed. *)
Definition InvBut (own : loc) (st : Chains) (s : Store) : Prop :=
  (forall l, st !! l = None -> s !! l = None) /\
  (forall l, l <> own ->
             st !! l = Some Running \/ st !! l = Some Open ->
             tracked (s !! l) = true -> inS3 (s !! l)).

(** A computation writes along the arrows only and takes the stores of
    [st] to stores of [st']. *)
Definition stepsSafely {A} (st st' : Chains) (m : M A) : Prop :=
  forall s, Inv st s ->
            Forall allowedWrite (log_of (m s)) /\ Inv st' (store_of (m s)).

(** A step, run from any store its chain statuses allow, writes along the
    arrows only, and leaves running chains running. *)
Definition stepOk (asyncStepTypeText : option ActionContextAsyncStepType -> string)
    (actionName : JsValue) (hooks : ActionTrackingMiddleware) (s : Step) : Prop :=
  forall st st',
    wfStep st s = Some st' ->
    stepsSafely st st' (runStep asyncStepTypeText actionName hooks s) /\
    (forall l, st !! l = Some Running -> st' !! l = Some Running).

(** ** Readings of the specification that are tested *)

(** The calls for a sync invocation are [onStart] then [onFinish]. *)
Definition syncCallsAreStartFinish
    (asyncStepTypeText : option ActionContextAsyncStepType -> string)
    (hooks : ActionTrackingMiddleware) (ctx : ActionContext)
    (origNext : M Outcome) (s : Store) : Prop :=
  let c := simplifyActionContext ctx in
  let r := mware asyncStepTypeText hooks ctx origNext s in
  callsFor c (log_of r) =
  match result_of r with
  | Normal v => [OnStart c; OnFinish c RReturn v]
  | Thrown err => [OnStart c; OnFinish c RThrow err]
  end.

(** Every ancestor that is accepted and suspended when [resume] is called
    has been resumed when [resume] returns. *)
Definition everySuspendedAncestorResumed (hooks : ActionTrackingMiddleware)
    (c : SimpleActionContext) (real : bool) (s : Store) : Prop :=
  forall a,
    In a (ancestors c) ->
    acceptedInState Suspended (getCtxData (Simple.data a) s) = true ->
    stateAt (Simple.data a) (store_of (resume hooks c real s)) = Some FakeResumed.

(** A Resume or ResumeError step is accepted exactly when one of the two
    optional hooks is configured. *)
Definition resumeAcceptedIffConfigured
    (actionName : JsValue) (hooks : ActionTrackingMiddleware)
    (ctx : ActionContext) (s : Store) : Prop :=
  result_of (filter actionName hooks ctx s) = true <->
  (has_onResume hooks || has_onSuspend hooks) = true.

(** [actionName] is supplied: the property is there and not undefined. *)
Definition supplied (v : JsValue) : bool := negb (bool_decide (v = JsUndefined)).

Section configuration.

Variable instanceofModel : JsValue -> bool.
Variable asyncStepTypeText : option ActionContextAsyncStepType -> string.
Variable numberToString : Z -> string.
Variable objectToKey : JsValue -> JsValue + string.

Definition throwsAtConfiguration (target : JsValue) (hooks : ActionTrackingMiddleware)
    : Prop :=
  exists err,
    actionTrackingMiddleware instanceofModel asyncStepTypeText numberToString objectToKey
      target hooks = inl err.

(** [typeof model[actionName] === "function"]: the key conversion returns
    and the member found at the key is a function. *)
Definition memberIsFunction (model actionName : JsValue) : bool :=
  match toPropertyKey numberToString objectToKey actionName with
  | inl _ => false
  | inr key => isFunction (getProp model key)
  end.

(** Configuration throws exactly when the target is not an object, its
    model is not a Model instance, or [actionName] is supplied without
    naming a function member. *)
Definition throwsIffSuppliedNonFunction (target : JsValue)
    (hooks : ActionTrackingMiddleware) : Prop :=
  let model := getProp target "model" in
  let actionName := getProp target "actionName" in
  throwsAtConfiguration target hooks <->
  (isObject target = false \/
   instanceofModel model = false \/
   (supplied actionName = true /\ memberIsFunction model actionName = false)).

End configuration.

(** ** Sample configurations, contexts and stores *)

Definition bothHooks : ActionTrackingMiddleware :=
  {| hooks_filter := None; has_onResume := true; has_onSuspend := true |}.

Definition noOptionalHooks : ActionTrackingMiddleware :=
  {| hooks_filter := None; has_onResume := false; has_onSuspend := false |}.

(** A stand-in for [instanceof Model]: the objects of class ["M"]. *)
Definition isM (v : JsValue) : bool :=
  match v with
  | JsObject cls _ => String.eqb cls "M"
  | _ => false
  end.

Definition stepText (o : option ActionContextAsyncStepType) : string :=
  match o with
  | Some Spawn => "spawn"
  | Some Return => "return"
  | Some Throw => "throw"
  | Some Resume => "resume"
  | Some ResumeError => "resumeError"
  | None => "undefined"
  end.

(** Stand-ins for the two key conversions: the decimal numeral, which is
    the text of the integers up to 2^53 in magnitude only, and the key of
    an object that inherits [Object.prototype.toString]. The sample
    action names below are strings, so neither is ever called on them. *)
Definition decimalText (n : Z) : string := pretty n.

Definition plainObjectKey (v : JsValue) : JsValue + string := inr "[object Object]".

(** Numbers as array elements: [NaN] and the integers, with their [===],
    which holds between equal integers and never for [NaN]. *)
Inductive SampleNumber := NaN | Int (n : Z).

Definition numberStrictEq (x y : SampleNumber) : bool :=
  match x, y with
  | Int n, Int m => Z.eqb n m
  | _, _ => false
  end.

(** [{ model: m, actionName: "" }] where [m[""]] is the number 5. *)
Definition emptyNameTarget : JsValue :=
  JsObject "Object"
    [("model", JsObject "M" [("", JsNumber 5); ("add", JsFunction "add")]);
     ("actionName", JsString "")].

Definition syncStepOf (nm : string) (l : loc) : ActionContext :=
  {| name := nm; type := Sync; asyncStepType := None;
     target := JsNull; args := []; parentContext := None;
     previousAsyncStepContext := None; data := l |}.

Definition resumeStepOf (nm : string) (l : loc) : ActionContext :=
  {| name := nm; type := Async; asyncStepType := Some Resume;
     target := JsNull; args := []; parentContext := None;
     previousAsyncStepContext := None; data := l |}.

(** A chain of two steps: the Spawn step of ["fetch"] and its Return step. *)
Definition fetchSpawn : ActionContext :=
  {| name := "fetch"; type := Async; asyncStepType := Some Spawn;
     target := JsNull; args := []; parentContext := None;
     previousAsyncStepContext := None; data := 1%positive |}.

Definition fetchReturn : ActionContext :=
  {| name := "fetch"; type := Async; asyncStepType := Some Return;
     target := JsNull; args := []; parentContext := None;
     previousAsyncStepContext := Some fetchSpawn; data := 1%positive |}.

Definition fetchOps : list DriverOp :=
  let c := simplifyActionContext fetchSpawn in
  [OpStart c; OpResume c true; OpSuspend c; OpFilter (resumeStepOf "other" 2%positive)].

(** An accepted, suspended grandparent above a parent that has no record. *)
Definition grandparentCtx : SimpleActionContext :=
  {| Simple.name := "load"; Simple.type := Async; Simple.target := JsNull;
     Simple.args := []; Simple.parentContext := None; Simple.data := 1%positive |}.

Definition untrackedParentCtx : SimpleActionContext :=
  {| Simple.name := "ignored"; Simple.type := Async; Simple.target := JsNull;
     Simple.args := []; Simple.parentContext := Some grandparentCtx;
     Simple.data := 2%positive |}.

Definition grandchildCtx : SimpleActionContext :=
  {| Simple.name := "fetch"; Simple.type := Async; Simple.target := JsNull;
     Simple.args := []; Simple.parentContext := Some untrackedParentCtx;
     Simple.data := 3%positive |}.

Definition grandparentSuspended : Store :=
  {[ 1%positive := {| startAccepted := Some true; state := Some Suspended |} ]}.

(** Parent and child: ["load"] spawns and, inside its first step, spawns
    ["fetch"]; later ["fetch"] resumes and returns, then ["load"] does. *)
Definition loadSpawn : ActionContext :=
  {| name := "load"; type := Async; asyncStepType := Some Spawn;
     target := JsNull; args := []; parentContext := None;
     previousAsyncStepContext := None; data := 1%positive |}.

Definition laterStep (k : ActionContextAsyncStepType) (first : ActionContext) : ActionContext :=
  {| name := name first; type := Async; asyncStepType := Some k;
     target := target first; args := args first;
     parentContext := parentContext first;
     previousAsyncStepContext := Some first; data := data first |}.

Definition childSpawn : ActionContext :=
  {| name := "fetch"; type := Async; asyncStepType := Some Spawn;
     target := JsNull; args := []; parentContext := Some loadSpawn;
     previousAsyncStepContext := None; data := 2%positive |}.

Definition sampleSchedule : list Step :=
  [mkStep loadSpawn [mkStep childSpawn [] (Normal JsUndefined)] (Normal JsUndefined);
   mkStep (laterStep Resume childSpawn) [] (Normal JsUndefined);
   mkStep (laterStep Return childSpawn) [] (Normal (JsString "data"));
   mkStep (laterStep Resume loadSpawn)
     [mkStep (syncStepOf "add" 3%positive) [] (Thrown (JsString "boom"))]
     (Normal JsUndefined);
   mkStep (laterStep Return loadSpawn) [] (Normal JsUndefined)].

(** * Properties *)

(** ** Simplification *)

Lemma ActionContext_nested_ind (P : ActionContext -> Prop) :
  (forall ctx,
      (forall p, parentContext ctx = Some p -> P p) ->
      (forall p, previousAsyncStepContext ctx = Some p -> P p) ->
      P ctx) ->
  forall ctx, P ctx.
Proof.
  intros step. fix IH 1. intros [n t a tg ar par prev d].
  apply step; simpl.
  - destruct par as [p|]; intros q Hq; [injection Hq as <-; apply IH | discriminate].
  - destruct prev as [p|]; intros q Hq; [injection Hq as <-; apply IH | discriminate].
Qed.

Lemma SimpleActionContext_nested_ind (P : SimpleActionContext -> Prop) :
  (forall c, (forall p, Simple.parentContext c = Some p -> P p) -> P c) ->
  forall c, P c.
Proof.
  intros step. fix IH 1. intros [n t tg ar par d].
  apply step; simpl.
  destruct par as [p|]; intros q Hq; [injection Hq as <-; apply IH | discriminate].
Qed.

Lemma chainRoot_is_root ctx : previousAsyncStepContext (chainRoot ctx) = None.
Proof.
  induction ctx as [ctx _ IHprev] using ActionContext_nested_ind.
  destruct ctx as [n t a tg ar par [prev|] d]; simpl; [|reflexivity].
  apply (IHprev prev). reflexivity.
Qed.

(** The loop-then-build reading of [simplifyActionContext]: walk to the
    root of the step-chain, then read the root's fields. *)
Lemma simplifyActionContext_root ctx :
  simplifyActionContext ctx =
  let root := chainRoot ctx in
  {| Simple.name := name root;
     Simple.type := type root;
     Simple.target := target root;
     Simple.args := args root;
     Simple.data := data root;
     Simple.parentContext :=
       match parentContext root with
       | Some p => Some (simplifyActionContext p)
       | None => None
       end |}.
Proof.
  induction ctx as [ctx _ IHprev] using ActionContext_nested_ind.
  destruct ctx as [n t a tg ar par [prev|] d]; simpl; [|reflexivity].
  apply (IHprev prev). reflexivity.
Qed.

Lemma simplifyActionContext_data ctx :
  Simple.data (simplifyActionContext ctx) = data (chainRoot ctx).
Proof. rewrite simplifyActionContext_root. reflexivity. Qed.

Lemma simplifyActionContext_parent ctx :
  Simple.parentContext (simplifyActionContext ctx) =
  match parentContext (chainRoot ctx) with
  | Some p => Some (simplifyActionContext p)
  | None => None
  end.
Proof. rewrite simplifyActionContext_root. reflexivity. Qed.

Lemma simplify_asActionContext (s : SimpleActionContext) :
  simplifyActionContext (asActionContext s) = s.
Proof.
  induction s as [s IH] using SimpleActionContext_nested_ind.
  destruct s as [n t tg ar [p|] d]; simpl in *; [|reflexivity].
  rewrite (IH p eq_refl). reflexivity.
Qed.

(** C4. Two contexts of one step-chain (same chain root) simplify to the
    same simple context, whose data bag is the bag of the chain root; and
    simplifying a simple context read back as an action context returns
    it unchanged, field by field and parent by parent. *)
Theorem simplifyActionContext_chain_idempotent :
  (forall c1 c2 : ActionContext,
      chainRoot c1 = chainRoot c2 ->
      simplifyActionContext c1 = simplifyActionContext c2 /\
      Simple.data (simplifyActionContext c1) = data (chainRoot c1)) /\
  (forall ctx : ActionContext,
      simplifyActionContext (asActionContext (simplifyActionContext ctx)) =
      simplifyActionContext ctx) /\
  (forall s : SimpleActionContext, simplifyActionContext (asActionContext s) = s).
Proof.
  split; [|split].
  - intros c1 c2 Hroot. split.
    + rewrite (simplifyActionContext_root c1), (simplifyActionContext_root c2).
      simpl. rewrite Hroot. reflexivity.
    + apply simplifyActionContext_data.
  - intros ctx. apply simplify_asActionContext.
  - apply simplify_asActionContext.
Qed.

(** ** The driver monad *)

Lemma result_of_bind {A B} (m : M A) (k : A -> M B) s :
  result_of (bind m k s) = result_of (k (result_of (m s)) (store_of (m s))).
Proof.
  unfold bind, result_of, store_of.
  destruct (m s) as [[a s1] log1]; simpl.
  destruct (k a s1) as [[b s2] log2]; reflexivity.
Qed.

Lemma store_of_bind {A B} (m : M A) (k : A -> M B) s :
  store_of (bind m k s) = store_of (k (result_of (m s)) (store_of (m s))).
Proof.
  unfold bind, result_of, store_of.
  destruct (m s) as [[a s1] log1]; simpl.
  destruct (k a s1) as [[b s2] log2]; reflexivity.
Qed.

Lemma log_of_bind {A B} (m : M A) (k : A -> M B) s :
  log_of (bind m k s) =
  log_of (m s) ++ log_of (k (result_of (m s)) (store_of (m s))).
Proof.
  unfold bind, result_of, store_of, log_of.
  destruct (m s) as [[a s1] log1]; simpl.
  destruct (k a s1) as [[b s2] log2]; reflexivity.
Qed.

Lemma run_eta {A} (r : A * Store * list Event) :
  r = (result_of r, store_of r, log_of r).
Proof. destruct r as [[a s] log]; reflexivity. Qed.

Lemma resume_eq hooks c real :
  resume hooks c real =
  (match Simple.parentContext c with
   | Some parentCtx =>
       fun s =>
         if acceptedInState Suspended (getCtxData (Simple.data parentCtx) s)
         then resume hooks parentCtx false s
         else ret tt s
   | None => ret tt
   end ;;
   setCtxData (Simple.data c)
     {| startAccepted := None;
        state := Some (if real then RealResumed else FakeResumed) |} ;;
   if has_onResume hooks then callHook (OnResume c) else ret tt).
Proof. destruct c; reflexivity. Qed.

Lemma suspend_eq hooks c :
  suspend hooks c =
  (setCtxData (Simple.data c) {| startAccepted := None; state := Some Suspended |} ;;
   (if has_onSuspend hooks then callHook (OnSuspend c) else ret tt) ;;
   match Simple.parentContext c with
   | Some parentCtx =>
       fun s =>
         if acceptedInState FakeResumed (getCtxData (Simple.data parentCtx) s)
         then suspend hooks parentCtx s
         else ret tt s
   | None => ret tt
   end).
Proof. destruct c; reflexivity. Qed.

Lemma keeps_ret {A} I (a : A) : keeps I (ret a).
Proof. intros s Hs. exact Hs. Qed.

Lemma keeps_bind {A B} I (m : M A) (k : A -> M B) :
  keeps I m -> (forall a, keeps I (k a)) -> keeps I (bind m k).
Proof.
  intros Hm Hk s Hs. rewrite store_of_bind. apply Hk, Hm, Hs.
Qed.

Lemma keeps_callHook I h : keeps I (callHook h).
Proof. intros s Hs. exact Hs. Qed.

Lemma keeps_if {A} I (b : bool) (m1 m2 : M A) :
  keeps I m1 -> keeps I m2 -> keeps I (if b then m1 else m2).
Proof. destruct b; auto. Qed.

Lemma keeps_guard {A} I (g : Store -> bool) (m1 m2 : M A) :
  keeps I m1 -> keeps I m2 -> keeps I (fun s => if g s then m1 s else m2 s).
Proof. intros H1 H2 s Hs. destruct (g s); auto. Qed.

Create HintDb keeps.
#[local] Hint Resolve keeps_ret keeps_callHook : keeps.

(** ** The acceptance flag is written by the filter only *)

Lemma startAcceptedAt_setCtxData l l' st s v :
  startAcceptedAt l s = v ->
  startAcceptedAt l
    (store_of (setCtxData l' {| startAccepted := None; state := st |} s)) = v.
Proof.
  unfold startAcceptedAt, getCtxData, setCtxData, store_of; simpl.
  intros <-. destruct (decide (l' = l)) as [->|Hne].
  - rewrite lookup_insert_eq. destruct (s !! l); reflexivity.
  - rewrite lookup_insert_ne by exact Hne. reflexivity.
Qed.

Lemma keeps_startAccepted_set l v l' st :
  keeps (fun s => startAcceptedAt l s = v)
        (setCtxData l' {| startAccepted := None; state := st |}).
Proof. intros s Hs. apply startAcceptedAt_setCtxData, Hs. Qed.

#[local] Hint Resolve keeps_startAccepted_set : keeps.

Lemma keeps_startAccepted_resume hooks l v c :
  forall real, keeps (fun s => startAcceptedAt l s = v) (resume hooks c real).
Proof.
  induction c as [c IH] using SimpleActionContext_nested_ind.
  intros real. rewrite resume_eq.
  apply keeps_bind; [|intros _; apply keeps_bind; [auto with keeps|intros _]].
  - destruct (Simple.parentContext c) as [p|] eqn:Hp; [|auto with keeps].
    apply keeps_guard; [apply (IH p eq_refl)|auto with keeps].
  - apply keeps_if; auto with keeps.
Qed.

Lemma keeps_startAccepted_suspend hooks l v c :
  keeps (fun s => startAcceptedAt l s = v) (suspend hooks c).
Proof.
  induction c as [c IH] using SimpleActionContext_nested_ind.
  rewrite suspend_eq.
  apply keeps_bind; [auto with keeps|intros _].
  apply keeps_bind; [apply keeps_if; auto with keeps|intros _].
  destruct (Simple.parentContext c) as [p|] eqn:Hp; [|auto with keeps].
  apply keeps_guard; [apply (IH p eq_refl)|auto with keeps].
Qed.

Lemma keeps_startAccepted_start l v c :
  keeps (fun s => startAcceptedAt l s = v) (start c).
Proof. unfold start. apply keeps_bind; [auto with keeps|intros _; auto with keeps]. Qed.

Lemma keeps_startAccepted_finish hooks l v c result value :
  keeps (fun s => startAcceptedAt l s = v) (finish hooks c result value).
Proof.
  unfold finish. apply keeps_bind.
  - destruct (Simple.parentContext c) as [p|]; [|auto with keeps].
    apply keeps_guard; [|auto with keeps].
    apply keeps_bind; [apply keeps_startAccepted_resume|intros _; auto with keeps].
  - intros parentResumed.
    apply keeps_bind; [auto with keeps|intros _].
    apply keeps_bind; [auto with keeps|intros _].
    destruct (Simple.parentContext c) as [p|]; [|auto with keeps].
    apply keeps_if; [apply keeps_startAccepted_suspend|auto with keeps].
Qed.

Lemma keeps_startAccepted_filter actionName hooks l v ctx :
  data ctx <> l ->
  keeps (fun s => startAcceptedAt l s = v) (filter actionName hooks ctx).
Proof.
  intros Hne.
  assert (Hacc : keeps (fun s => startAcceptedAt l s = v) (acceptStart hooks ctx)).
  { unfold acceptStart. apply keeps_bind.
    - unfold userFilter. destruct (hooks_filter hooks); [|auto with keeps].
      intros s Hs. exact Hs.
    - intros [|]; [|auto with keeps].
      apply keeps_bind; [|intros _; auto with keeps].
      intros s Hs. unfold startAcceptedAt, getCtxData, setCtxData, store_of; simpl.
      rewrite lookup_insert_ne by exact Hne. exact Hs. }
  unfold filter. destruct (otherAction actionName ctx); [auto with keeps|].
  destruct (type ctx); [exact Hacc|].
  destruct (asyncStepType ctx) as [[| | | |]|]; auto with keeps.
  - intros s Hs. destruct (getCtxData (data (chainRoot ctx)) s); exact Hs.
  - intros s Hs. destruct (getCtxData (data (chainRoot ctx)) s); exact Hs.
Qed.

Lemma keeps_startAccepted_runOps actionName hooks l v ops :
  Forall (opAvoids l) ops ->
  keeps (fun s => startAcceptedAt l s = v) (runOps actionName hooks ops).
Proof.
  induction 1 as [|op ops Hop _ IH]; simpl; [auto with keeps|].
  apply keeps_bind; [|intros _; exact IH].
  destruct op; simpl in *.
  - apply keeps_startAccepted_start.
  - apply keeps_startAccepted_resume.
  - apply keeps_startAccepted_suspend.
  - apply keeps_startAccepted_finish.
  - apply keeps_bind; [apply keeps_startAccepted_filter, Hop|intros _; auto with keeps].
Qed.

(** ** The acceptance filter *)

Lemma otherAction_name actionName c1 c2 :
  name c1 = name c2 -> otherAction actionName c1 = otherAction actionName c2.
Proof. unfold otherAction. intros ->. reflexivity. Qed.

(** What the filter answers on a Return or Throw step that passes the
    action-name gate: the flag found at the chain root, nothing written,
    nobody called. *)
Lemma filter_return_throw actionName hooks ctx s :
  otherAction actionName ctx = false ->
  type ctx = Async ->
  asyncStepType ctx = Some Return \/ asyncStepType ctx = Some Throw ->
  filter actionName hooks ctx s =
  (bool_decide (startAcceptedAt (data (chainRoot ctx)) s = Some true), s, []).
Proof.
  intros Hgate Hty Hstep. unfold filter. rewrite Hgate, Hty.
  unfold startAcceptedAt.
  destruct Hstep as [-> | ->];
    destruct (getCtxData (data (chainRoot ctx)) s) as [[[[|]|] st]|]; reflexivity.
Qed.

(** C3. Take a chain whose Spawn step [spawn] met the filter on a fresh
    bag, let the driver run any operations afterwards (and the filter any
    steps of other bags), and let [ctx] be a Return or Throw step of that
    chain. The filter answers on [ctx] what it answered on [spawn], which
    is true exactly when the chain root carries [startAccepted === true];
    it writes nothing and calls no hook, the user predicate included. *)
Theorem filter_return_throw_inherits_spawn
    actionName hooks (spawn ctx : ActionContext) (s0 : Store) (ops : list DriverOp) :
  type spawn = Async ->
  asyncStepType spawn = Some Spawn ->
  getCtxData (data spawn) s0 = None ->
  Forall (opAvoids (data spawn)) ops ->
  type ctx = Async ->
  asyncStepType ctx = Some Return \/ asyncStepType ctx = Some Throw ->
  chainRoot ctx = spawn ->
  name ctx = name spawn ->
  let spawned := filter actionName hooks spawn s0 in
  let s := store_of (runOps actionName hooks ops (store_of spawned)) in
  filter actionName hooks ctx s = (result_of spawned, s, []) /\
  (result_of spawned = true <->
   startAcceptedAt (data (chainRoot ctx)) s = Some true) /\
  calls (log_of (filter actionName hooks ctx s)) = [].
Proof.
  intros Hty0 Hstep0 Hfresh Hops Hty Hstep Hroot Hname spawned s.
  assert (Hflag : startAcceptedAt (data spawn) (store_of spawned) =
                  if result_of spawned then Some true else None).
  { subst spawned. unfold filter.
    destruct (otherAction actionName spawn).
    { unfold startAcceptedAt, getCtxData, store_of, result_of, ret in *. simpl.
      rewrite Hfresh. reflexivity. }
    rewrite Hty0, Hstep0. unfold acceptStart.
    rewrite store_of_bind, result_of_bind.
    assert (Hu : store_of (userFilter hooks spawn s0) = s0).
    { unfold userFilter. destruct (hooks_filter hooks); reflexivity. }
    rewrite Hu.
    destruct (result_of (userFilter hooks spawn s0)).
    - unfold startAcceptedAt, getCtxData, setCtxData, store_of, result_of, bind, ret.
      simpl. rewrite lookup_insert_eq.
      unfold getCtxData in Hfresh. rewrite Hfresh. reflexivity.
    - unfold startAcceptedAt, getCtxData, store_of, result_of, ret in *. simpl.
      rewrite Hfresh. reflexivity. }
  assert (Hs : startAcceptedAt (data spawn) s =
               if result_of spawned then Some true else None).
  { subst s. apply (keeps_startAccepted_runOps actionName hooks _ _ ops Hops).
    exact Hflag. }
  assert (Hgate : result_of spawned = true -> otherAction actionName ctx = false).
  { rewrite (otherAction_name actionName ctx spawn Hname).
    subst spawned. unfold filter.
    destruct (otherAction actionName spawn); [discriminate|reflexivity]. }
  assert (Heq : filter actionName hooks ctx s = (result_of spawned, s, [])).
  { destruct (otherAction actionName ctx) eqn:Hother.
    - unfold filter. rewrite Hother.
      destruct (result_of spawned); [specialize (Hgate eq_refl); discriminate|].
      reflexivity.
    - rewrite (filter_return_throw _ _ _ _ Hother Hty Hstep), Hroot, Hs.
      destruct (result_of spawned); reflexivity. }
  split; [exact Heq|split].
  - rewrite Hroot, Hs. destruct (result_of spawned); split; congruence.
  - rewrite Heq. reflexivity.
Qed.

(** C8, as stated, fails: with both optional hooks configured and the
    middleware set up for action ["foo"], a Resume step of action ["bar"]
    is rejected. *)
Lemma resume_step_of_other_action_rejected :
  ~ resumeAcceptedIffConfigured (JsString "foo") bothHooks (resumeStepOf "bar" 1%positive) ∅.
Proof.
  unfold resumeAcceptedIffConfigured. intros [_ H].
  specialize (H eq_refl). vm_compute in H. discriminate.
Qed.

(** C8, amended. A Resume or ResumeError step that passes the action-name
    gate is accepted exactly when one of [onResume], [onSuspend] is
    configured, and such a step of another action is rejected whatever
    hooks are configured, the filter writing nothing and calling nobody
    in either case; and the middleware body, entered on such a step with
    neither hook configured or on an async step without a known step
    type, throws the internal-inconsistency failure without calling the
    continuation, a hook, or writing anything. *)
Theorem filter_resume_steps_and_inconsistency
    asyncStepTypeText actionName hooks (ctx : ActionContext)
    (origNext : M Outcome) (s : Store) :
  type ctx = Async ->
  (asyncStepType ctx = Some Resume \/ asyncStepType ctx = Some ResumeError ->
   (otherAction actionName ctx = false ->
    filter actionName hooks ctx s = (has_onResume hooks || has_onSuspend hooks, s, [])) /\
   (truthy actionName = false \/ actionName = JsString (name ctx) ->
    filter actionName hooks ctx s = (has_onResume hooks || has_onSuspend hooks, s, [])) /\
   (otherAction actionName ctx = true ->
    filter actionName hooks ctx s = (false, s, [])) /\
   (forall str,
       actionName = JsString str -> str <> "" -> name ctx <> str ->
       filter actionName hooks ctx s = (false, s, [])) /\
   (has_onResume hooks || has_onSuspend hooks = false ->
    mware asyncStepTypeText hooks ctx origNext s =
    (Thrown (failure ("asssertion error: async step should have been filtered out - "
                      +:+ asyncStepTypeText (asyncStepType ctx))), s, []))) /\
  (asyncStepType ctx = None ->
   mware asyncStepTypeText hooks ctx origNext s =
   (Thrown (failure ("asssertion error: async step should have been filtered out - "
                     +:+ asyncStepTypeText (asyncStepType ctx))), s, [])).
Proof.
  intros Hty. split.
  - intros Hstep.
    assert (Hpass : otherAction actionName ctx = false ->
              filter actionName hooks ctx s =
              (has_onResume hooks || has_onSuspend hooks, s, [])).
    { intros Hgate. unfold filter. rewrite Hgate, Hty.
      destruct Hstep as [-> | ->]; reflexivity. }
    split; [exact Hpass|]. split; [|split; [|split]].
    + intros Hgate. apply Hpass. unfold otherAction.
      destruct Hgate as [-> | ->]; [reflexivity|].
      cbn [strictEqString]. rewrite String.eqb_refl. apply andb_false_r.
    + intros Hgate. unfold filter. rewrite Hgate. reflexivity.
    + intros str -> Hne Hname. unfold filter, otherAction. simpl.
      destruct (String.eqb_spec str "") as [|_]; [contradiction|].
      destruct (String.eqb_spec (name ctx) str) as [|_]; [contradiction|].
      reflexivity.
    + intros Hoff. unfold mware, filteredOut. rewrite Hty.
      destruct Hstep as [-> | ->]; unfold resumeSuspendSupport; rewrite Hoff; reflexivity.
  - intros Hstep. unfold mware, filteredOut. rewrite Hty, Hstep. reflexivity.
Qed.

Lemma filter_resume_steps_and_inconsistency_witness :
  filter (JsString "foo") noOptionalHooks (resumeStepOf "foo" 1%positive) ∅ = (false, ∅, []) /\
  mware stepText noOptionalHooks (resumeStepOf "foo" 1%positive) (ret (Normal JsUndefined)) ∅ =
  (Thrown (failure "asssertion error: async step should have been filtered out - resume"),
   ∅, []).
Proof.
  destruct (filter_resume_steps_and_inconsistency stepText (JsString "foo")
              noOptionalHooks (resumeStepOf "foo" 1%positive) (ret (Normal JsUndefined)) ∅
              eq_refl) as [Hresume _].
  destruct (Hresume (or_introl eq_refl)) as (Hfilter & _ & _ & _ & Hmware).
  split; [exact (Hfilter eq_refl) | exact (Hmware eq_refl)].
Defined.

(** ** Configuration *)

(** C9, as stated, fails: [{ model: m, actionName: "" }] supplies an
    action name, [m[""]] is not a function, and configuration succeeds. *)
Lemma empty_action_name_is_not_checked :
  ~ throwsIffSuppliedNonFunction isM stepText decimalText plainObjectKey
      emptyNameTarget noOptionalHooks.
Proof.
  unfold throwsIffSuppliedNonFunction. intros [_ H].
  destruct H as [err Herr].
  - right. right. split; reflexivity.
  - vm_compute in Herr. discriminate.
Qed.

(** C9, amended. Configuration throws, before any hook is called or any
    record written, exactly when the target is not an object, its model is
    not a Model instance, or [actionName] is truthy and
    [typeof model[actionName]] is not ["function"] (the member at the key
    of [actionName] is not a function, or the conversion of [actionName]
    to a key throws); each case has its own failure, checked in that
    order, and otherwise the middleware object is returned. A falsy
    [actionName] is never looked up; a string is looked up under itself
    and a number under its text, whatever that text is. *)
Theorem actionTrackingMiddleware_validation
    instanceofModel asyncStepTypeText numberToString objectToKey
    (target : JsValue) (hooks : ActionTrackingMiddleware) :
  let model := getProp target "model" in
  let actionName := getProp target "actionName" in
  let created :=
    inr {| mw_middleware := mware asyncStepTypeText hooks;
           mw_filter := filter actionName hooks;
           mw_target := model |} in
  (throwsAtConfiguration instanceofModel asyncStepTypeText numberToString objectToKey
     target hooks <->
   (isObject target = false \/ instanceofModel model = false \/
    (truthy actionName = true /\
     memberIsFunction numberToString objectToKey model actionName = false))) /\
  actionTrackingMiddleware instanceofModel asyncStepTypeText numberToString objectToKey
    target hooks =
  (if negb (isObject target) then inl (failure "target must be an object")
   else if negb (instanceofModel model) then inl (failure "target must be a model")
   else if truthy actionName
        then match toPropertyKey numberToString objectToKey actionName with
             | inl err => inl err
             | inr key =>
                 if isFunction (getProp model key) then created
                 else inl (failure "action must be a function or undefined")
             end
        else created) /\
  (forall str,
      actionName = JsString str ->
      memberIsFunction numberToString objectToKey model actionName =
        isFunction (getProp model str)) /\
  (forall n,
      actionName = JsNumber n ->
      memberIsFunction numberToString objectToKey model actionName =
        isFunction (getProp model (numberToString n))).
Proof.
  intros model actionName created.
  unfold throwsAtConfiguration, actionTrackingMiddleware, memberIsFunction.
  fold model. fold actionName. cbv zeta. fold created.
  split; [|split; [|split]].
  - destruct (isObject target), (instanceofModel model), (truthy actionName);
      cbn [negb];
      try (split; [intros _; tauto | intros _; eexists; reflexivity]).
    + destruct (toPropertyKey numberToString objectToKey actionName) as [err|key].
      * split; [intros _; right; right; split; reflexivity|intros _; eexists; reflexivity].
      * destruct (isFunction (getProp model key)); cbn [negb]; split.
        -- intros [err Herr]. discriminate Herr.
        -- intros [H|[H|[_ H]]]; discriminate H.
        -- intros _. right. right. split; reflexivity.
        -- intros _. eexists. reflexivity.
    + split; [intros [err Herr]; discriminate Herr|].
      intros [H|[H|[H _]]]; discriminate H.
  - destruct (isObject target), (instanceofModel model), (truthy actionName);
      cbn [negb]; try reflexivity.
    destruct (toPropertyKey numberToString objectToKey actionName) as [err|key];
      [reflexivity|].
    destruct (isFunction (getProp model key)); reflexivity.
  - intros str ->. reflexivity.
  - intros n ->. reflexivity.
Qed.

(** ** The lifecycle driver *)

Lemma shape_setCtxData l st s :
  map shape (log_of (setCtxData l {| startAccepted := None; state := Some st |} s)) =
  [SWrite l (Some st)].
Proof.
  unfold setCtxData, log_of; simpl. destruct (s !! l); reflexivity.
Qed.

Lemma shape_optional_call (configured : bool) h s :
  map shape (log_of ((if configured then callHook h else ret tt) s)) =
  optCall configured h.
Proof. destruct configured; reflexivity. Qed.

Lemma store_of_optional_call (configured : bool) h s :
  store_of ((if configured then callHook h else ret tt) s) = s.
Proof. destruct configured; reflexivity. Qed.

Lemma stateAt_mark l st s : stateAt l (mark l st s) = Some st.
Proof.
  unfold stateAt, mark, setCtxData, store_of; simpl.
  rewrite lookup_insert_eq. destruct (s !! l); reflexivity.
Qed.

Lemma lookup_mark_ne l l' st s : l <> l' -> mark l st s !! l' = s !! l'.
Proof.
  intros Hne. unfold mark, setCtxData, store_of; simpl.
  apply lookup_insert_ne, Hne.
Qed.

Lemma startAcceptedAt_mark l l' st s :
  startAcceptedAt l (mark l' st s) = startAcceptedAt l s.
Proof. unfold mark. apply startAcceptedAt_setCtxData. reflexivity. Qed.

Lemma suspendedRun_eq s c :
  suspendedRun s c =
  match Simple.parentContext c with
  | Some p =>
      if acceptedInState Suspended (getCtxData (Simple.data p) s)
      then p :: suspendedRun s p
      else []
  | None => []
  end.
Proof. destruct c; reflexivity. Qed.

Lemma fakeResumedRun_eq s c :
  fakeResumedRun s c =
  match Simple.parentContext c with
  | Some p =>
      if acceptedInState FakeResumed
           (getCtxData (Simple.data p) (mark (Simple.data c) Suspended s))
      then p :: fakeResumedRun (mark (Simple.data c) Suspended s) p
      else []
  | None => []
  end.
Proof. destruct c; reflexivity. Qed.

(** [resume] first walks up the run of suspended ancestors, all looked at
    in the store of the call, and then marks and announces them from the
    topmost down, each as a fake resume, before the context itself. *)
Lemma shape_resume hooks c :
  forall real s,
    map shape (log_of (resume hooks c real s)) =
    flat_map (resumeShape hooks false) (rev (suspendedRun s c))
    ++ resumeShape hooks real c.
Proof.
  induction c as [c IH] using SimpleActionContext_nested_ind.
  intros real s. rewrite resume_eq.
  rewrite log_of_bind, map_app, log_of_bind, map_app.
  rewrite shape_setCtxData, shape_optional_call, suspendedRun_eq.
  change ([SWrite (Simple.data c) (Some (if real then RealResumed else FakeResumed))]
          ++ optCall (has_onResume hooks) (OnResume c))
    with (resumeShape hooks real c).
  destruct (Simple.parentContext c) as [p|] eqn:Hp; [|reflexivity].
  destruct (acceptedInState Suspended (getCtxData (Simple.data p) s)) eqn:Hcond;
    [|reflexivity].
  rewrite (IH p eq_refl). cbn [rev].
  rewrite flat_map_app. cbn [flat_map]. rewrite app_nil_r. reflexivity.
Qed.

Lemma store_of_resume hooks c real s :
  store_of (resume hooks c real s) =
  mark (Simple.data c) (if real then RealResumed else FakeResumed)
    (match Simple.parentContext c with
     | Some p =>
         if acceptedInState Suspended (getCtxData (Simple.data p) s)
         then store_of (resume hooks p false s)
         else s
     | None => s
     end).
Proof.
  rewrite resume_eq, store_of_bind, store_of_bind, store_of_optional_call.
  unfold mark. f_equal.
  destruct (Simple.parentContext c) as [p|]; [|reflexivity].
  destruct (acceptedInState Suspended (getCtxData (Simple.data p) s)); reflexivity.
Qed.

(** [suspend] marks and announces the context, then goes up through the
    run of fake-resumed ancestors. *)
Lemma shape_suspend hooks c :
  forall s,
    map shape (log_of (suspend hooks c s)) =
    flat_map (suspendShape hooks) (c :: fakeResumedRun s c).
Proof.
  induction c as [c IH] using SimpleActionContext_nested_ind.
  intros s. rewrite suspend_eq.
  rewrite log_of_bind, map_app, log_of_bind, map_app.
  rewrite shape_setCtxData, shape_optional_call, store_of_optional_call.
  rewrite fakeResumedRun_eq. fold (mark (Simple.data c) Suspended s).
  cbn [flat_map]. unfold suspendShape at 1. cbn [app]. f_equal. f_equal.
  destruct (Simple.parentContext c) as [p|] eqn:Hp; [|reflexivity].
  destruct (acceptedInState FakeResumed
              (getCtxData (Simple.data p) (mark (Simple.data c) Suspended s))) eqn:Hcond;
    [|reflexivity].
  apply (IH p eq_refl).
Qed.

Lemma store_of_suspend hooks c s :
  store_of (suspend hooks c s) =
  match Simple.parentContext c with
  | Some p =>
      if acceptedInState FakeResumed
           (getCtxData (Simple.data p) (mark (Simple.data c) Suspended s))
      then store_of (suspend hooks p (mark (Simple.data c) Suspended s))
      else mark (Simple.data c) Suspended s
  | None => mark (Simple.data c) Suspended s
  end.
Proof.
  rewrite suspend_eq, store_of_bind, store_of_bind, store_of_optional_call.
  fold (mark (Simple.data c) Suspended s).
  destruct (Simple.parentContext c) as [p|]; [|reflexivity].
  destruct (acceptedInState FakeResumed
              (getCtxData (Simple.data p) (mark (Simple.data c) Suspended s)));
    reflexivity.
Qed.

Lemma stateAt_mark_ne l l' st s : l <> l' -> stateAt l' (mark l st s) = stateAt l' s.
Proof. intros Hne. unfold stateAt. rewrite lookup_mark_ne by exact Hne. reflexivity. Qed.

Lemma stateAt_mark_keeps l l' st s :
  stateAt l' s = Some st -> stateAt l' (mark l st s) = Some st.
Proof.
  intros Hs. destruct (decide (l = l')) as [->|Hne].
  - apply stateAt_mark.
  - rewrite stateAt_mark_ne by exact Hne. exact Hs.
Qed.

Lemma suspendedRun_ancestors s c :
  forall a, In a (suspendedRun s c) ->
            In a (ancestors c) /\
            acceptedInState Suspended (getCtxData (Simple.data a) s) = true.
Proof.
  induction c as [c IH] using SimpleActionContext_nested_ind.
  intros a. rewrite suspendedRun_eq.
  destruct c as [n t tg ar [p|] d]; simpl; [|tauto].
  destruct (acceptedInState Suspended (getCtxData (Simple.data p) s)) eqn:Hcond;
    simpl; [|tauto].
  intros [<-|Hin]; [tauto|].
  destruct (IH p eq_refl a Hin). tauto.
Qed.

Lemma fakeResumedRun_ancestors c :
  forall s a, In a (fakeResumedRun s c) -> In a (ancestors c).
Proof.
  induction c as [c IH] using SimpleActionContext_nested_ind.
  intros s a. rewrite fakeResumedRun_eq.
  destruct c as [n t tg ar [p|] d]; simpl; [|tauto].
  destruct (acceptedInState FakeResumed (getCtxData (Simple.data p) (mark d Suspended s)));
    simpl; [|tauto].
  intros [<-|Hin]; [tauto|]. right. exact (IH p eq_refl _ a Hin).
Qed.

(** Every ancestor of the suspended run is fake-resumed in the store in
    which the context itself is then marked. *)
Lemma resume_marks_run hooks c :
  forall real s a,
    In a (suspendedRun s c) ->
    Simple.data a <> Simple.data c ->
    stateAt (Simple.data a) (store_of (resume hooks c real s)) = Some FakeResumed.
Proof.
  induction c as [c IH] using SimpleActionContext_nested_ind.
  intros real s a Hin Hne. rewrite store_of_resume.
  rewrite stateAt_mark_ne by congruence.
  rewrite suspendedRun_eq in Hin.
  destruct (Simple.parentContext c) as [p|] eqn:Hp; [|contradiction].
  destruct (acceptedInState Suspended (getCtxData (Simple.data p) s)); [|contradiction].
  destruct (decide (Simple.data a = Simple.data p)) as [Heq|Hne'].
  - rewrite Heq, store_of_resume. apply stateAt_mark.
  - destruct Hin as [<-|Hin]; [congruence|].
    apply (IH p eq_refl false s a Hin Hne').
Qed.

(** C7, as stated, fails: the parent of the resumed context has no
    tracking record, so the walk stops there and the accepted, suspended
    grandparent stays suspended. *)
Lemma suspended_grandparent_not_resumed :
  ~ everySuspendedAncestorResumed bothHooks grandchildCtx true grandparentSuspended.
Proof.
  intros H.
  specialize (H grandparentCtx (or_intror (or_introl eq_refl)) eq_refl).
  vm_compute in H. discriminate.
Qed.

(** C7, amended. [resume(ctx, real)] resumes the unbroken run of accepted,
    suspended ancestors that starts at the parent of [ctx] (the walk stops
    at the first ancestor that is not accepted or not suspended, as the
    store stood at the call): topmost first, each marked [fakeResumed]
    and announced through [onResume] when that hook is configured, whatever
    [real] is; only then is [ctx] itself marked ([realResumed] if [real],
    [fakeResumed] otherwise) and announced. *)
Theorem resume_fake_resumes_suspended_run
    hooks (c : SimpleActionContext) (real : bool) (s : Store) :
  map shape (log_of (resume hooks c real s)) =
    flat_map (resumeShape hooks false) (rev (suspendedRun s c))
    ++ resumeShape hooks real c /\
  suspendedRun s c =
    match Simple.parentContext c with
    | Some p =>
        if acceptedInState Suspended (getCtxData (Simple.data p) s)
        then p :: suspendedRun s p
        else []
    | None => []
    end /\
  Forall (fun a =>
            In a (ancestors c) /\
            acceptedInState Suspended (getCtxData (Simple.data a) s) = true /\
            (Simple.data a <> Simple.data c ->
             stateAt (Simple.data a) (store_of (resume hooks c real s))
             = Some FakeResumed))
         (suspendedRun s c) /\
  stateAt (Simple.data c) (store_of (resume hooks c real s)) =
    Some (if real then RealResumed else FakeResumed).
Proof.
  split; [apply shape_resume|].
  split; [apply suspendedRun_eq|].
  split.
  - apply Forall_forall. intros a Hin.
    destruct (suspendedRun_ancestors s c a) as [Hanc Hcond].
    { apply list_elem_of_In, Hin. }
    split; [exact Hanc|]. split; [exact Hcond|].
    intros Hne. apply resume_marks_run; [apply list_elem_of_In, Hin|exact Hne].
  - rewrite store_of_resume. apply stateAt_mark.
Qed.

Lemma acceptedInState_state st d :
  acceptedInState st d = true ->
  (d ≫= startAccepted) = Some true /\ (d ≫= state) = Some st.
Proof.
  destruct d as [[[[|]|] [x|]]|]; simpl; try discriminate.
  intros H. apply bool_decide_eq_true in H. subst. split; reflexivity.
Qed.

Lemma log_of_suspend hooks c s :
  log_of (suspend hooks c s) =
  log_of (setCtxData (Simple.data c)
            {| startAccepted := None; state := Some Suspended |} s)
  ++ (if has_onSuspend hooks
      then [Call (OnSuspend c) (mark (Simple.data c) Suspended s)] else [])
  ++ match Simple.parentContext c with
     | Some p =>
         if acceptedInState FakeResumed
              (getCtxData (Simple.data p) (mark (Simple.data c) Suspended s))
         then log_of (suspend hooks p (mark (Simple.data c) Suspended s))
         else []
     | None => []
     end.
Proof.
  rewrite suspend_eq, log_of_bind, log_of_bind, store_of_optional_call.
  fold (mark (Simple.data c) Suspended s).
  f_equal. f_equal.
  - destruct (has_onSuspend hooks); reflexivity.
  - destruct (Simple.parentContext c) as [p|]; [|reflexivity].
    destruct (acceptedInState FakeResumed
                (getCtxData (Simple.data p) (mark (Simple.data c) Suspended s)));
      reflexivity.
Qed.

(** C6. [suspend] marks the context [suspended], then calls its
    [onSuspend] hook when configured, which reads that state, and only
    then looks at the parent: it goes on with the parent exactly when the
    parent's record is accepted and [fakeResumed], so every propagated
    re-suspend comes after the hook of the context below, and a parent in
    state [realResumed] stops the propagation. *)
Theorem suspend_then_fake_resumed_parents hooks (c : SimpleActionContext) (s : Store) :
  let s1 := mark (Simple.data c) Suspended s in
  log_of (suspend hooks c s) =
    log_of (setCtxData (Simple.data c)
              {| startAccepted := None; state := Some Suspended |} s)
    ++ (if has_onSuspend hooks then [Call (OnSuspend c) s1] else [])
    ++ match Simple.parentContext c with
       | Some p =>
           if acceptedInState FakeResumed (getCtxData (Simple.data p) s1)
           then log_of (suspend hooks p s1)
           else []
       | None => []
       end /\
  stateAt (Simple.data c) s1 = Some Suspended /\
  map shape (log_of (suspend hooks c s)) =
    suspendShape hooks c ++ flat_map (suspendShape hooks) (fakeResumedRun s c) /\
  Forall (fun a => In a (ancestors c)) (fakeResumedRun s c) /\
  (forall p,
      Simple.parentContext c = Some p ->
      (Simple.data p <> Simple.data c ->
       getCtxData (Simple.data p) s1 = getCtxData (Simple.data p) s) /\
      (stateAt (Simple.data p) s = Some RealResumed ->
       fakeResumedRun s c = [] /\
       map shape (log_of (suspend hooks c s)) = suspendShape hooks c /\
       store_of (suspend hooks c s) = s1)).
Proof.
  intros s1. split; [apply log_of_suspend|].
  split; [apply stateAt_mark|].
  split; [apply (shape_suspend hooks c s)|].
  split.
  { apply Forall_forall. intros a Hin.
    apply (fakeResumedRun_ancestors c s a), list_elem_of_In, Hin. }
  intros p Hp. split.
  - intros Hne. unfold getCtxData. apply lookup_mark_ne. congruence.
  - intros Hreal.
    assert (Hcond : acceptedInState FakeResumed (getCtxData (Simple.data p) s1) = false).
    { destruct (acceptedInState FakeResumed (getCtxData (Simple.data p) s1)) eqn:Hc;
        [|reflexivity].
      apply acceptedInState_state in Hc. destruct Hc as [_ Hst].
      change (stateAt (Simple.data p) s1 = Some FakeResumed) in Hst.
      subst s1. destruct (decide (Simple.data c = Simple.data p)) as [Heq|Hne].
      - rewrite <- Heq, stateAt_mark in Hst. discriminate.
      - rewrite stateAt_mark_ne in Hst by exact Hne. congruence. }
    assert (Hrun : fakeResumedRun s c = []).
    { rewrite fakeResumedRun_eq, Hp. fold s1. rewrite Hcond. reflexivity. }
    split; [exact Hrun|]. split.
    + rewrite (shape_suspend hooks c s). cbn [flat_map]. rewrite Hrun.
      cbn [flat_map]. apply app_nil_r.
    + rewrite store_of_suspend, Hp. fold s1. rewrite Hcond. reflexivity.
Qed.

Lemma suspend_then_fake_resumed_parents_witness :
  fakeResumedRun
    {[ 1%positive := {| startAccepted := Some true; state := Some RealResumed |} ]}
    untrackedParentCtx = [] /\
  store_of (suspend bothHooks untrackedParentCtx
              {[ 1%positive := {| startAccepted := Some true; state := Some RealResumed |} ]})
  = mark 2%positive Suspended
      {[ 1%positive := {| startAccepted := Some true; state := Some RealResumed |} ]}.
Proof.
  pose proof (suspend_then_fake_resumed_parents bothHooks untrackedParentCtx
    {[ 1%positive := {| startAccepted := Some true; state := Some RealResumed |} ]})
    as (_ & _ & _ & _ & Hpar).
  destruct (Hpar grandparentCtx eq_refl) as [_ Hreal].
  destruct (Hreal eq_refl) as (Hrun & _ & Hstore).
  split; [exact Hrun | exact Hstore].
Defined.

Lemma suspend_state_cases hooks c :
  forall s l,
    stateAt l (store_of (suspend hooks c s)) = stateAt l s \/
    stateAt l (store_of (suspend hooks c s)) = Some Suspended.
Proof.
  induction c as [c IH] using SimpleActionContext_nested_ind.
  intros s l. rewrite store_of_suspend.
  assert (Hmark : stateAt l (mark (Simple.data c) Suspended s) = stateAt l s \/
                  stateAt l (mark (Simple.data c) Suspended s) = Some Suspended).
  { destruct (decide (Simple.data c = l)) as [<-|Hne].
    - right. apply stateAt_mark.
    - left. apply stateAt_mark_ne, Hne. }
  destruct (Simple.parentContext c) as [p|] eqn:Hp; [|exact Hmark].
  destruct (acceptedInState FakeResumed
              (getCtxData (Simple.data p) (mark (Simple.data c) Suspended s)));
    [|exact Hmark].
  destruct (IH p eq_refl (mark (Simple.data c) Suspended s) l) as [H|H];
    [rewrite H; exact Hmark | right; exact H].
Qed.

Lemma suspend_own_state hooks c s :
  stateAt (Simple.data c) (store_of (suspend hooks c s)) = Some Suspended.
Proof.
  rewrite store_of_suspend.
  destruct (Simple.parentContext c) as [p|]; [|apply stateAt_mark].
  destruct (acceptedInState FakeResumed
              (getCtxData (Simple.data p) (mark (Simple.data c) Suspended s)));
    [|apply stateAt_mark].
  destruct (suspend_state_cases hooks p (mark (Simple.data c) Suspended s) (Simple.data c))
    as [H|H]; [rewrite H; apply stateAt_mark | exact H].
Qed.

Lemma run_ext {A} (r1 r2 : A * Store * list Event) :
  result_of r1 = result_of r2 ->
  store_of r1 = store_of r2 ->
  log_of r1 = log_of r2 ->
  r1 = r2.
Proof.
  destruct r1 as [[a1 s1] l1], r2 as [[a2 s2] l2].
  unfold result_of, store_of, log_of; simpl. congruence.
Qed.

Lemma bind_ret_run {A B} (m : M A) (b : B) s :
  (m ;; ret b) s = (b, store_of (m s), log_of (m s)).
Proof.
  unfold bind, ret, store_of, log_of. destruct (m s) as [[a s1] l1]; simpl.
  rewrite app_nil_r. reflexivity.
Qed.

Lemma unit_result (m : M unit) s : result_of (m s) = tt.
Proof. destruct (result_of (m s)). reflexivity. Qed.

Lemma finish_run hooks c result value s :
  finish hooks c result value s =
  let plain :=
    (tt, mark (Simple.data c) Finished s,
     log_of (finishWrite c s)
     ++ [Call (OnFinish c result value) (mark (Simple.data c) Finished s)]) in
  match Simple.parentContext c with
  | Some p =>
      if acceptedInState Suspended (getCtxData (Simple.data p) s)
      then
        let s1 := store_of (resume hooks p false s) in
        let s2 := mark (Simple.data c) Finished s1 in
        (tt, store_of (suspend hooks p s2),
         log_of (resume hooks p false s)
         ++ log_of (finishWrite c s1)
         ++ [Call (OnFinish c result value) s2]
         ++ log_of (suspend hooks p s2))
      else plain
  | None => plain
  end.
Proof.
  cbv zeta.
  assert (Hplain :
             (ret false ;; finishWrite c ;; callHook (OnFinish c result value) ;; ret tt) s =
             (tt, mark (Simple.data c) Finished s,
              log_of (finishWrite c s)
              ++ [Call (OnFinish c result value) (mark (Simple.data c) Finished s)])).
  { unfold finishWrite, mark, store_of, log_of, bind, ret, callHook, setCtxData.
    simpl. reflexivity. }
  unfold finish. fold (finishWrite c).
  destruct (Simple.parentContext c) as [p|].
  - destruct (acceptedInState Suspended (getCtxData (Simple.data p) s)) eqn:Hcond.
    + apply run_ext.
      * rewrite unit_result. reflexivity.
      * rewrite store_of_bind. cbv beta. rewrite Hcond, bind_ret_run.
        cbn [result_of store_of fst snd].
        rewrite store_of_bind, store_of_bind. reflexivity.
      * rewrite log_of_bind. cbv beta. rewrite Hcond, bind_ret_run.
        cbn [result_of store_of log_of fst snd].
        rewrite log_of_bind, log_of_bind. reflexivity.
    + unfold bind at 1. rewrite Hcond. exact Hplain.
  - exact Hplain.
Qed.

Lemma shape_finishWrite c result value s :
  map shape (log_of (finishWrite c s)
             ++ [Call (OnFinish c result value) (mark (Simple.data c) Finished s)]) =
  finishShape c result value.
Proof.
  rewrite map_app. unfold finishWrite. rewrite shape_setCtxData. reflexivity.
Qed.

Lemma shape_finish hooks c result value s :
  map shape (log_of (finish hooks c result value s)) =
  match Simple.parentContext c with
  | Some p =>
      if acceptedInState Suspended (getCtxData (Simple.data p) s)
      then
        (flat_map (resumeShape hooks false) (rev (suspendedRun s p))
         ++ resumeShape hooks false p)
        ++ finishShape c result value
        ++ (suspendShape hooks p
            ++ flat_map (suspendShape hooks)
                 (fakeResumedRun
                    (mark (Simple.data c) Finished (store_of (resume hooks p false s))) p))
      else finishShape c result value
  | None => finishShape c result value
  end.
Proof.
  rewrite finish_run. cbv zeta.
  destruct (Simple.parentContext c) as [p|]; [|apply shape_finishWrite].
  destruct (acceptedInState Suspended (getCtxData (Simple.data p) s));
    [|apply shape_finishWrite].
  cbn [log_of snd]. rewrite map_app, shape_resume.
  rewrite app_assoc, map_app, shape_finishWrite, shape_suspend. reflexivity.
Qed.

(** C2. When the parent of a finishing invocation is accepted and
    suspended, [finish] resumes the parent as a fake resume (its
    [onResume] fires when configured), then marks the child finished and
    calls [onFinish], which reads the child as finished and the parent as
    fake-resumed, and right after that suspends the parent again (its
    [onSuspend] fires when configured), leaving it suspended. When there
    is no parent, or the parent is untracked or not suspended, [finish]
    only marks the child and calls [onFinish]. *)
Theorem finish_fake_resumes_suspended_parent
    hooks (c : SimpleActionContext) (result : ActionTrackingResult)
    (value : JsValue) (s : Store) :
  let plain :=
    map shape (log_of (finish hooks c result value s)) = finishShape c result value /\
    store_of (finish hooks c result value s) = mark (Simple.data c) Finished s /\
    log_of (finish hooks c result value s) =
      log_of (finishWrite c s)
      ++ [Call (OnFinish c result value) (mark (Simple.data c) Finished s)] in
  match Simple.parentContext c with
  | Some p =>
      if acceptedInState Suspended (getCtxData (Simple.data p) s)
      then
        let s1 := store_of (resume hooks p false s) in
        let s2 := mark (Simple.data c) Finished s1 in
        log_of (finish hooks c result value s) =
          log_of (resume hooks p false s)
          ++ log_of (finishWrite c s1)
          ++ [Call (OnFinish c result value) s2]
          ++ log_of (suspend hooks p s2) /\
        map shape (log_of (finish hooks c result value s)) =
          (flat_map (resumeShape hooks false) (rev (suspendedRun s p))
           ++ resumeShape hooks false p)
          ++ finishShape c result value
          ++ (suspendShape hooks p
              ++ flat_map (suspendShape hooks) (fakeResumedRun s2 p)) /\
        stateAt (Simple.data p) s1 = Some FakeResumed /\
        stateAt (Simple.data c) s2 = Some Finished /\
        (Simple.data p <> Simple.data c ->
         stateAt (Simple.data p) s2 = Some FakeResumed) /\
        stateAt (Simple.data p) (store_of (finish hooks c result value s))
        = Some Suspended
      else plain
  | None => plain
  end.
Proof.
  intros plain. pose proof (finish_run hooks c result value s) as Hrun.
  cbv zeta in Hrun.
  assert (Hplain : finish hooks c result value s =
                   (tt, mark (Simple.data c) Finished s,
                    log_of (finishWrite c s)
                    ++ [Call (OnFinish c result value) (mark (Simple.data c) Finished s)])
                   -> plain).
  { subst plain. intros ->. cbn [log_of store_of fst snd].
    split; [apply shape_finishWrite|]. split; reflexivity. }
  destruct (Simple.parentContext c) as [p|]; [|exact (Hplain Hrun)].
  destruct (acceptedInState Suspended (getCtxData (Simple.data p) s)) eqn:Hcond;
    [|exact (Hplain Hrun)].
  clear Hplain plain. cbv zeta. rewrite Hrun. cbn [log_of store_of fst snd].
  split; [reflexivity|]. split.
  { rewrite map_app, shape_resume.
    rewrite app_assoc, map_app, shape_finishWrite, shape_suspend.
    reflexivity. }
  split; [rewrite store_of_resume; apply stateAt_mark|].
  split; [apply stateAt_mark|].
  split.
  - intros Hne. rewrite stateAt_mark_ne by congruence.
    rewrite store_of_resume. apply stateAt_mark.
  - apply suspend_own_state.
Qed.

(** ** Hooks read the state just written *)

Lemma log_of_resume hooks c (real : bool) s :
  let pre : unit * Store * list Event :=
    match Simple.parentContext c with
    | Some p =>
        if acceptedInState Suspended (getCtxData (Simple.data p) s)
        then resume hooks p false s
        else ret tt s
    | None => ret tt s
    end in
  let st := if real then RealResumed else FakeResumed in
  log_of (resume hooks c real s) =
  log_of pre
  ++ log_of (setCtxData (Simple.data c)
               {| startAccepted := None; state := Some st |} (store_of pre))
  ++ (if has_onResume hooks
      then [Call (OnResume c) (mark (Simple.data c) st (store_of pre))] else []).
Proof.
  cbv zeta. rewrite resume_eq, log_of_bind, log_of_bind.
  destruct (Simple.parentContext c) as [p|]; cbv beta;
    [destruct (acceptedInState Suspended (getCtxData (Simple.data p) s))|];
    destruct (has_onResume hooks); reflexivity.
Qed.

Lemma informs_write l d s : Forall seesPostState (log_of (setCtxData l d s)).
Proof. repeat constructor. Qed.

Lemma informs_resume hooks c :
  forall real s, Forall seesPostState (log_of (resume hooks c real s)).
Proof.
  induction c as [c IH] using SimpleActionContext_nested_ind.
  intros real s. rewrite log_of_resume. cbv zeta.
  repeat apply Forall_app_2.
  - destruct (Simple.parentContext c) as [p|] eqn:Hp; [|constructor].
    destruct (acceptedInState Suspended (getCtxData (Simple.data p) s));
      [apply (IH p eq_refl)|constructor].
  - apply informs_write.
  - destruct (has_onResume hooks); [|constructor].
    constructor; [|constructor]. simpl. rewrite stateAt_mark.
    destruct real; [left|right]; reflexivity.
Qed.

Lemma informs_suspend hooks c :
  forall s, Forall seesPostState (log_of (suspend hooks c s)).
Proof.
  induction c as [c IH] using SimpleActionContext_nested_ind.
  intros s. rewrite log_of_suspend.
  repeat apply Forall_app_2.
  - apply informs_write.
  - destruct (has_onSuspend hooks); [|constructor].
    constructor; [|constructor]. simpl. apply stateAt_mark.
  - destruct (Simple.parentContext c) as [p|] eqn:Hp; [|constructor].
    destruct (acceptedInState FakeResumed
                (getCtxData (Simple.data p) (mark (Simple.data c) Suspended s)));
      [apply (IH p eq_refl)|constructor].
Qed.

Lemma log_of_start c s :
  log_of (start c s) =
  log_of (setCtxData (Simple.data c) {| startAccepted := None; state := Some Started |} s)
  ++ [Call (OnStart c) (mark (Simple.data c) Started s)].
Proof. unfold start. rewrite log_of_bind. reflexivity. Qed.

Lemma informs_start c s : Forall seesPostState (log_of (start c s)).
Proof.
  rewrite log_of_start. apply Forall_app_2; [apply informs_write|].
  constructor; [|constructor]. simpl. apply stateAt_mark.
Qed.

Lemma informs_finish hooks c result value s :
  Forall seesPostState (log_of (finish hooks c result value s)).
Proof.
  rewrite finish_run. cbv zeta.
  assert (Hown : forall s', Forall seesPostState
            (log_of (finishWrite c s')
             ++ [Call (OnFinish c result value) (mark (Simple.data c) Finished s')])).
  { intros s'. apply Forall_app_2; [apply informs_write|].
    constructor; [|constructor]. simpl. apply stateAt_mark. }
  destruct (Simple.parentContext c) as [p|]; [|apply Hown].
  destruct (acceptedInState Suspended (getCtxData (Simple.data p) s)); [|apply Hown].
  cbn [log_of snd]. apply Forall_app_2; [apply informs_resume|].
  rewrite app_assoc. apply Forall_app_2; [apply Hown|apply informs_suspend].
Qed.

(** C10. In [start], [resume], [suspend] and [finish] the write of the new
    state comes before the hook: every hook call of these operations, the
    propagated ones included, reads from the record of its own context the
    state the operation has just set ([started]; [realResumed] or
    [fakeResumed], as the flag says; [suspended]; [finished]). *)
Theorem hooks_read_the_new_state
    hooks (c : SimpleActionContext) (real : bool)
    (result : ActionTrackingResult) (value : JsValue) (s : Store) :
  (Forall seesPostState (log_of (start c s)) /\
   log_of (start c s) =
     log_of (setCtxData (Simple.data c)
               {| startAccepted := None; state := Some Started |} s)
     ++ [Call (OnStart c) (mark (Simple.data c) Started s)]) /\
  (Forall seesPostState (log_of (resume hooks c real s)) /\
   exists pre,
     log_of (resume hooks c real s) =
       pre ++ (if has_onResume hooks
               then [Call (OnResume c) (store_of (resume hooks c real s))] else []) /\
     stateAt (Simple.data c) (store_of (resume hooks c real s)) =
       Some (if real then RealResumed else FakeResumed)) /\
  (Forall seesPostState (log_of (suspend hooks c s)) /\
   exists post,
     log_of (suspend hooks c s) =
       log_of (setCtxData (Simple.data c)
                 {| startAccepted := None; state := Some Suspended |} s)
       ++ (if has_onSuspend hooks
           then [Call (OnSuspend c) (mark (Simple.data c) Suspended s)] else [])
       ++ post) /\
  (Forall seesPostState (log_of (finish hooks c result value s)) /\
   exists pre seen post,
     log_of (finish hooks c result value s) =
       pre ++ [Call (OnFinish c result value) seen] ++ post /\
     stateAt (Simple.data c) seen = Some Finished).
Proof.
  split; [split; [apply informs_start|apply log_of_start]|].
  split.
  { split; [apply informs_resume|].
    eexists. split.
    - rewrite log_of_resume. cbv zeta. rewrite app_assoc.
      rewrite store_of_resume. f_equal.
      destruct (Simple.parentContext c) as [p|]; [|reflexivity].
      destruct (acceptedInState Suspended (getCtxData (Simple.data p) s)); reflexivity.
    - rewrite store_of_resume. apply stateAt_mark. }
  split.
  { split; [apply informs_suspend|]. eexists. apply log_of_suspend. }
  split; [apply informs_finish|].
  rewrite finish_run. cbv zeta.
  destruct (Simple.parentContext c) as [p|].
  - destruct (acceptedInState Suspended (getCtxData (Simple.data p) s)).
    + cbn [log_of snd]. eexists _, _, _. split.
      * rewrite app_assoc. reflexivity.
      * apply stateAt_mark.
    + cbn [log_of snd]. eexists _, _, []. split; [reflexivity|apply stateAt_mark].
  - cbn [log_of snd]. eexists _, _, []. split; [reflexivity|apply stateAt_mark].
Qed.

Lemma filter_return_throw_inherits_spawn_witness :
  filter (JsString "fetch") bothHooks fetchReturn
    {[ 1%positive := {| startAccepted := Some true; state := Some Suspended |} ]} =
  (true, {[ 1%positive := {| startAccepted := Some true; state := Some Suspended |} ]}, []).
Proof.
  refine (proj1 (filter_return_throw_inherits_spawn
                   (JsString "fetch") bothHooks fetchSpawn fetchReturn ∅ fetchOps
                   eq_refl eq_refl eq_refl _
                   eq_refl (or_introl eq_refl) eq_refl eq_refl)).
  unfold fetchOps. repeat constructor. simpl. discriminate.
Defined.

(** ** The middleware entry point *)

Lemma wrapNext_run hooks c (origNext : M Outcome) s :
  let rb := origNext (store_of (resume hooks c true s)) in
  wrapNext hooks c origNext s =
  (result_of rb, store_of (suspend hooks c (store_of rb)),
   log_of (resume hooks c true s) ++ log_of rb ++ log_of (suspend hooks c (store_of rb))).
Proof.
  cbv zeta. unfold wrapNext. apply run_ext; cbn [result_of store_of log_of fst snd].
  - rewrite result_of_bind, result_of_bind, bind_ret_run. reflexivity.
  - rewrite store_of_bind, store_of_bind, bind_ret_run. reflexivity.
  - rewrite log_of_bind, log_of_bind, bind_ret_run. reflexivity.
Qed.

Lemma mware_sync_run asyncStepTypeText hooks ctx (origNext : M Outcome) s :
  type ctx = Sync ->
  let c := simplifyActionContext ctx in
  let s1 := store_of (start c s) in
  let rb := origNext (store_of (resume hooks c true s1)) in
  let s4 := store_of (suspend hooks c (store_of rb)) in
  let fin :=
    match result_of rb with
    | Normal v => finish hooks c RReturn v s4
    | Thrown err => finish hooks c RThrow err s4
    end in
  mware asyncStepTypeText hooks ctx origNext s =
  (result_of rb, store_of fin,
   log_of (start c s)
   ++ (log_of (resume hooks c true s1) ++ log_of rb
       ++ log_of (suspend hooks c (store_of rb)))
   ++ log_of fin).
Proof.
  intros Hty. unfold mware. cbv zeta. rewrite Hty.
  apply run_ext; cbn [result_of store_of log_of fst snd].
  - rewrite result_of_bind, result_of_bind, wrapNext_run.
    cbn [result_of store_of log_of fst snd].
    destruct (result_of (origNext _)); rewrite bind_ret_run; reflexivity.
  - rewrite store_of_bind, store_of_bind, wrapNext_run.
    cbn [result_of store_of log_of fst snd].
    destruct (result_of (origNext _)); rewrite bind_ret_run; reflexivity.
  - rewrite log_of_bind, log_of_bind, wrapNext_run.
    cbn [result_of store_of log_of fst snd].
    destruct (result_of (origNext _)); rewrite bind_ret_run; reflexivity.
Qed.

Lemma calls_shape log : calls log = shapeCalls (map shape log).
Proof.
  induction log as [|[l b a|h seen] log IH]; simpl; [reflexivity|exact IH|].
  unfold calls, shapeCalls in *. simpl. rewrite IH. reflexivity.
Qed.

Lemma callsFor_shape c log : callsFor c log = shapeCallsFor c (map shape log).
Proof. unfold callsFor, shapeCallsFor. rewrite calls_shape. reflexivity. Qed.

Lemma shapeCallsFor_app c l1 l2 :
  shapeCallsFor c (l1 ++ l2) = shapeCallsFor c l1 ++ shapeCallsFor c l2.
Proof.
  unfold shapeCallsFor, shapeCalls. rewrite omap_app. apply List.filter_app.
Qed.

Lemma callsFor_app c l1 l2 :
  callsFor c (l1 ++ l2) = callsFor c l1 ++ callsFor c l2.
Proof. rewrite !callsFor_shape, map_app. apply shapeCallsFor_app. Qed.

Lemma ancestors_depth c :
  forall a, In a (ancestors c) -> depth a < depth c.
Proof.
  induction c as [c IH] using SimpleActionContext_nested_ind.
  intros a. destruct c as [n t tg ar [p|] d]; simpl; [|tauto].
  intros [<-|Hin]; [lia|]. specialize (IH p eq_refl a Hin). lia.
Qed.

Lemma not_own_ancestor c a : In a (ancestors c) -> a <> c.
Proof. intros Hin ->. apply ancestors_depth in Hin. lia. Qed.

Lemma ancestors_parent c p a :
  Simple.parentContext c = Some p -> In a (p :: ancestors p) -> In a (ancestors c).
Proof. destruct c as [n t tg ar par d]; simpl. intros ->. simpl. tauto. Qed.

Lemma shapeCallsFor_own_optional c (configured : bool) h :
  callCtx h = c ->
  shapeCallsFor c (optCall configured h) = if configured then [h] else [].
Proof.
  intros Hc. destruct configured; [|reflexivity].
  unfold shapeCallsFor; simpl. rewrite bool_decide_eq_true_2 by exact Hc. reflexivity.
Qed.

Lemma shapeCallsFor_other_optional c (configured : bool) h :
  callCtx h <> c -> shapeCallsFor c (optCall configured h) = [].
Proof.
  intros Hc. destruct configured; [|reflexivity].
  unfold shapeCallsFor; simpl. rewrite bool_decide_eq_false_2 by exact Hc. reflexivity.
Qed.

Lemma shapeCallsFor_resumes_of_others c hooks real xs :
  (forall a, In a xs -> a <> c) ->
  shapeCallsFor c (flat_map (resumeShape hooks real) xs) = [].
Proof.
  induction xs as [|a xs IH]; intros Hxs; [reflexivity|].
  cbn [flat_map]. rewrite shapeCallsFor_app, IH by (intros; apply Hxs; right; assumption).
  rewrite app_nil_r. unfold resumeShape.
  change (SWrite ?l ?st :: ?rest) with ([SWrite l st] ++ rest).
  rewrite shapeCallsFor_app. simpl.
  apply shapeCallsFor_other_optional. simpl. apply Hxs. left. reflexivity.
Qed.

Lemma shapeCallsFor_suspends_of_others c hooks xs :
  (forall a, In a xs -> a <> c) ->
  shapeCallsFor c (flat_map (suspendShape hooks) xs) = [].
Proof.
  induction xs as [|a xs IH]; intros Hxs; [reflexivity|].
  cbn [flat_map]. rewrite shapeCallsFor_app, IH by (intros; apply Hxs; right; assumption).
  rewrite app_nil_r. unfold suspendShape.
  change (SWrite ?l ?st :: ?rest) with ([SWrite l st] ++ rest).
  rewrite shapeCallsFor_app. simpl.
  apply shapeCallsFor_other_optional. simpl. apply Hxs. left. reflexivity.
Qed.

Lemma callsFor_resume hooks c real s :
  callsFor c (log_of (resume hooks c real s)) =
  if has_onResume hooks then [OnResume c] else [].
Proof.
  rewrite callsFor_shape, shape_resume, shapeCallsFor_app.
  rewrite shapeCallsFor_resumes_of_others.
  - unfold resumeShape.
    change (SWrite ?l ?st :: ?rest) with ([SWrite l st] ++ rest).
    rewrite shapeCallsFor_app. simpl. apply shapeCallsFor_own_optional. reflexivity.
  - intros a Hin. apply in_rev in Hin. apply not_own_ancestor.
    apply (suspendedRun_ancestors s c a Hin).
Qed.

Lemma callsFor_suspend hooks c s :
  callsFor c (log_of (suspend hooks c s)) =
  if has_onSuspend hooks then [OnSuspend c] else [].
Proof.
  rewrite callsFor_shape, shape_suspend. cbn [flat_map].
  rewrite shapeCallsFor_app, shapeCallsFor_suspends_of_others.
  - rewrite app_nil_r. unfold suspendShape.
    change (SWrite ?l ?st :: ?rest) with ([SWrite l st] ++ rest).
    rewrite shapeCallsFor_app. simpl. apply shapeCallsFor_own_optional. reflexivity.
  - intros a Hin. apply not_own_ancestor, (fakeResumedRun_ancestors c s a Hin).
Qed.

Lemma callsFor_start c s : callsFor c (log_of (start c s)) = [OnStart c].
Proof.
  rewrite log_of_start, callsFor_shape, map_app, shape_setCtxData.
  unfold shapeCallsFor; simpl. rewrite bool_decide_eq_true_2 by reflexivity. reflexivity.
Qed.

Lemma shapeCallsFor_finishShape c result value :
  shapeCallsFor c (finishShape c result value) = [OnFinish c result value].
Proof.
  unfold shapeCallsFor; simpl. rewrite bool_decide_eq_true_2 by reflexivity. reflexivity.
Qed.

Lemma callsFor_finish hooks c result value s :
  callsFor c (log_of (finish hooks c result value s)) = [OnFinish c result value].
Proof.
  rewrite callsFor_shape, shape_finish.
  destruct (Simple.parentContext c) as [p|] eqn:Hp; [|apply shapeCallsFor_finishShape].
  destruct (acceptedInState Suspended (getCtxData (Simple.data p) s));
    [|apply shapeCallsFor_finishShape].
  assert (Hp' : p <> c).
  { apply not_own_ancestor, (ancestors_parent c p p Hp). left. reflexivity. }
  rewrite !shapeCallsFor_app.
  rewrite shapeCallsFor_resumes_of_others, shapeCallsFor_suspends_of_others.
  - rewrite shapeCallsFor_finishShape. unfold resumeShape, suspendShape.
    change (SWrite ?l ?st :: ?rest) with ([SWrite l st] ++ rest).
    rewrite !shapeCallsFor_app. simpl.
    rewrite !shapeCallsFor_other_optional by exact Hp'. reflexivity.
  - intros a Hin. apply not_own_ancestor, (ancestors_parent c p a Hp).
    right. apply (fakeResumedRun_ancestors p _ a Hin).
  - intros a Hin. apply in_rev in Hin.
    apply not_own_ancestor, (ancestors_parent c p a Hp).
    right. apply (suspendedRun_ancestors s p a Hin).
Qed.

(** C1, as stated, fails: with [onResume] and [onSuspend] configured, a
    sync action that returns 5 has its [onResume] and [onSuspend] called
    between [onStart] and [onFinish]. *)
Lemma sync_step_calls_resume_and_suspend :
  ~ syncCallsAreStartFinish stepText bothHooks (syncStepOf "add" 1%positive)
      (ret (Normal (JsNumber 5))) ∅.
Proof.
  unfold syncCallsAreStartFinish. vm_compute. discriminate.
Qed.

(** C1, amended. On a sync step the middleware calls, for that invocation
    and in this order: [onStart]; [onResume] if configured; whatever the
    wrapped callback makes happen; [onSuspend] if configured; then
    [onFinish(Return, value)] when the callback returned [value], or
    [onFinish(Throw, error)] when it threw [error], and it hands the value
    or the error on to its caller after that. With neither optional hook
    configured the calls are [onStart] and [onFinish] around the
    callback. *)
Theorem sync_step_hook_sequence
    asyncStepTypeText hooks (ctx : ActionContext) (origNext : M Outcome) (s : Store) :
  type ctx = Sync ->
  let c := simplifyActionContext ctx in
  let body := origNext (store_of ((start c ;; resume hooks c true) s)) in
  let r := mware asyncStepTypeText hooks ctx origNext s in
  result_of r = result_of body /\
  callsFor c (log_of r) =
    [OnStart c]
    ++ (if has_onResume hooks then [OnResume c] else [])
    ++ callsFor c (log_of body)
    ++ (if has_onSuspend hooks then [OnSuspend c] else [])
    ++ [syncFinishCall c (result_of body)] /\
  (has_onResume hooks = false -> has_onSuspend hooks = false ->
   callsFor c (log_of r) =
     [OnStart c] ++ callsFor c (log_of body) ++ [syncFinishCall c (result_of body)]).
Proof.
  intros Hty c body r.
  assert (Hcalls : callsFor c (log_of r) =
            [OnStart c]
            ++ (if has_onResume hooks then [OnResume c] else [])
            ++ callsFor c (log_of body)
            ++ (if has_onSuspend hooks then [OnSuspend c] else [])
            ++ [syncFinishCall c (result_of body)]).
  { subst r body. rewrite (mware_sync_run _ _ _ _ _ Hty). cbv zeta.
    rewrite store_of_bind. fold c. cbn [log_of snd].
    rewrite !callsFor_app, callsFor_start, callsFor_resume, callsFor_suspend.
    rewrite <- !app_assoc. do 4 f_equal.
    destruct (result_of (origNext (store_of (resume hooks c true (store_of (start c s))))));
      apply callsFor_finish. }
  split; [|split].
  - subst r body. rewrite (mware_sync_run _ _ _ _ _ Hty). cbv zeta.
    rewrite store_of_bind. reflexivity.
  - exact Hcalls.
  - intros Hr Hs. rewrite Hcalls, Hr, Hs. reflexivity.
Qed.

Lemma sync_step_hook_sequence_witness :
  callsFor (simplifyActionContext (syncStepOf "add" 1%positive))
    (log_of (mware stepText noOptionalHooks (syncStepOf "add" 1%positive)
               (ret (Normal (JsNumber 5))) ∅)) =
  [OnStart (simplifyActionContext (syncStepOf "add" 1%positive));
   OnFinish (simplifyActionContext (syncStepOf "add" 1%positive)) RReturn (JsNumber 5)].
Proof.
  exact (proj2 (proj2 (sync_step_hook_sequence stepText noOptionalHooks
                         (syncStepOf "add" 1%positive) (ret (Normal (JsNumber 5))) ∅
                         eq_refl)) eq_refl eq_refl).
Defined.

(** ** The lifecycle state machine *)

Lemma lookup_mark l st s :
  mark l st s !! l =
  Some (match s !! l with
        | Some d => {| startAccepted := startAccepted d; state := Some st |}
        | None => {| startAccepted := None; state := Some st |}
        end).
Proof.
  unfold mark, setCtxData, store_of; simpl. rewrite lookup_insert_eq.
  destruct (s !! l) as [[sa x]|]; reflexivity.
Qed.

Lemma tracked_mark l st s : tracked (mark l st s !! l) = tracked (s !! l).
Proof. rewrite lookup_mark. destruct (s !! l) as [[sa x]|]; reflexivity. Qed.

Lemma inS3_mark l st s :
  resumedOrSuspended st = true -> inS3 (mark l st s !! l).
Proof.
  intros Hst. unfold inS3. rewrite lookup_mark.
  destruct (s !! l) as [[sa x]|]; exact Hst.
Qed.

Lemma bagStep_refl d : bagStep d d.
Proof. left. reflexivity. Qed.

Lemma bagStep_trans d1 d2 d3 : bagStep d1 d2 -> bagStep d2 d3 -> bagStep d1 d3.
Proof.
  intros [->|H12] [->|H23]; [left; reflexivity|right; exact H23|right; exact H12|].
  right. tauto.
Qed.

Lemma bagStep_tracked d d' : bagStep d d' -> tracked d' = tracked d.
Proof. intros [->|(H1 & _ & H2 & _)]; congruence. Qed.

Lemma bagStep_inS3 d d' : bagStep d d' -> inS3 d -> inS3 d'.
Proof. intros [->|(_ & _ & _ & H)] Hd; assumption. Qed.

Lemma bagStep_None d' : bagStep None d' -> d' = None.
Proof. intros [->|(H & _)]; [reflexivity|discriminate H]. Qed.

(** A write of a state into a record is allowed when the record, if
    accepted, is in a state with an arrow to the new one. *)
Lemma allowed_mark l st s :
  (tracked (s !! l) = true ->
   exists st0, (s !! l ≫= state) = Some st0 /\ transition st0 st = true) ->
  Forall allowedWrite
    (log_of (setCtxData l {| startAccepted := None; state := Some st |} s)).
Proof.
  intros Hpre. unfold setCtxData, log_of; simpl.
  constructor; [|constructor]. simpl.
  destruct (s !! l) as [[sa x]|]; simpl in *; [|discriminate].
  intros ->. destruct (Hpre eq_refl) as (st0 & Hst0 & Htr).
  simpl in Hst0. subst x. split; [reflexivity|exact Htr].
Qed.

Lemma transition_from_S3 st0 st :
  resumedOrSuspended st0 = true ->
  resumedOrSuspended st = true \/ st = Finished ->
  transition st0 st = true.
Proof.
  intros H0 [H | ->]; destruct st0; try discriminate; try reflexivity;
    destruct st; try discriminate; reflexivity.
Qed.

Lemma inS3_state d : inS3 d -> exists st, (d ≫= state) = Some st /\ resumedOrSuspended st = true.
Proof.
  unfold inS3. destruct (d ≫= state) as [st|]; [|contradiction].
  intros H. exists st. split; [reflexivity|exact H].
Qed.

Lemma acceptedInState_tracked st d :
  acceptedInState st d = true -> tracked d = true /\ (d ≫= state) = Some st.
Proof.
  destruct d as [[[[|]|] [x|]]|]; simpl; try discriminate.
  intros H. apply bool_decide_eq_true in H. subst. split; reflexivity.
Qed.

(** [resume] on a context whose record, if accepted, is started or in one
    of the three states: every write is allowed, the records of other bags
    are left alone or moved between the three states, and the own record
    ends resumed. *)
Lemma resume_steps hooks c :
  forall real s,
    (tracked (s !! Simple.data c) = true ->
     exists st0, (s !! Simple.data c ≫= state) = Some st0 /\
                 (st0 = Started \/ resumedOrSuspended st0 = true)) ->
    Forall allowedWrite (log_of (resume hooks c real s)) /\
    opStep (Simple.data c) s (store_of (resume hooks c real s)).
Proof.
  induction c as [c IH] using SimpleActionContext_nested_ind.
  intros real s Hpre.
  set (pre := match Simple.parentContext c with
              | Some p =>
                  if acceptedInState Suspended (getCtxData (Simple.data p) s)
                  then resume hooks p false s
                  else ret tt s
              | None => ret tt s
              end).
  assert (Hparent : Forall allowedWrite (log_of pre) /\
                    forall l, bagStep (s !! l) (store_of pre !! l)).
  { subst pre. destruct (Simple.parentContext c) as [p|] eqn:Hp;
      [|split; [constructor|intros; apply bagStep_refl]].
    destruct (acceptedInState Suspended (getCtxData (Simple.data p) s)) eqn:Hcond;
      [|split; [constructor|intros; apply bagStep_refl]].
    apply acceptedInState_tracked in Hcond. destruct Hcond as [Htr Hst].
    destruct (IH p eq_refl false s) as [Hlog Hstep].
    { intros _. exists Suspended. split; [exact Hst|right; reflexivity]. }
    split; [exact Hlog|].
    intros l. destruct (Hstep l) as [H|[-> [Hown1 Hown2]]]; [exact H|].
    right. unfold getCtxData in *. rewrite Htr in Hown1.
    split; [exact Htr|]. split; [|split; [exact Hown1|exact (Hown2 Hown1)]].
    unfold inS3. rewrite Hst. reflexivity. }
  destruct Hparent as [Hlog1 Hstep1].
  assert (Hstore : store_of (resume hooks c real s) =
                   mark (Simple.data c) (if real then RealResumed else FakeResumed)
                     (store_of pre)).
  { rewrite store_of_resume. subst pre. f_equal.
    destruct (Simple.parentContext c) as [p|]; [|reflexivity].
    destruct (acceptedInState Suspended (getCtxData (Simple.data p) s)); reflexivity. }
  split.
  - pose proof (log_of_resume hooks c real s) as Hlog. cbv zeta in Hlog.
    fold pre in Hlog. rewrite Hlog.
    apply Forall_app_2; [exact Hlog1|]. apply Forall_app_2.
    + apply allowed_mark. intros Htr.
      destruct (Hstep1 (Simple.data c)) as [Heq|(_ & _ & _ & HS3)].
      * rewrite Heq in *. destruct (Hpre Htr) as (st0 & Hst0 & Hor).
        exists st0. split; [exact Hst0|].
        destruct Hor as [-> | Hor]; [destruct real; reflexivity|].
        apply transition_from_S3; [exact Hor|]. left. destruct real; reflexivity.
      * apply inS3_state in HS3. destruct HS3 as (st0 & Hst0 & Hor).
        exists st0. split; [exact Hst0|].
        apply transition_from_S3; [exact Hor|]. left. destruct real; reflexivity.
    + destruct (has_onResume hooks); repeat constructor.
  - rewrite Hstore. intros l. destruct (decide (l = Simple.data c)) as [->|Hne].
    + right. split; [reflexivity|]. split.
      * rewrite tracked_mark. apply bagStep_tracked, Hstep1.
      * intros _. apply inS3_mark. destruct real; reflexivity.
    + left. rewrite lookup_mark_ne by congruence. apply Hstep1.
Qed.

Lemma opStep_tracked own s s' l :
  opStep own s s' -> tracked (s' !! l) = tracked (s !! l).
Proof.
  intros H. destruct (H l) as [Hb|[_ [Ho _]]]; [apply bagStep_tracked, Hb|exact Ho].
Qed.

Lemma opStep_inS3 own s s' l :
  opStep own s s' -> inS3 (s !! l) -> tracked (s' !! l) = true -> inS3 (s' !! l).
Proof.
  intros H HS3 Htr. destruct (H l) as [Hb|[_ [_ Ho]]];
    [apply (bagStep_inS3 _ _ Hb HS3)|exact (Ho Htr)].
Qed.

Lemma opStep_bagStep own s s' :
  opStep own s s' ->
  tracked (s !! own) = true -> inS3 (s !! own) ->
  forall l, bagStep (s !! l) (s' !! l).
Proof.
  intros H Htr HS3 l. destruct (H l) as [Hb|[-> [Ho1 Ho2]]]; [exact Hb|].
  right. rewrite Htr in Ho1. auto.
Qed.

Lemma suspend_steps hooks c :
  forall s,
    (tracked (s !! Simple.data c) = true -> inS3 (s !! Simple.data c)) ->
    Forall allowedWrite (log_of (suspend hooks c s)) /\
    opStep (Simple.data c) s (store_of (suspend hooks c s)).
Proof.
  induction c as [c IH] using SimpleActionContext_nested_ind.
  intros s Hpre.
  set (s1 := mark (Simple.data c) Suspended s).
  assert (Hparent :
            Forall allowedWrite
              (match Simple.parentContext c with
               | Some p =>
                   if acceptedInState FakeResumed (getCtxData (Simple.data p) s1)
                   then log_of (suspend hooks p s1)
                   else []
               | None => []
               end) /\
            forall l, bagStep (s1 !! l) (store_of (suspend hooks c s) !! l)).
  { rewrite store_of_suspend. fold s1.
    destruct (Simple.parentContext c) as [p|] eqn:Hp;
      [|split; [constructor|intros; apply bagStep_refl]].
    destruct (acceptedInState FakeResumed (getCtxData (Simple.data p) s1)) eqn:Hcond;
      [|split; [constructor|intros; apply bagStep_refl]].
    apply acceptedInState_tracked in Hcond. destruct Hcond as [Htr Hst].
    assert (HS3 : inS3 (s1 !! Simple.data p)).
    { unfold inS3, getCtxData in *. rewrite Hst. reflexivity. }
    destruct (IH p eq_refl s1 (fun _ => HS3)) as [Hlog Hstep].
    split; [exact Hlog|]. apply (opStep_bagStep _ _ _ Hstep Htr HS3). }
  destruct Hparent as [Hlog Hstep]. split.
  - rewrite log_of_suspend. fold s1.
    apply Forall_app_2; [|apply Forall_app_2; [|exact Hlog]].
    + apply allowed_mark. intros Htr.
      destruct (inS3_state _ (Hpre Htr)) as (st0 & Hst0 & Hor).
      exists st0. split; [exact Hst0|].
      apply transition_from_S3; [exact Hor|left; reflexivity].
    + destruct (has_onSuspend hooks); repeat constructor.
  - intros l. destruct (decide (l = Simple.data c)) as [->|Hne].
    + right. split; [reflexivity|]. split.
      * rewrite (bagStep_tracked _ _ (Hstep _)). apply tracked_mark.
      * intros _. apply (bagStep_inS3 _ _ (Hstep _)).
        apply inS3_mark. reflexivity.
    + left. specialize (Hstep l). subst s1.
      rewrite lookup_mark_ne in Hstep by congruence. exact Hstep.
Qed.

Lemma inS3_resumed hooks p real s :
  inS3 (store_of (resume hooks p real s) !! Simple.data p).
Proof. rewrite store_of_resume. apply inS3_mark. destruct real; reflexivity. Qed.

(** [finish] on a context whose record, if accepted, is in one of the
    three states, and whose parent does not share its bag. *)
Lemma finish_steps hooks c result value s :
  (tracked (s !! Simple.data c) = true -> inS3 (s !! Simple.data c)) ->
  (forall p, Simple.parentContext c = Some p -> Simple.data p <> Simple.data c) ->
  Forall allowedWrite (log_of (finish hooks c result value s)) /\
  othersStep (Simple.data c) s (store_of (finish hooks c result value s)).
Proof.
  intros Hpre Hparent.
  assert (Hown : forall s1,
             (forall l, bagStep (s !! l) (s1 !! l)) ->
             Forall allowedWrite
               (log_of (finishWrite c s1)
                ++ [Call (OnFinish c result value) (mark (Simple.data c) Finished s1)])).
  { intros s1 Hs1. apply Forall_app_2; [|repeat constructor].
    apply allowed_mark. intros Htr.
    rewrite (bagStep_tracked _ _ (Hs1 _)) in Htr.
    destruct (inS3_state _ (bagStep_inS3 _ _ (Hs1 _) (Hpre Htr))) as (st0 & Hst0 & Hor).
    exists st0. split; [exact Hst0|].
    apply transition_from_S3; [exact Hor|right; reflexivity]. }
  assert (Hplain :
            Forall allowedWrite
              (log_of (finishWrite c s)
               ++ [Call (OnFinish c result value) (mark (Simple.data c) Finished s)]) /\
            othersStep (Simple.data c) s (mark (Simple.data c) Finished s)).
  { split; [apply Hown; intros; apply bagStep_refl|].
    intros l Hne. rewrite lookup_mark_ne by congruence. apply bagStep_refl. }
  rewrite finish_run. cbv zeta.
  destruct (Simple.parentContext c) as [p|] eqn:Hp; [|exact Hplain].
  destruct (acceptedInState Suspended (getCtxData (Simple.data p) s)) eqn:Hcond;
    [|exact Hplain].
  clear Hplain. cbn [log_of store_of fst snd].
  specialize (Hparent p eq_refl).
  apply acceptedInState_tracked in Hcond. destruct Hcond as [Htr Hst].
  unfold getCtxData in *.
  assert (HS3 : inS3 (s !! Simple.data p)).
  { unfold inS3. rewrite Hst. reflexivity. }
  destruct (resume_steps hooks p false s) as [Hlog1 Hstep1].
  { intros _. exists Suspended. split; [exact Hst|right; reflexivity]. }
  pose proof (opStep_bagStep _ _ _ Hstep1 Htr HS3) as Hbag1.
  set (s1 := store_of (resume hooks p false s)) in *.
  set (s2 := mark (Simple.data c) Finished s1).
  assert (Htr2 : tracked (s2 !! Simple.data p) = true).
  { subst s2. rewrite lookup_mark_ne by congruence.
    rewrite (bagStep_tracked _ _ (Hbag1 _)). exact Htr. }
  assert (HS32 : inS3 (s2 !! Simple.data p)).
  { subst s2 s1. rewrite lookup_mark_ne by congruence. apply inS3_resumed. }
  destruct (suspend_steps hooks p s2 (fun _ => HS32)) as [Hlog3 Hstep3].
  pose proof (opStep_bagStep _ _ _ Hstep3 Htr2 HS32) as Hbag3.
  split.
  - apply Forall_app_2; [exact Hlog1|]. rewrite app_assoc.
    apply Forall_app_2; [apply Hown, Hbag1|exact Hlog3].
  - intros l Hne. apply (bagStep_trans _ (s1 !! l)); [apply Hbag1|].
    specialize (Hbag3 l). subst s2.
    rewrite lookup_mark_ne in Hbag3 by congruence. exact Hbag3.
Qed.


Lemma Inv_InvBut own st s : Inv st s -> InvBut own st s.
Proof. intros [H1 H2]. split; [exact H1|]. intros l _. apply H2. Qed.

Lemma Inv_opStep own st s s' :
  Inv st s -> opStep own s s' -> st !! own <> None -> Inv st s'.
Proof.
  intros [H1 H2] Hstep Hown. split.
  - intros l Hl. destruct (Hstep l) as [Hb|[-> _]]; [|contradiction].
    rewrite (H1 l Hl) in Hb. apply bagStep_None, Hb.
  - intros l Hl Htr. destruct (Hstep l) as [[Heq|(_ & _ & _ & HS3)]|[_ [_ Ho]]].
    + rewrite Heq in *. apply (H2 l Hl Htr).
    + exact HS3.
    + exact (Ho Htr).
Qed.

Lemma Inv_set l x st s :
  Inv st s -> (tracked (s !! l) = true -> inS3 (s !! l)) -> Inv (<[l := x]> st) s.
Proof.
  intros [H1 H2] Hl. split.
  - intros l' Hl'. destruct (decide (l = l')) as [->|Hne].
    + rewrite lookup_insert_eq in Hl'. discriminate.
    + rewrite lookup_insert_ne in Hl' by exact Hne. apply H1, Hl'.
  - intros l' Hl' Htr. destruct (decide (l = l')) as [->|Hne]; [exact (Hl Htr)|].
    rewrite lookup_insert_ne in Hl' by exact Hne. apply (H2 l' Hl' Htr).
Qed.

Lemma Inv_done l st s s' :
  Inv st s -> othersStep l s s' -> Inv (<[l := Done]> st) s'.
Proof.
  intros [H1 H2] Hstep. split.
  - intros l' Hl'. destruct (decide (l = l')) as [->|Hne].
    + rewrite lookup_insert_eq in Hl'. discriminate.
    + rewrite lookup_insert_ne in Hl' by exact Hne.
      pose proof (Hstep l' (not_eq_sym Hne)) as Hb.
      rewrite (H1 l' Hl') in Hb. apply bagStep_None, Hb.
  - intros l' Hl' Htr. destruct (decide (l = l')) as [->|Hne].
    + rewrite lookup_insert_eq in Hl'. destruct Hl'; discriminate.
    + rewrite lookup_insert_ne in Hl' by exact Hne.
      destruct (Hstep l' (not_eq_sym Hne)) as [Heq|(_ & _ & _ & HS3)]; [|exact HS3].
      rewrite Heq in *. apply (H2 l' Hl' Htr).
Qed.

Lemma othersStep_refl l s : othersStep l s s.
Proof. intros l' _. apply bagStep_refl. Qed.

(** The bracket around the continuation: a real resume, the nested steps,
    the suspend. *)
Lemma wrapNext_steps hooks c (origNext : M Outcome) st st2 s :
  st !! Simple.data c = Some Running ->
  st2 !! Simple.data c = Some Running ->
  stepsSafely st st2 origNext ->
  InvBut (Simple.data c) st s ->
  (tracked (s !! Simple.data c) = true ->
   exists st0, (s !! Simple.data c ≫= state) = Some st0 /\
               (st0 = Started \/ resumedOrSuspended st0 = true)) ->
  Forall allowedWrite (log_of (wrapNext hooks c origNext s)) /\
  Inv st2 (store_of (wrapNext hooks c origNext s)).
Proof.
  intros Hl Hl2 Hbody [HI1 HI2] Hpre.
  rewrite wrapNext_run. cbv zeta. cbn [log_of store_of fst snd].
  destruct (resume_steps hooks c true s Hpre) as [Hlog1 Hstep1].
  assert (Hinv1 : Inv st (store_of (resume hooks c true s))).
  { split.
    - intros l Hnone. destruct (Hstep1 l) as [Hb|[-> _]]; [|congruence].
      rewrite (HI1 l Hnone) in Hb. apply bagStep_None, Hb.
    - intros l Hst Htr. destruct (decide (l = Simple.data c)) as [->|Hne].
      + apply inS3_resumed.
      + destruct (Hstep1 l) as [[Heq|(_ & _ & _ & HS3)]|[-> _]];
          [|exact HS3|contradiction].
        rewrite Heq in *. apply (HI2 l Hne Hst Htr). }
  destruct (Hbody _ Hinv1) as [Hlog2 Hinv2].
  destruct (suspend_steps hooks c
              (store_of (origNext (store_of (resume hooks c true s)))))
    as [Hlog3 Hstep3].
  { apply (proj2 Hinv2). left. exact Hl2. }
  split.
  - apply Forall_app_2; [exact Hlog1|]. apply Forall_app_2; [exact Hlog2|exact Hlog3].
  - apply (Inv_opStep _ _ _ _ Hinv2 Hstep3). congruence.
Qed.

(** ** The filter in a sequence of steps *)

Lemma chainRoot_of_root ctx : previousAsyncStepContext ctx = None -> chainRoot ctx = ctx.
Proof. destruct ctx; simpl. intros ->. reflexivity. Qed.

Lemma acceptStart_steps hooks ctx s :
  s !! data ctx = None ->
  Forall allowedWrite (log_of (acceptStart hooks ctx s)) /\
  store_of (acceptStart hooks ctx s) =
    (if result_of (acceptStart hooks ctx s)
     then <[data ctx := {| startAccepted := Some true; state := Some Idle |}]> s
     else s).
Proof.
  intros Hfresh. unfold acceptStart, userFilter, bind, ret, setCtxData,
    log_of, store_of, result_of.
  destruct (hooks_filter hooks) as [f|]; simpl.
  - destruct (f (simplifyActionContext ctx) s); simpl; rewrite ?Hfresh.
    + split; [|reflexivity]. repeat constructor.
    + split; [|reflexivity]. repeat constructor.
  - rewrite Hfresh. split; [|reflexivity]. repeat constructor.
Qed.

Lemma filter_begin actionName hooks ctx s :
  type ctx = Sync \/ (type ctx = Async /\ asyncStepType ctx = Some Spawn) ->
  s !! data ctx = None ->
  Forall allowedWrite (log_of (filter actionName hooks ctx s)) /\
  store_of (filter actionName hooks ctx s) =
    (if result_of (filter actionName hooks ctx s)
     then <[data ctx := {| startAccepted := Some true; state := Some Idle |}]> s
     else s).
Proof.
  intros Hkind Hfresh. unfold filter.
  destruct (otherAction actionName ctx); [split; [constructor|reflexivity]|].
  destruct Hkind as [-> | [-> ->]]; apply acceptStart_steps, Hfresh.
Qed.

Lemma filter_continue actionName hooks ctx s :
  type ctx = Async ->
  asyncStepType ctx <> Some Spawn ->
  log_of (filter actionName hooks ctx s) = [] /\
  store_of (filter actionName hooks ctx s) = s /\
  (asyncStepType ctx = Some Resume \/ asyncStepType ctx = Some ResumeError ->
   result_of (filter actionName hooks ctx s) = true ->
   resumeSuspendSupport hooks = true) /\
  (asyncStepType ctx = None -> result_of (filter actionName hooks ctx s) = false).
Proof.
  intros Hty Hstep. unfold filter. rewrite Hty.
  destruct (otherAction actionName ctx).
  { repeat split; try reflexivity. intros _ H; discriminate H. }
  destruct (asyncStepType ctx) as [[| | | |]|]; try congruence;
    try (destruct (getCtxData (data (chainRoot ctx)) s) as [d|]);
    repeat split; try reflexivity;
    try (intros [H|H]; discriminate H); try (intros H; discriminate H);
    try (intros _ H; exact H).
Qed.

(** ** One middleware step *)

Lemma mware_sync_wrapped asyncStepTypeText hooks ctx (origNext : M Outcome) s :
  type ctx = Sync ->
  let c := simplifyActionContext ctx in
  let w := wrapNext hooks c origNext (store_of (start c s)) in
  let fin :=
    match result_of w with
    | Normal v => finish hooks c RReturn v (store_of w)
    | Thrown err => finish hooks c RThrow err (store_of w)
    end in
  mware asyncStepTypeText hooks ctx origNext s =
  (result_of w, store_of fin, log_of (start c s) ++ log_of w ++ log_of fin).
Proof.
  intros Hty. unfold mware. cbv zeta. rewrite Hty.
  apply run_ext; cbn [result_of store_of log_of fst snd].
  - rewrite result_of_bind, result_of_bind.
    destruct (result_of (wrapNext _ _ _ _)); rewrite bind_ret_run; reflexivity.
  - rewrite store_of_bind, store_of_bind.
    destruct (result_of (wrapNext _ _ _ _)); rewrite bind_ret_run; reflexivity.
  - rewrite log_of_bind, log_of_bind.
    destruct (result_of (wrapNext _ _ _ _)); rewrite bind_ret_run; reflexivity.
Qed.

Lemma mware_spawn_wrapped asyncStepTypeText hooks ctx (origNext : M Outcome) s :
  type ctx = Async ->
  asyncStepType ctx = Some Spawn ->
  let c := simplifyActionContext ctx in
  let w := wrapNext hooks c origNext (store_of (start c s)) in
  mware asyncStepTypeText hooks ctx origNext s =
  (result_of w, store_of w, log_of (start c s) ++ log_of w).
Proof.
  intros Hty Hstep. unfold mware. cbv zeta. rewrite Hty, Hstep.
  apply run_ext; cbn [result_of store_of log_of fst snd].
  - rewrite result_of_bind. reflexivity.
  - rewrite store_of_bind. reflexivity.
  - rewrite log_of_bind. reflexivity.
Qed.

Lemma mware_final_wrapped asyncStepTypeText hooks ctx (origNext : M Outcome) s :
  type ctx = Async ->
  asyncStepType ctx = Some Return \/ asyncStepType ctx = Some Throw ->
  let c := simplifyActionContext ctx in
  let w := wrapNext hooks c origNext s in
  let tag :=
    match asyncStepType ctx with Some Throw => RThrow | _ => RReturn end in
  mware asyncStepTypeText hooks ctx origNext s =
  match result_of w with
  | Normal v =>
      (Normal v, store_of (finish hooks c tag v (store_of w)),
       log_of w ++ log_of (finish hooks c tag v (store_of w)))
  | Thrown err => (Thrown err, store_of w, log_of w)
  end.
Proof.
  intros Hty Hstep. unfold mware. cbv zeta. rewrite Hty.
  destruct Hstep as [-> | ->].
  - unfold bind at 1.
    destruct (wrapNext hooks (simplifyActionContext ctx) origNext s) as [[[v|err] s1] log1];
      cbn [result_of store_of log_of fst snd].
    + rewrite bind_ret_run. reflexivity.
    + unfold ret. rewrite app_nil_r. reflexivity.
  - unfold bind at 1.
    destruct (wrapNext hooks (simplifyActionContext ctx) origNext s) as [[[v|err] s1] log1];
      cbn [result_of store_of log_of fst snd].
    + rewrite bind_ret_run. reflexivity.
    + unfold ret. rewrite app_nil_r. reflexivity.
Qed.

Lemma mware_resume_wrapped asyncStepTypeText hooks ctx (origNext : M Outcome) s :
  type ctx = Async ->
  asyncStepType ctx = Some Resume \/ asyncStepType ctx = Some ResumeError ->
  resumeSuspendSupport hooks = true ->
  mware asyncStepTypeText hooks ctx origNext s =
  wrapNext hooks (simplifyActionContext ctx) origNext s.
Proof.
  intros Hty Hstep Hon. unfold mware. cbv zeta. rewrite Hty.
  destruct Hstep as [-> | ->]; rewrite Hon; reflexivity.
Qed.

Lemma parentShares_distinct ctx :
  parentShares ctx = false ->
  forall p, Simple.parentContext (simplifyActionContext ctx) = Some p ->
            Simple.data p <> Simple.data (simplifyActionContext ctx).
Proof.
  unfold parentShares. intros Hsh p.
  rewrite simplifyActionContext_parent, simplifyActionContext_data.
  destruct (parentContext (chainRoot ctx)) as [q|]; [|discriminate].
  intros [= <-]. rewrite simplifyActionContext_data.
  apply bool_decide_eq_false in Hsh. exact Hsh.
Qed.

Lemma start_steps c st s :
  st !! Simple.data c = Some Running ->
  InvBut (Simple.data c) st s ->
  (s !! Simple.data c ≫= state) = Some Idle ->
  Forall allowedWrite (log_of (start c s)) /\
  InvBut (Simple.data c) st (store_of (start c s)) /\
  (store_of (start c s) !! Simple.data c ≫= state) = Some Started.
Proof.
  intros Hl [H1 H2] Hidle.
  assert (Hstore : store_of (start c s) = mark (Simple.data c) Started s).
  { unfold start. rewrite store_of_bind. reflexivity. }
  rewrite Hstore, log_of_start. split; [|split].
  - apply Forall_app_2; [|repeat constructor].
    apply allowed_mark. intros _. exists Idle. split; [exact Hidle|reflexivity].
  - split.
    + intros l Hnone. rewrite lookup_mark_ne by congruence. apply H1, Hnone.
    + intros l Hne Hst. rewrite lookup_mark_ne by congruence. apply (H2 l Hne Hst).
  - apply stateAt_mark.
Qed.

Lemma Inv_final l final st2 s :
  Inv st2 s -> st2 !! l = Some Running -> Inv (<[l := final]> st2) s.
Proof.
  intros Hinv Hl. destruct final.
  - apply Inv_set; [exact Hinv|]. apply (proj2 Hinv). left. exact Hl.
  - apply Inv_set; [exact Hinv|]. apply (proj2 Hinv). left. exact Hl.
  - apply (Inv_done l st2 s s Hinv), othersStep_refl.
Qed.

Lemma Inv_running_others l st s d :
  Inv st s -> st !! l = None ->
  InvBut l (<[l := Running]> st) (<[l := d]> s).
Proof.
  intros [H1 H2] Hl. split.
  - intros l' Hl'. destruct (decide (l = l')) as [->|Hne].
    + rewrite lookup_insert_eq in Hl'. discriminate.
    + rewrite lookup_insert_ne in Hl' by exact Hne.
      rewrite lookup_insert_ne by exact Hne. apply H1, Hl'.
  - intros l' Hne Hl'. rewrite lookup_insert_ne in Hl' by congruence.
    rewrite lookup_insert_ne by congruence. apply (H2 l' Hl').
Qed.

(** A sync step or a Spawn step, on a bag no step has used. *)
Lemma begin_step asyncStepTypeText actionName hooks ctx (origNext : M Outcome)
    (final : ChainStatus) st st2 :
  (type ctx = Sync /\ final = Done) \/
  (type ctx = Async /\ asyncStepType ctx = Some Spawn /\ final = Open) ->
  previousAsyncStepContext ctx = None ->
  parentShares ctx = false ->
  st !! data (chainRoot ctx) = None ->
  st2 !! data (chainRoot ctx) = Some Running ->
  stepsSafely (<[data (chainRoot ctx) := Running]> st) st2 origNext ->
  stepsSafely st (<[data (chainRoot ctx) := final]> st2)
    (do accepted <- filter actionName hooks ctx;
     if accepted then mware asyncStepTypeText hooks ctx origNext else origNext).
Proof.
  intros Hkind Hprev Hshare Hfresh Hrun2 Hbody s Hinv.
  pose proof (parentShares_distinct ctx Hshare) as Hparent.
  pose proof (simplifyActionContext_data ctx) as Hdata.
  rewrite (chainRoot_of_root ctx Hprev) in *.
  destruct (filter_begin actionName hooks ctx s) as [Hlogf Hstoref].
  { destruct Hkind as [[H _]|[H1 [H2 _]]]; [left; exact H|right; split; assumption]. }
  { apply (proj1 Hinv), Hfresh. }
  rewrite <- Hdata in Hfresh, Hrun2, Hbody, Hstoref |- *. clear Hdata.
  set (c := simplifyActionContext ctx) in *.
  set (l := Simple.data c) in *.
  assert (Hnone : s !! l = None) by (apply (proj1 Hinv), Hfresh).
  rewrite log_of_bind, store_of_bind.
  destruct (result_of (filter actionName hooks ctx s)).
  - set (sa := store_of (filter actionName hooks ctx s)) in *.
    assert (Hbut : InvBut l (<[l := Running]> st) sa).
    { rewrite Hstoref. apply Inv_running_others; assumption. }
    assert (Hidle : (sa !! l ≫= state) = Some Idle).
    { rewrite Hstoref. rewrite lookup_insert_eq. reflexivity. }
    assert (Hl1 : <[l := Running]> st !! l = Some Running) by apply lookup_insert_eq.
    destruct (start_steps c _ sa Hl1 Hbut Hidle) as (Hlog1 & Hbut1 & Hstarted).
    destruct (wrapNext_steps hooks c origNext _ st2 (store_of (start c sa))
                Hl1 Hrun2 Hbody Hbut1)
      as [Hlogw Hinvw].
    { intros _. exists Started. split; [exact Hstarted|left; reflexivity]. }
    set (sw := store_of (wrapNext hooks c origNext (store_of (start c sa)))) in *.
    destruct Hkind as [[Hty ->]|[Hty [Hstep ->]]].
    + rewrite (mware_sync_wrapped _ _ _ _ _ Hty). cbv zeta.
      cbn [log_of store_of fst snd]. fold c. fold sw.
      assert (Hfin : forall result value,
                 Forall allowedWrite (log_of (finish hooks c result value sw)) /\
                 Inv (<[l := Done]> st2) (store_of (finish hooks c result value sw))).
      { intros result value.
        destruct (finish_steps hooks c result value sw) as [Hlog Hstep].
        - apply (proj2 Hinvw). left. exact Hrun2.
        - exact Hparent.
        - split; [exact Hlog|]. apply (Inv_done _ _ _ _ Hinvw Hstep). }
      destruct (result_of (wrapNext hooks c origNext (store_of (start c sa)))) as [v|err].
      * destruct (Hfin RReturn v) as [Hlog Hinv']. split; [|exact Hinv'].
        apply Forall_app_2; [exact Hlogf|]. apply Forall_app_2; [exact Hlog1|].
        apply Forall_app_2; [exact Hlogw|exact Hlog].
      * destruct (Hfin RThrow err) as [Hlog Hinv']. split; [|exact Hinv'].
        apply Forall_app_2; [exact Hlogf|]. apply Forall_app_2; [exact Hlog1|].
        apply Forall_app_2; [exact Hlogw|exact Hlog].
    + rewrite (mware_spawn_wrapped _ _ _ _ _ Hty Hstep). cbv zeta.
      cbn [log_of store_of fst snd]. fold c. fold sw. split.
      * apply Forall_app_2; [exact Hlogf|]. apply Forall_app_2; [exact Hlog1|exact Hlogw].
      * apply Inv_final; assumption.
  - rewrite Hstoref.
    destruct (Hbody s) as [Hlogb Hinvb].
    { apply Inv_set; [exact Hinv|]. rewrite Hnone. discriminate. }
    split; [apply Forall_app_2; [exact Hlogf|exact Hlogb]|].
    apply Inv_final; assumption.
Qed.

(** A later step of an open chain: Resume, ResumeError, Return or Throw. *)
Lemma continue_step asyncStepTypeText actionName hooks ctx (origNext : M Outcome)
    (final : ChainStatus) st st2 :
  type ctx = Async ->
  ((asyncStepType ctx = Some Resume \/ asyncStepType ctx = Some ResumeError) /\
   final = Open) \/
  ((asyncStepType ctx = Some Return \/ asyncStepType ctx = Some Throw) /\
   final = Done) ->
  parentShares ctx = false ->
  st !! data (chainRoot ctx) = Some Open ->
  st2 !! data (chainRoot ctx) = Some Running ->
  stepsSafely (<[data (chainRoot ctx) := Running]> st) st2 origNext ->
  stepsSafely st (<[data (chainRoot ctx) := final]> st2)
    (do accepted <- filter actionName hooks ctx;
     if accepted then mware asyncStepTypeText hooks ctx origNext else origNext).
Proof.
  intros Hty Hkind Hshare Hopen Hrun2 Hbody s Hinv.
  pose proof (parentShares_distinct ctx Hshare) as Hparent.
  rewrite <- (simplifyActionContext_data ctx) in *.
  set (c := simplifyActionContext ctx) in *.
  set (l := Simple.data c) in *.
  destruct (filter_continue actionName hooks ctx s Hty) as (Hlogf & Hstoref & Hon & _).
  { destruct Hkind as [[[H|H] _]|[[H|H] _]]; rewrite H; discriminate. }
  assert (HS3 : tracked (s !! l) = true -> inS3 (s !! l)).
  { apply (proj2 Hinv). right. exact Hopen. }
  assert (Hinv1 : Inv (<[l := Running]> st) s) by (apply Inv_set; assumption).
  assert (Hl1 : <[l := Running]> st !! l = Some Running) by apply lookup_insert_eq.
  rewrite log_of_bind, store_of_bind, Hlogf, Hstoref. cbn [app].
  destruct (result_of (filter actionName hooks ctx s)) eqn:Hacc.
  - destruct (wrapNext_steps hooks c origNext _ st2 s Hl1 Hrun2 Hbody
                (Inv_InvBut _ _ _ Hinv1))
      as [Hlogw Hinvw].
    { intros Htr. destruct (inS3_state _ (HS3 Htr)) as (st0 & Hst0 & Hor).
      exists st0. split; [exact Hst0|right; exact Hor]. }
    destruct Hkind as [[Hstep ->]|[Hstep ->]].
    + rewrite (mware_resume_wrapped _ _ _ _ _ Hty Hstep (Hon Hstep eq_refl)).
      fold c. split; [exact Hlogw|]. apply Inv_final; assumption.
    + rewrite (mware_final_wrapped _ _ _ _ _ Hty Hstep). cbv zeta. fold c.
      destruct (result_of (wrapNext hooks c origNext s)) as [v|err];
        cbn [log_of store_of fst snd].
      * destruct (finish_steps hooks c
                    (match asyncStepType ctx with Some Throw => RThrow | _ => RReturn end)
                    v (store_of (wrapNext hooks c origNext s)))
          as [Hlog Hstep'].
        { apply (proj2 Hinvw). left. exact Hrun2. }
        { exact Hparent. }
        split; [apply Forall_app_2; assumption|].
        apply (Inv_done _ _ _ _ Hinvw Hstep').
      * split; [exact Hlogw|]. apply Inv_final; assumption.
  - destruct (Hbody s Hinv1) as [Hlogb Hinvb].
    split; [exact Hlogb|]. apply Inv_final; assumption.
Qed.

(** An async step without a step type is rejected by the filter. *)
Lemma untyped_step asyncStepTypeText actionName hooks ctx (origNext : M Outcome) st st2 :
  type ctx = Async ->
  asyncStepType ctx = None ->
  stepsSafely st st2 origNext ->
  stepsSafely st st2
    (do accepted <- filter actionName hooks ctx;
     if accepted then mware asyncStepTypeText hooks ctx origNext else origNext).
Proof.
  intros Hty Hstep Hbody s Hinv.
  destruct (filter_continue actionName hooks ctx s Hty) as (Hlogf & Hstoref & _ & Hrej).
  { rewrite Hstep. discriminate. }
  rewrite log_of_bind, store_of_bind, Hlogf, Hstoref, (Hrej Hstep). cbn [app].
  apply Hbody, Hinv.
Qed.

(** ** Sequences of steps *)

Lemma Step_nested_ind (P : Step -> Prop) :
  (forall ctx body out, Forall P body -> P (mkStep ctx body out)) ->
  forall s, P s.
Proof.
  intros step. fix IH 1. intros [ctx body out]. apply step.
  revert body. fix IHbody 1. intros [|s body].
  - constructor.
  - constructor; [apply IH|apply IHbody].
Qed.

Lemma stepsSafely_ret {A} st (a : A) : stepsSafely st st (ret a).
Proof. intros s Hinv. split; [constructor|exact Hinv]. Qed.

Lemma stepsSafely_seq {A B} st st1 st2 (m : M A) (k : M B) :
  stepsSafely st st1 m -> stepsSafely st1 st2 k -> stepsSafely st st2 (m ;; k).
Proof.
  intros Hm Hk s Hinv. rewrite log_of_bind, store_of_bind.
  destruct (Hm s Hinv) as [Hlog1 Hinv1].
  destruct (Hk _ Hinv1) as [Hlog2 Hinv2].
  split; [apply Forall_app_2; assumption|exact Hinv2].
Qed.

Lemma wfAll_ok asyncStepTypeText actionName hooks out body :
  Forall (stepOk asyncStepTypeText actionName hooks) body ->
  forall st st',
    wfAll wfStep st body = Some st' ->
    stepsSafely st st' (runAll (runStep asyncStepTypeText actionName hooks) out body) /\
    (forall l, st !! l = Some Running -> st' !! l = Some Running).
Proof.
  induction 1 as [|s body Hs _ IH]; intros st st' Hwf; simpl in Hwf.
  - injection Hwf as <-. split; [apply stepsSafely_ret|auto].
  - destruct (wfStep st s) as [st1|] eqn:Hwf1; [|discriminate].
    destruct (Hs st st1 Hwf1) as [Hsafe1 Hrun1].
    destruct (IH st1 st' Hwf) as [Hsafe2 Hrun2].
    split; [|auto].
    cbn [runAll]. apply (stepsSafely_seq st st1 st'); assumption.
Qed.

Lemma wfStep_eq st ctx body out :
  wfStep st (mkStep ctx body out) =
  let l := data (chainRoot ctx) in
  let begins (final : ChainStatus) :=
    match previousAsyncStepContext ctx, st !! l with
    | None, None =>
        match wfAll wfStep (<[l := Running]> st) body with
        | Some st2 => Some (<[l := final]> st2)
        | None => None
        end
    | _, _ => None
    end in
  let continues (final : ChainStatus) :=
    match st !! l with
    | Some Open =>
        match wfAll wfStep (<[l := Running]> st) body with
        | Some st2 => Some (<[l := final]> st2)
        | None => None
        end
    | _ => None
    end in
  if parentShares ctx then None
  else
    match type ctx, asyncStepType ctx with
    | Sync, _ => begins Done
    | Async, Some Spawn => begins Open
    | Async, (Some Resume | Some ResumeError) => continues Open
    | Async, (Some Return | Some Throw) => continues Done
    | Async, None => wfAll wfStep st body
    end.
Proof. reflexivity. Qed.

Lemma running_after l final (st st2 : Chains) :
  st !! l <> Some Running ->
  (forall l', <[l := Running]> st !! l' = Some Running -> st2 !! l' = Some Running) ->
  forall l', st !! l' = Some Running -> <[l := final]> st2 !! l' = Some Running.
Proof.
  intros Hl Hrun l' Hl'. destruct (decide (l = l')) as [->|Hne]; [contradiction|].
  rewrite lookup_insert_ne by exact Hne. apply Hrun.
  rewrite lookup_insert_ne by exact Hne. exact Hl'.
Qed.

Lemma every_step_ok asyncStepTypeText actionName hooks :
  forall s, stepOk asyncStepTypeText actionName hooks s.
Proof.
  induction s as [ctx body out Hbody] using Step_nested_ind.
  intros st st' Hwf. rewrite wfStep_eq in Hwf. cbv zeta in Hwf.
  change (runStep asyncStepTypeText actionName hooks (mkStep ctx body out))
    with (do accepted <- filter actionName hooks ctx;
          if accepted
          then mware asyncStepTypeText hooks ctx
                 (runAll (runStep asyncStepTypeText actionName hooks) out body)
          else runAll (runStep asyncStepTypeText actionName hooks) out body).
  set (l := data (chainRoot ctx)) in *.
  destruct (parentShares ctx) eqn:Hshare; [discriminate|].
  assert (Hbegin : forall final,
             (type ctx = Sync /\ final = Done) \/
             (type ctx = Async /\ asyncStepType ctx = Some Spawn /\ final = Open) ->
             match previousAsyncStepContext ctx, st !! l with
             | None, None =>
                 match wfAll wfStep (<[l := Running]> st) body with
                 | Some st2 => Some (<[l := final]> st2)
                 | None => None
                 end
             | _, _ => None
             end = Some st' ->
             stepsSafely st st'
               (do accepted <- filter actionName hooks ctx;
                if accepted
                then mware asyncStepTypeText hooks ctx
                       (runAll (runStep asyncStepTypeText actionName hooks) out body)
                else runAll (runStep asyncStepTypeText actionName hooks) out body) /\
             (forall l', st !! l' = Some Running -> st' !! l' = Some Running)).
  { intros final Hkind H.
    destruct (previousAsyncStepContext ctx) eqn:Hprev; [discriminate|].
    destruct (st !! l) eqn:Hl; [discriminate|].
    destruct (wfAll wfStep (<[l := Running]> st) body) as [st2|] eqn:Hb; [|discriminate].
    injection H as <-.
    destruct (wfAll_ok asyncStepTypeText actionName hooks out body Hbody _ _ Hb)
      as [Hsafe Hrun].
    split.
    - apply begin_step; try assumption. apply Hrun, lookup_insert_eq.
    - apply running_after; [congruence|exact Hrun]. }
  assert (Hcont : forall final,
             type ctx = Async ->
             ((asyncStepType ctx = Some Resume \/ asyncStepType ctx = Some ResumeError) /\
              final = Open) \/
             ((asyncStepType ctx = Some Return \/ asyncStepType ctx = Some Throw) /\
              final = Done) ->
             match st !! l with
             | Some Open =>
                 match wfAll wfStep (<[l := Running]> st) body with
                 | Some st2 => Some (<[l := final]> st2)
                 | None => None
                 end
             | _ => None
             end = Some st' ->
             stepsSafely st st'
               (do accepted <- filter actionName hooks ctx;
                if accepted
                then mware asyncStepTypeText hooks ctx
                       (runAll (runStep asyncStepTypeText actionName hooks) out body)
                else runAll (runStep asyncStepTypeText actionName hooks) out body) /\
             (forall l', st !! l' = Some Running -> st' !! l' = Some Running)).
  { intros final Hty Hkind H.
    destruct (st !! l) as [[| |]|] eqn:Hl; try discriminate.
    destruct (wfAll wfStep (<[l := Running]> st) body) as [st2|] eqn:Hb; [|discriminate].
    injection H as <-.
    destruct (wfAll_ok asyncStepTypeText actionName hooks out body Hbody _ _ Hb)
      as [Hsafe Hrun].
    split.
    - apply continue_step; try assumption. apply Hrun, lookup_insert_eq.
    - apply running_after; [congruence|exact Hrun]. }
  destruct (type ctx) eqn:Hty.
  - apply (Hbegin Done); [left; split; reflexivity|exact Hwf].
  - destruct (asyncStepType ctx) as [[| | | |]|] eqn:Hstep.
    + apply (Hbegin Open); [right; repeat split; reflexivity|exact Hwf].
    + apply (Hcont Done); [reflexivity|right; split; [left|]; reflexivity|exact Hwf].
    + apply (Hcont Done); [reflexivity|right; split; [right|]; reflexivity|exact Hwf].
    + apply (Hcont Open); [reflexivity|left; split; [left|]; reflexivity|exact Hwf].
    + apply (Hcont Open); [reflexivity|left; split; [right|]; reflexivity|exact Hwf].
    + destruct (wfAll_ok asyncStepTypeText actionName hooks out body Hbody _ _ Hwf)
        as [Hsafe Hrun].
      split; [|exact Hrun]. apply untyped_step; assumption.
Qed.

Lemma schedule_ok asyncStepTypeText actionName hooks steps :
  forall st st',
    wfAll wfStep st steps = Some st' ->
    stepsSafely st st' (runSchedule asyncStepTypeText actionName hooks steps).
Proof.
  induction steps as [|s steps IH]; intros st st' Hwf; simpl in Hwf.
  - injection Hwf as <-. apply stepsSafely_ret.
  - destruct (wfStep st s) as [st1|] eqn:Hwf1; [|discriminate].
    cbn [runSchedule]. apply (stepsSafely_seq st st1 st').
    + apply (every_step_ok asyncStepTypeText actionName hooks s st st1 Hwf1).
    + apply IH, Hwf.
Qed.

Lemma Inv_empty : Inv ∅ ∅.
Proof.
  split.
  - intros l _. apply lookup_empty.
  - intros l [H|H]; rewrite lookup_empty in H; discriminate.
Qed.

(** C5. Run any sequence of steps that keeps the step order of the chains
    (a sync action is one step, an async action is Spawn, then Resume
    steps, then one Return or Throw; every chain has a bag of its own,
    distinct from its parent's), each step going through the filter and,
    when accepted, the middleware. Then every write to the record of an
    accepted invocation either creates it at [idle] or moves its state
    along idle -> started -> {realResumed, fakeResumed, suspended} ->
    finished: nothing leaves [finished], [started] follows [idle] only,
    and [suspended] is entered from a resumed or suspended state only. *)
Theorem tracking_state_follows_the_machine
    asyncStepTypeText actionName hooks (steps : list Step) :
  wfSchedule steps = true ->
  Forall allowedWrite
    (log_of (runSchedule asyncStepTypeText actionName hooks steps ∅)) /\
  (forall s', transition Finished s' = false) /\
  (forall s, transition s Started = true <-> s = Idle) /\
  (forall s', transition Idle s' = true <-> s' = Started) /\
  (forall s, transition s Suspended = true <-> resumedOrSuspended s = true) /\
  (forall s, transition s Finished = true <-> resumedOrSuspended s = true).
Proof.
  intros Hwf. unfold wfSchedule in Hwf.
  destruct (wfAll wfStep ∅ steps) as [st'|] eqn:Hall; [|discriminate].
  split; [|split; [|split; [|split; [|split]]]].
  - apply (schedule_ok asyncStepTypeText actionName hooks steps ∅ st' Hall ∅ Inv_empty).
  - intros []; reflexivity.
  - intros []; split; intros H; try reflexivity; discriminate H.
  - intros []; split; intros H; try reflexivity; discriminate H.
  - intros []; split; intros H; try reflexivity; discriminate H.
  - intros []; split; intros H; try reflexivity; discriminate H.
Qed.

Lemma tracking_state_follows_the_machine_witness :
  wfSchedule sampleSchedule = true /\
  Forall allowedWrite
    (log_of (runSchedule stepText JsUndefined bothHooks sampleSchedule ∅)).
Proof.
  split; [reflexivity|].
  exact (proj1 (tracking_state_follows_the_machine stepText JsUndefined bothHooks
                  sampleSchedule eq_refl)).
Defined.

Lemma simplifyActionContext_chain_idempotent_witness :
  simplifyActionContext fetchReturn = simplifyActionContext fetchSpawn /\
  Simple.data (simplifyActionContext fetchReturn) = 1%positive.
Proof.
  exact (proj1 simplifyActionContext_chain_idempotent fetchReturn fetchSpawn eq_refl).
Defined.

Lemma finish_fake_resumes_suspended_parent_witness :
  stateAt 1%positive
    (mark 2%positive Finished
       (store_of (resume bothHooks grandparentCtx false grandparentSuspended)))
  = Some FakeResumed.
Proof.
  destruct (finish_fake_resumes_suspended_parent bothHooks untrackedParentCtx
              RReturn JsUndefined grandparentSuspended)
    as (_ & _ & _ & _ & Hseen & _).
  apply Hseen. discriminate.
Defined.

Lemma resume_fake_resumes_suspended_run_witness :
  suspendedRun grandparentSuspended untrackedParentCtx = [grandparentCtx] /\
  stateAt 1%positive
    (store_of (resume bothHooks untrackedParentCtx true grandparentSuspended))
  = Some FakeResumed.
Proof.
  destruct (resume_fake_resumes_suspended_run bothHooks untrackedParentCtx true
              grandparentSuspended)
    as (_ & Hrun & Hall & _).
  split; [exact Hrun|].
  apply Forall_inv in Hall. destruct Hall as (_ & _ & Hstate).
  apply Hstate. discriminate.
Defined.

(** ** utils: arrays and maps *)

Section array_properties.
Context {T : Type}.
Variable strictEq : T -> T -> bool.

Lemma indexOf_found (array : list T) (value : T) :
  Exists (fun x => strictEq x value = true) array ->
  exists pre x post,
    array = pre ++ x :: post /\
    strictEq x value = true /\
    Forall (fun y => strictEq y value = false) pre /\
    indexOf strictEq array value = Z.of_nat (length pre).
Proof.
  induction array as [|y rest IH]; intros Hex; [inversion Hex|].
  cbn [indexOf]. destruct (strictEq y value) eqn:Hy.
  - exists [], y, rest. repeat split; [exact Hy|constructor].
  - assert (Hrest : Exists (fun x => strictEq x value = true) rest).
    { inversion Hex as [? ? Hhead|? ? Htail]; subst; [congruence|exact Htail]. }
    destruct (IH Hrest) as (pre & x & post & -> & Hx & Hpre & Hidx).
    exists (y :: pre), x, post. split; [reflexivity|]. split; [exact Hx|]. split.
    + constructor; [exact Hy|exact Hpre].
    + rewrite Hidx. cbn zeta.
      destruct (Z.leb_spec 0 (Z.of_nat (length pre))) as [_|Hneg]; [|lia].
      cbn [length]. lia.
Qed.

Lemma indexOf_absent (array : list T) (value : T) :
  Forall (fun y => strictEq y value = false) array ->
  indexOf strictEq array value = (-1)%Z.
Proof.
  induction array as [|y rest IH]; intros Hall; [reflexivity|].
  cbn [indexOf]. inversion Hall as [|? ? Hy Hrest]; subst.
  rewrite Hy, (IH Hrest). reflexivity.
Qed.

Lemma splice1_middle (pre post : list T) (value : T) :
  splice1 (pre ++ value :: post) (Z.of_nat (length pre)) = pre ++ post.
Proof.
  unfold splice1. rewrite Nat2Z.id, take_app_length. f_equal.
  rewrite (cons_middle value pre post), app_assoc.
  replace (S (length pre)) with (length (pre ++ [value]))
    by (rewrite length_app; simpl; lia).
  apply drop_app_length.
Qed.

Lemma deleteFromArray_found (pre post : list T) (x value : T) :
  strictEq x value = true ->
  Forall (fun y => strictEq y value = false) pre ->
  deleteFromArray strictEq (pre ++ x :: post) value = (true, pre ++ post).
Proof.
  intros Hx Hpre.
  assert (Hex : Exists (fun y => strictEq y value = true) (pre ++ x :: post)).
  { apply Exists_app. right. left. exact Hx. }
  destruct (indexOf_found _ value Hex) as (pre' & x' & post' & Heq & Hx' & Hpre' & Hidx).
  assert (Hlen : length pre' = length pre).
  { clear Hidx Hex. revert pre' Heq Hpre'.
    induction Hpre as [|y pre0 Hy _ IH]; intros [|y' pre'] Heq Hpre'.
    - reflexivity.
    - simpl in Heq. injection Heq as <- _. inversion Hpre'; congruence.
    - simpl in Heq. injection Heq as -> _. congruence.
    - simpl in Heq. injection Heq as <- Heq. inversion Hpre'; subst.
      cbn [length]. f_equal. apply IH; assumption. }
  unfold deleteFromArray. rewrite Hidx, Hlen. cbn zeta.
  destruct (Z.leb_spec 0 (Z.of_nat (length pre))) as [_|Hneg]; [|lia].
  rewrite splice1_middle. reflexivity.
Qed.

Lemma deleteFromArray_cases (array : list T) (value : T) :
  (exists pre x post,
      array = pre ++ x :: post /\
      strictEq x value = true /\
      Forall (fun y => strictEq y value = false) pre /\
      deleteFromArray strictEq array value = (true, pre ++ post)) \/
  (Forall (fun y => strictEq y value = false) array /\
   deleteFromArray strictEq array value = (false, array)).
Proof.
  destruct (Exists_dec (fun x => strictEq x value = true) array) as [Hex|Hnone].
  - left. destruct (indexOf_found array value Hex) as (pre & x & post & -> & Hx & Hpre & _).
    exists pre, x, post. repeat split; try assumption.
    apply deleteFromArray_found; assumption.
  - right.
    assert (Hall : Forall (fun y => strictEq y value = false) array).
    { apply Forall_forall. intros y Hy. destruct (strictEq y value) eqn:E; [|reflexivity].
      exfalso. apply Hnone. apply Exists_exists. exists y. split; assumption. }
    split; [exact Hall|].
    unfold deleteFromArray. rewrite (indexOf_absent array value Hall). reflexivity.
Qed.

(** X1. [deleteFromArray] answers whether some element of the array is
    strictly equal ([===]) to the value. When one is, exactly the first
    such element is taken out and the other elements keep their order;
    when none is, the array is left as it is. Strict equality is not
    occurrence: where [===] on the value is identity the answer is
    whether the value occurs, but a value that is not strictly equal to
    itself ([NaN]) is never found, even in an array that holds it. *)
Theorem deleteFromArray_first_occurrence (array : list T) (value : T) :
  (Exists (fun x => strictEq x value = true) array ->
   exists pre x post,
     array = pre ++ x :: post /\
     strictEq x value = true /\
     Forall (fun y => strictEq y value = false) pre /\
     deleteFromArray strictEq array value = (true, pre ++ post)) /\
  (Forall (fun y => strictEq y value = false) array ->
   deleteFromArray strictEq array value = (false, array)) /\
  (fst (deleteFromArray strictEq array value) = true <->
   Exists (fun x => strictEq x value = true) array) /\
  ((forall x, strictEq x value = true <-> x = value) ->
   (fst (deleteFromArray strictEq array value) = true <-> In value array) /\
   (In value array ->
    exists pre post,
      array = pre ++ value :: post /\
      ~ In value pre /\
      deleteFromArray strictEq array value = (true, pre ++ post))) /\
  (strictEq value value = false ->
   deleteFromArray strictEq [value] value = (false, [value])).
Proof.
  assert (Hiff : fst (deleteFromArray strictEq array value) = true <->
                 Exists (fun x => strictEq x value = true) array).
  { destruct (deleteFromArray_cases array value)
      as [(pre & x & post & -> & Hx & Hpre & ->)|[Hall ->]]; cbn [fst]; split.
    - intros _. apply Exists_app. right. left. exact Hx.
    - reflexivity.
    - discriminate.
    - intros Hex. apply Exists_exists in Hex. destruct Hex as (y & Hy & Hyv).
      rewrite Forall_forall in Hall. rewrite (Hall y Hy) in Hyv. discriminate. }
  assert (Hfound : Exists (fun x => strictEq x value = true) array ->
            exists pre x post,
              array = pre ++ x :: post /\
              strictEq x value = true /\
              Forall (fun y => strictEq y value = false) pre /\
              deleteFromArray strictEq array value = (true, pre ++ post)).
  { intros Hex. destruct (indexOf_found array value Hex) as (pre & x & post & -> & Hx & Hpre & _).
    exists pre, x, post. repeat split; try assumption.
    apply deleteFromArray_found; assumption. }
  split; [exact Hfound|]. split; [|split; [exact Hiff|split]].
  - intros Hall. unfold deleteFromArray. rewrite (indexOf_absent array value Hall).
    reflexivity.
  - intros Hid.
    assert (Hin : In value array <-> Exists (fun x => strictEq x value = true) array).
    { rewrite List.Exists_exists. split.
      - intros Hin. exists value. split; [exact Hin|]. apply Hid. reflexivity.
      - intros (y & Hy & Hyv). apply Hid in Hyv. subst y. exact Hy. }
    split; [rewrite Hiff, Hin; reflexivity|].
    intros Hv. apply Hin in Hv. destruct (Hfound Hv) as (pre & x & post & -> & Hx & Hpre & Hr).
    apply Hid in Hx. subst x. exists pre, post. split; [reflexivity|]. split; [|exact Hr].
    intros Hp. rewrite List.Forall_forall in Hpre.
    assert (Hvv : strictEq value value = true) by (apply Hid; reflexivity).
    rewrite (Hpre value Hp) in Hvv. discriminate.
  - intros Hnan. unfold deleteFromArray. cbn [indexOf]. rewrite Hnan. reflexivity.
Qed.

(** X2. What [deleteFromArray] leaves, counted. The length drops by one
    exactly when the answer is [true]; the elements that are not strictly
    equal to the value are the same, in the same order; of the elements
    strictly equal to the value there is one less (none less when there
    was none). When strict equality on the value is identity, an array
    without repetitions is left without repetitions and no longer holds
    the value; an array whose elements are all not strictly equal to the
    value, [NaN] in an array of [NaN]s included, is left as it is. *)
Theorem deleteFromArray_counts (array : list T) (value : T) :
  let r := deleteFromArray strictEq array value in
  let same := fun x => strictEq x value in
  length (snd r) + (if fst r then 1 else 0) = length array /\
  List.filter (fun x => negb (same x)) (snd r) = List.filter (fun x => negb (same x)) array /\
  length (List.filter same (snd r)) = pred (length (List.filter same array)) /\
  ((forall x, strictEq x value = true <-> x = value) ->
   List.NoDup array -> List.NoDup (snd r) /\ ~ In value (snd r)) /\
  (Forall (fun y => strictEq y value = false) array -> r = (false, array)).
Proof.
  cbv zeta.
  destruct (deleteFromArray_cases array value)
    as [(pre & x & post & -> & Hx & Hpre & ->)|[Hall ->]]; cbn [fst snd].
  - assert (Hnone : List.filter (fun y => strictEq y value) pre = []).
    { clear -Hpre. induction Hpre as [|y pre0 Hy _ IH]; [reflexivity|].
      cbn [List.filter]. rewrite Hy. exact IH. }
    split; [|split; [|split; [|split]]].
    + rewrite !length_app. simpl. lia.
    + rewrite !List.filter_app. cbn [List.filter]. rewrite Hx. reflexivity.
    + rewrite !List.filter_app. cbn [List.filter]. rewrite Hx, Hnone. reflexivity.
    + intros Hid Hnd. apply Hid in Hx. subst x. split.
      * apply NoDup_remove_1 in Hnd. exact Hnd.
      * apply NoDup_remove_2 in Hnd. exact Hnd.
    + intros Hall. apply Forall_app in Hall. destruct Hall as [_ Hall].
      inversion Hall; congruence.
  - assert (Hnone : List.filter (fun y => strictEq y value) array = []).
    { clear -Hall. induction Hall as [|y rest Hy _ IH]; [reflexivity|].
      cbn [List.filter]. rewrite Hy. exact IH. }
    split; [lia|]. split; [reflexivity|]. split; [rewrite Hnone; reflexivity|].
    split; [|reflexivity].
    intros Hid Hnd. split; [exact Hnd|].
    intros Hin. rewrite List.Forall_forall in Hall.
    assert (Hvv : strictEq value value = true) by (apply Hid; reflexivity).
    rewrite (Hall value Hin) in Hvv. discriminate.
Qed.

End array_properties.

Lemma deleteFromArray_first_occurrence_witness :
  deleteFromArray numberStrictEq [NaN] NaN = (false, [NaN]).
Proof.
  exact (proj2 (proj2 (proj2 (proj2
           (deleteFromArray_first_occurrence numberStrictEq [NaN] NaN)))) eq_refl).
Defined.

Lemma deleteFromArray_counts_witness :
  deleteFromArray numberStrictEq [NaN; Int 1] NaN = (false, [NaN; Int 1]).
Proof.
  refine (proj2 (proj2 (proj2 (proj2
            (deleteFromArray_counts numberStrictEq [NaN; Int 1] NaN)))) _).
  repeat constructor.
Defined.

Section map_properties.
Context {K V U : Type} `{Countable K}.

(** X3. [mapGetOrDefault] returns what the map holds at the key
    afterwards. A key that is present is returned without calling [def]
    and without touching the map; an absent key gets the value [def]
    makes, other keys staying as they are; and asking again for the same
    key returns the same value with no further call of any [def]. *)
Theorem mapGetOrDefault_memo (map : gmap K V) (key : K) (def : U -> V * U) (u : U) :
  let r := mapGetOrDefault map key def u in
  let v := fst (fst r) in
  let map' := snd (fst r) in
  let u' := snd r in
  map' !! key = Some v /\
  (forall key', key' <> key -> map' !! key' = map !! key') /\
  (forall v0, map !! key = Some v0 -> v = v0 /\ map' = map /\ u' = u) /\
  (map !! key = None -> (v, u') = def u /\ map' = <[key := v]> map) /\
  (forall (def2 : U -> V * U) (u2 : U),
      mapGetOrDefault map' key def2 u2 = (v, map', u2)).
Proof.
  cbv zeta. unfold mapGetOrDefault.
  destruct (map !! key) as [v0|] eqn:Hkey.
  - cbn [fst snd]. split; [exact Hkey|]. split; [reflexivity|].
    split; [intros v1 [= <-]; tauto|]. split; [discriminate|].
    intros def2 u2. rewrite Hkey. reflexivity.
  - destruct (def u) as [newValue u1] eqn:Hdef. cbn [fst snd].
    split; [apply lookup_insert_eq|].
    split; [intros key' Hne; apply lookup_insert_ne; congruence|].
    split; [discriminate|]. split; [tauto|].
    intros def2 u2. rewrite lookup_insert_eq. reflexivity.
Qed.

End map_properties.

(** ** The context local store: reads after writes *)

Lemma assign_assoc d1 d2 d3 : assign (assign d1 d2) d3 = assign d1 (assign d2 d3).
Proof.
  destruct d1 as [a1 s1], d2 as [a2 s2], d3 as [[a3|] [s3|]]; reflexivity.
Qed.

(** X4. Reading a bag after [setCtxData] gives the record that was there
    with the fields of the partial record laid over it (the partial record
    itself when there was none), so a field the partial record does not
    name is kept; the records of other bags are not touched; and two
    writes in a row amount to one write of the two partial records
    merged. *)
Theorem setCtxData_read_back (l : loc) (partialData partialData2 : Data) (s : Store) :
  let s' := store_of (setCtxData l partialData s) in
  getCtxData l s' =
    Some (match getCtxData l s with
          | Some currentData => assign currentData partialData
          | None => partialData
          end) /\
  (forall l', l' <> l -> getCtxData l' s' = getCtxData l' s) /\
  (startAccepted partialData = None ->
   startAcceptedAt l s' = startAcceptedAt l s) /\
  (state partialData = None -> stateAt l s' = stateAt l s) /\
  store_of (setCtxData l partialData2 s') =
    store_of (setCtxData l (assign partialData partialData2) s).
Proof.
  cbv zeta. unfold getCtxData, startAcceptedAt, stateAt, getCtxData, setCtxData, store_of.
  cbn [fst snd]. rewrite lookup_insert_eq.
  split; [reflexivity|].
  split; [intros l' Hne; apply lookup_insert_ne; congruence|].
  split; [|split].
  - intros Hnone.
    destruct (s !! l) as [[sa st]|]; simpl; [rewrite Hnone; reflexivity|exact Hnone].
  - intros Hnone.
    destruct (s !! l) as [[sa st]|]; simpl; [rewrite Hnone; reflexivity|exact Hnone].
  - rewrite insert_insert_eq. f_equal.
    destruct (s !! l) as [currentData|]; [apply assign_assoc|reflexivity].
Qed.

(** ** The acceptance filter, rule by rule *)

(** X5. On a sync step or a Spawn step the filter accepts exactly when the
    step passes the action-name gate and the user predicate, asked once on
    the simplified context, accepts it (no predicate counts as yes). On
    acceptance the record of the context's own bag becomes
    [{ startAccepted: true, state: "idle" }], whatever it held before;
    on rejection nothing is written; other bags are never touched, and the
    predicate is not asked at all when the gate rejects. *)
Theorem filter_start_step actionName hooks (ctx : ActionContext) (s : Store) :
  type ctx = Sync \/ (type ctx = Async /\ asyncStepType ctx = Some Spawn) ->
  let r := filter actionName hooks ctx s in
  let asked := negb (otherAction actionName ctx) in
  let accepted :=
    asked && match hooks_filter hooks with
             | Some f => f (simplifyActionContext ctx) s
             | None => true
             end in
  result_of r = accepted /\
  store_of r =
    (if accepted
     then <[data ctx := {| startAccepted := Some true; state := Some Idle |}]> s
     else s) /\
  calls (log_of r) =
    (if asked
     then match hooks_filter hooks with
          | Some _ => [OnFilter (simplifyActionContext ctx)]
          | None => []
          end
     else []).
Proof.
  intros Hkind. cbv zeta.
  assert (Hacc :
            let accepted := match hooks_filter hooks with
                            | Some f => f (simplifyActionContext ctx) s
                            | None => true
                            end in
            result_of (acceptStart hooks ctx s) = accepted /\
            store_of (acceptStart hooks ctx s) =
              (if accepted
               then <[data ctx := {| startAccepted := Some true; state := Some Idle |}]> s
               else s) /\
            calls (log_of (acceptStart hooks ctx s)) =
              match hooks_filter hooks with
              | Some _ => [OnFilter (simplifyActionContext ctx)]
              | None => []
              end).
  { cbv zeta. unfold acceptStart, userFilter, bind, ret, setCtxData,
      result_of, store_of, log_of.
    destruct (hooks_filter hooks) as [f|]; cbn [fst snd].
    - destruct (f (simplifyActionContext ctx) s); cbn [fst snd app].
      + split; [reflexivity|]. split; [|reflexivity].
        destruct (s !! data ctx) as [[sa st]|]; reflexivity.
      + repeat split.
    - cbn [app]. split; [reflexivity|]. split; [|reflexivity].
      destruct (s !! data ctx) as [[sa st]|]; reflexivity. }
  cbv zeta in Hacc. unfold filter.
  destruct (otherAction actionName ctx); cbn [negb andb].
  - repeat split.
  - destruct Hkind as [-> | [-> ->]]; exact Hacc.
Qed.

Lemma filter_start_step_witness :
  result_of (filter (JsString "add") bothHooks (syncStepOf "add" 1%positive)
               {[ 1%positive := {| startAccepted := None; state := Some Finished |} ]})
  = true /\
  store_of (filter (JsString "add") bothHooks (syncStepOf "add" 1%positive)
              {[ 1%positive := {| startAccepted := None; state := Some Finished |} ]})
  = {[ 1%positive := {| startAccepted := Some true; state := Some Idle |} ]}.
Proof.
  destruct (filter_start_step (JsString "add") bothHooks (syncStepOf "add" 1%positive)
              {[ 1%positive := {| startAccepted := None; state := Some Finished |} ]}
              (or_introl eq_refl))
    as (Hres & Hstore & _).
  split; [exact Hres|]. rewrite Hstore. apply insert_singleton_eq.
Defined.

(** X6. On every other step (an async step that is not Spawn) the filter
    only reads: it writes nothing and calls nobody, the user predicate
    included, which is thus asked for the start of an action only. Its
    answer is no for a step of another action or without a known step
    type, the acceptance flag found at the chain root for Return and
    Throw, and whether a resume or suspend hook exists for Resume and
    ResumeError. *)
Theorem filter_later_step actionName hooks (ctx : ActionContext) (s : Store) :
  type ctx = Async ->
  asyncStepType ctx <> Some Spawn ->
  filter actionName hooks ctx s =
  (negb (otherAction actionName ctx)
   && match asyncStepType ctx with
      | Some Return | Some Throw =>
          bool_decide (startAcceptedAt (data (chainRoot ctx)) s = Some true)
      | Some Resume | Some ResumeError => has_onResume hooks || has_onSuspend hooks
      | _ => false
      end,
   s, []).
Proof.
  intros Hty Hstep. unfold filter. rewrite Hty.
  destruct (otherAction actionName ctx); [reflexivity|]. cbn [negb andb].
  unfold startAcceptedAt.
  destruct (asyncStepType ctx) as [[| | | |]|]; try congruence; try reflexivity;
    destruct (getCtxData (data (chainRoot ctx)) s) as [[[[|]|] st]|]; reflexivity.
Qed.

Lemma filter_later_step_witness :
  filter JsUndefined noOptionalHooks fetchReturn ∅ = (false, ∅, []).
Proof.
  refine (filter_later_step JsUndefined noOptionalHooks fetchReturn ∅ eq_refl _).
  discriminate.
Defined.

(** X7. The action name is compared with [!==]: a configured action name
    that is truthy but not a string equals no context name, so the filter
    then rejects every step, writes nothing and never asks the user
    predicate; a falsy action name switches the gate off, the filter
    behaving as with no action name at all. *)
Theorem filter_action_name_gate actionName hooks (ctx : ActionContext) (s : Store) :
  (truthy actionName = true ->
   (forall str, actionName <> JsString str) ->
   filter actionName hooks ctx s = (false, s, [])) /\
  (truthy actionName = false ->
   filter actionName hooks ctx s = filter JsUndefined hooks ctx s) /\
  (forall str,
      actionName = JsString str -> str <> "" ->
      name ctx <> str ->
      filter actionName hooks ctx s = (false, s, [])).
Proof.
  split; [|split].
  - intros Htruthy Hstr. unfold filter, otherAction. rewrite Htruthy.
    destruct actionName; try reflexivity. exfalso. apply (Hstr s0). reflexivity.
  - intros Hfalsy. unfold filter, otherAction. rewrite Hfalsy. reflexivity.
  - intros str -> Hne Hname. unfold filter, otherAction. simpl.
    destruct (String.eqb_spec str "") as [|_]; [contradiction|].
    destruct (String.eqb_spec (name ctx) str) as [|_]; [contradiction|].
    reflexivity.
Qed.

Lemma filter_action_name_gate_witness :
  filter (JsNumber 1) bothHooks (syncStepOf "1" 1%positive) ∅ = (false, ∅, []).
Proof.
  refine (proj1 (filter_action_name_gate (JsNumber 1) bothHooks
                   (syncStepOf "1" 1%positive) ∅) eq_refl _).
  intros str. discriminate.
Defined.

(** ** What the driver keeps *)

(** The driver writes through [setCtxData] with a state only, at the bag
    of the context or of one of its ancestors: a property of stores that
    such writes keep is kept by the whole operation. *)
Lemma keeps_mark I l st :
  (forall s, I s -> I (mark l st s)) ->
  keeps I (setCtxData l {| startAccepted := None; state := Some st |}).
Proof. intros Hclosed s Hs. apply Hclosed, Hs. Qed.

Lemma keeps_resume_marks (I : Store -> Prop) hooks c :
  (forall a, In a (c :: ancestors c) ->
             forall st s, I s -> I (mark (Simple.data a) st s)) ->
  forall real, keeps I (resume hooks c real).
Proof.
  induction c as [c IH] using SimpleActionContext_nested_ind.
  intros Hclosed real. rewrite resume_eq.
  apply keeps_bind; [|intros _; apply keeps_bind; [|intros _]].
  - destruct (Simple.parentContext c) as [p|] eqn:Hp; [|auto with keeps].
    apply keeps_guard; [|auto with keeps]. apply (IH p eq_refl).
    intros a Ha. apply Hclosed. right. apply (ancestors_parent c p a Hp Ha).
  - apply keeps_mark. apply Hclosed. left. reflexivity.
  - apply keeps_if; auto with keeps.
Qed.

Lemma keeps_suspend_marks (I : Store -> Prop) hooks c :
  (forall a, In a (c :: ancestors c) ->
             forall st s, I s -> I (mark (Simple.data a) st s)) ->
  keeps I (suspend hooks c).
Proof.
  induction c as [c IH] using SimpleActionContext_nested_ind.
  intros Hclosed. rewrite suspend_eq.
  apply keeps_bind; [|intros _; apply keeps_bind; [|intros _]].
  - apply keeps_mark. apply Hclosed. left. reflexivity.
  - apply keeps_if; auto with keeps.
  - destruct (Simple.parentContext c) as [p|] eqn:Hp; [|auto with keeps].
    apply keeps_guard; [|auto with keeps]. apply (IH p eq_refl).
    intros a Ha. apply Hclosed. right. apply (ancestors_parent c p a Hp Ha).
Qed.

Lemma keeps_start_marks (I : Store -> Prop) c :
  (forall st s, I s -> I (mark (Simple.data c) st s)) ->
  keeps I (start c).
Proof.
  intros Hclosed. unfold start.
  apply keeps_bind; [apply keeps_mark, Hclosed|intros _; auto with keeps].
Qed.

Lemma keeps_finish_marks (I : Store -> Prop) hooks c result value :
  (forall a, In a (c :: ancestors c) ->
             forall st s, I s -> I (mark (Simple.data a) st s)) ->
  keeps I (finish hooks c result value).
Proof.
  intros Hclosed.
  assert (Hparent : forall p, Simple.parentContext c = Some p ->
            forall a, In a (p :: ancestors p) ->
                      forall st s, I s -> I (mark (Simple.data a) st s)).
  { intros p Hp a Ha. apply Hclosed. right. apply (ancestors_parent c p a Hp Ha). }
  unfold finish. apply keeps_bind.
  - destruct (Simple.parentContext c) as [p|] eqn:Hp; [|auto with keeps].
    apply keeps_guard; [|auto with keeps].
    apply keeps_bind; [|intros _; auto with keeps].
    apply keeps_resume_marks, (Hparent p eq_refl).
  - intros parentResumed.
    apply keeps_bind; [apply keeps_mark, Hclosed; left; reflexivity|intros _].
    apply keeps_bind; [auto with keeps|intros _].
    destruct (Simple.parentContext c) as [p|] eqn:Hp; [|auto with keeps].
    apply keeps_if; [|auto with keeps].
    apply keeps_suspend_marks, (Hparent p eq_refl).
Qed.

Lemma keeps_wrapNext_marks (I : Store -> Prop) hooks c (origNext : M Outcome) :
  (forall a, In a (c :: ancestors c) ->
             forall st s, I s -> I (mark (Simple.data a) st s)) ->
  keeps I origNext ->
  keeps I (wrapNext hooks c origNext).
Proof.
  intros Hclosed Hbody. unfold wrapNext.
  apply keeps_bind; [apply keeps_resume_marks, Hclosed|intros _].
  apply keeps_bind; [exact Hbody|intros r].
  apply keeps_bind; [apply keeps_suspend_marks, Hclosed|intros _; auto with keeps].
Qed.

Lemma keeps_mware_marks (I : Store -> Prop) asyncStepTypeText hooks ctx
    (origNext : M Outcome) :
  (forall a, In a (simplifyActionContext ctx :: ancestors (simplifyActionContext ctx)) ->
             forall st s, I s -> I (mark (Simple.data a) st s)) ->
  keeps I origNext ->
  keeps I (mware asyncStepTypeText hooks ctx origNext).
Proof.
  intros Hclosed Hbody. unfold mware. cbv zeta.
  pose proof (keeps_wrapNext_marks I hooks _ origNext Hclosed Hbody) as Hnext.
  assert (Hstart : keeps I (start (simplifyActionContext ctx))).
  { apply keeps_start_marks. apply Hclosed. left. reflexivity. }
  assert (Hfin : forall result value,
             keeps I (finish hooks (simplifyActionContext ctx) result value)).
  { intros result value. apply keeps_finish_marks, Hclosed. }
  destruct (type ctx).
  - apply keeps_bind; [exact Hstart|intros _].
    apply keeps_bind; [exact Hnext|intros [v|err]];
      (apply keeps_bind; [apply Hfin|intros _; auto with keeps]).
  - destruct (asyncStepType ctx) as [[| | | |]|]; auto with keeps.
    + apply keeps_bind; [exact Hstart|intros _; exact Hnext].
    + apply keeps_bind; [exact Hnext|intros [v|err]]; [|auto with keeps].
      apply keeps_bind; [apply Hfin|intros _; auto with keeps].
    + apply keeps_bind; [exact Hnext|intros [v|err]]; [|auto with keeps].
      apply keeps_bind; [apply Hfin|intros _; auto with keeps].
    + apply keeps_if; auto with keeps.
    + apply keeps_if; auto with keeps.
Qed.

Lemma is_Some_mark l l' st (s : Store) : is_Some (s !! l) -> is_Some (mark l' st s !! l).
Proof.
  intros Hs. destruct (decide (l' = l)) as [->|Hne].
  - rewrite lookup_mark. eexists. reflexivity.
  - rewrite lookup_mark_ne by exact Hne. exact Hs.
Qed.

Lemma keeps_filter_accepted actionName hooks l ctx :
  keeps (fun s => startAcceptedAt l s = Some true) (filter actionName hooks ctx) /\
  keeps (fun s => is_Some (s !! l)) (filter actionName hooks ctx).
Proof.
  assert (Hacc : keeps (fun s => startAcceptedAt l s = Some true) (acceptStart hooks ctx) /\
                 keeps (fun s => is_Some (s !! l)) (acceptStart hooks ctx)).
  { split; intros s Hs; unfold acceptStart, userFilter, bind, ret, setCtxData, store_of;
      destruct (hooks_filter hooks) as [f|]; cbn [fst snd];
      try destruct (f (simplifyActionContext ctx) s); cbn [fst snd]; try exact Hs;
      unfold startAcceptedAt, getCtxData in *;
      (destruct (decide (data ctx = l)) as [->|Hne];
       [rewrite lookup_insert_eq; destruct (s !! l) as [[sa st]|];
        try reflexivity; try (eexists; reflexivity); try discriminate Hs;
        try (destruct Hs; discriminate)
       |rewrite lookup_insert_ne by exact Hne; exact Hs]). }
  unfold filter.
  destruct (otherAction actionName ctx); [split; auto with keeps|].
  destruct (type ctx); [exact Hacc|].
  destruct (asyncStepType ctx) as [[| | | |]|]; try exact Hacc;
    try (split; auto with keeps; fail);
    split; intros s Hs; destruct (getCtxData (data (chainRoot ctx)) s); exact Hs.
Qed.

(** X8. Acceptance is never taken back and a record is never removed: the
    middleware body, like [start], [resume], [suspend] and [finish], leaves
    the [startAccepted] field of every record exactly as it is (as long as
    the continuation does), the filter can only set it to [true], and a
    bag that has a record still has one after either. *)
Theorem acceptance_is_stable
    asyncStepTypeText actionName hooks (l : loc)
    (ctx : ActionContext) (origNext : M Outcome) (s : Store) :
  (forall v,
      (forall s', startAcceptedAt l (store_of (origNext s')) = startAcceptedAt l s') ->
      startAcceptedAt l s = v ->
      startAcceptedAt l (store_of (mware asyncStepTypeText hooks ctx origNext s)) = v) /\
  (startAcceptedAt l s = Some true ->
   startAcceptedAt l (store_of (filter actionName hooks ctx s)) = Some true) /\
  ((forall s', is_Some (s' !! l) -> is_Some (store_of (origNext s') !! l)) ->
   is_Some (s !! l) ->
   is_Some (store_of (mware asyncStepTypeText hooks ctx origNext s) !! l)) /\
  (is_Some (s !! l) -> is_Some (store_of (filter actionName hooks ctx s) !! l)).
Proof.
  split; [|split; [|split]].
  - intros v Hbody. apply (keeps_mware_marks (fun s0 => startAcceptedAt l s0 = v)).
    + intros a _ st s0 Hs0. rewrite startAcceptedAt_mark. exact Hs0.
    + intros s0 Hs0. rewrite Hbody. exact Hs0.
  - apply (proj1 (keeps_filter_accepted actionName hooks l ctx)).
  - intros Hbody. apply (keeps_mware_marks (fun s0 => is_Some (s0 !! l))).
    + intros a _ st s0 Hs0. apply is_Some_mark, Hs0.
    + exact Hbody.
  - apply (proj2 (keeps_filter_accepted actionName hooks l ctx)).
Qed.

Lemma acceptance_is_stable_witness :
  startAcceptedAt 1%positive
    (store_of (mware stepText bothHooks fetchReturn (ret (Normal JsUndefined))
                 {[ 1%positive := {| startAccepted := Some true; state := Some Suspended |} ]}))
  = Some true.
Proof.
  refine (proj1 (acceptance_is_stable stepText JsUndefined bothHooks 1%positive
                   fetchReturn (ret (Normal JsUndefined))
                   {[ 1%positive := {| startAccepted := Some true; state := Some Suspended |} ]})
                (Some true) _ eq_refl).
  intros s'. reflexivity.
Defined.

(** X9. An operation of the driver on a context writes only to the bag of
    that context and to the bags of its ancestors: the record of any other
    bag is the same before and after [start], [resume], [suspend] and
    [finish], and before and after the middleware body as long as the
    continuation leaves it alone. *)
Theorem driver_writes_own_and_ancestors_only
    asyncStepTypeText hooks (c : SimpleActionContext) (l : loc) :
  (forall a, In a (c :: ancestors c) -> Simple.data a <> l) ->
  forall (real : bool) (result : ActionTrackingResult) (value : JsValue) (s : Store),
    store_of (start c s) !! l = s !! l /\
    store_of (resume hooks c real s) !! l = s !! l /\
    store_of (suspend hooks c s) !! l = s !! l /\
    store_of (finish hooks c result value s) !! l = s !! l /\
    (forall (ctx : ActionContext) (origNext : M Outcome),
        simplifyActionContext ctx = c ->
        (forall s', store_of (origNext s') !! l = s' !! l) ->
        store_of (mware asyncStepTypeText hooks ctx origNext s) !! l = s !! l).
Proof.
  intros Hpath real result value s.
  assert (Hclosed : forall a, In a (c :: ancestors c) ->
            forall st s0, s0 !! l = s !! l -> mark (Simple.data a) st s0 !! l = s !! l).
  { intros a Ha st s0 Hs0. rewrite lookup_mark_ne by (apply Hpath, Ha). exact Hs0. }
  split; [|split; [|split; [|split]]].
  - apply (keeps_start_marks (fun s0 => s0 !! l = s !! l) c); [|reflexivity].
    apply Hclosed. left. reflexivity.
  - apply (keeps_resume_marks (fun s0 => s0 !! l = s !! l) hooks c Hclosed real s).
    reflexivity.
  - apply (keeps_suspend_marks (fun s0 => s0 !! l = s !! l) hooks c Hclosed s).
    reflexivity.
  - apply (keeps_finish_marks (fun s0 => s0 !! l = s !! l) hooks c result value Hclosed s).
    reflexivity.
  - intros ctx origNext <- Hbody.
    apply (keeps_mware_marks (fun s0 => s0 !! l = s !! l) asyncStepTypeText hooks ctx
             origNext Hclosed); [|reflexivity].
    intros s0 Hs0. rewrite Hbody. exact Hs0.
Qed.

Lemma driver_writes_own_and_ancestors_only_witness :
  store_of (finish bothHooks untrackedParentCtx RReturn JsUndefined
              (<[ 7%positive := {| startAccepted := Some true; state := Some Suspended |} ]>
                 grandparentSuspended)) !! 7%positive
  = Some {| startAccepted := Some true; state := Some Suspended |}.
Proof.
  refine (proj1 (proj2 (proj2 (proj2
            (driver_writes_own_and_ancestors_only stepText bothHooks untrackedParentCtx
               7%positive _ true RReturn JsUndefined
               (<[ 7%positive := {| startAccepted := Some true; state := Some Suspended |} ]>
                  grandparentSuspended)))))).
  intros a [<-|[<-|[]]]; discriminate.
Defined.

(** ** The middleware on the steps of an async action *)

(** X10. The hook calls the middleware makes for an async invocation, by
    step. Spawn: [onStart], [onResume] if configured, the wrapped
    callback, [onSuspend] if configured, and no [onFinish]. Return and
    Throw: [onResume], the callback, [onSuspend], then [onFinish] with
    tag Return or Throw and the value the callback returned; when the
    callback throws there is no [onFinish] at all and the error goes to
    the caller. Resume and ResumeError (with a resume or suspend hook
    configured): [onResume], the callback, [onSuspend]. *)
Theorem async_step_hook_sequence
    asyncStepTypeText hooks (ctx : ActionContext) (origNext : M Outcome) (s : Store) :
  type ctx = Async ->
  let c := simplifyActionContext ctx in
  let r := mware asyncStepTypeText hooks ctx origNext s in
  let onR := if has_onResume hooks then [OnResume c] else [] in
  let onS := if has_onSuspend hooks then [OnSuspend c] else [] in
  let finishWith (tag : ActionTrackingResult) :=
    let body := origNext (store_of (resume hooks c true s)) in
    result_of r = result_of body /\
    callsFor c (log_of r) =
      onR ++ callsFor c (log_of body) ++ onS
      ++ match result_of body with
         | Normal v => [OnFinish c tag v]
         | Thrown _ => []
         end in
  let resumed :=
    has_onResume hooks || has_onSuspend hooks = true ->
    let body := origNext (store_of (resume hooks c true s)) in
    result_of r = result_of body /\
    callsFor c (log_of r) = onR ++ callsFor c (log_of body) ++ onS in
  match asyncStepType ctx with
  | Some Spawn =>
      let body := origNext (store_of (resume hooks c true (store_of (start c s)))) in
      result_of r = result_of body /\
      callsFor c (log_of r) = [OnStart c] ++ onR ++ callsFor c (log_of body) ++ onS
  | Some Return => finishWith RReturn
  | Some Throw => finishWith RThrow
  | Some Resume => resumed
  | Some ResumeError => resumed
  | None => callsFor c (log_of r) = []
  end.
Proof.
  intros Hty. cbv zeta.
  assert (Hwrap : forall s0,
             result_of (wrapNext hooks (simplifyActionContext ctx) origNext s0) =
               result_of (origNext (store_of (resume hooks (simplifyActionContext ctx) true s0))) /\
             callsFor (simplifyActionContext ctx)
               (log_of (wrapNext hooks (simplifyActionContext ctx) origNext s0)) =
               (if has_onResume hooks then [OnResume (simplifyActionContext ctx)] else [])
               ++ callsFor (simplifyActionContext ctx)
                    (log_of (origNext
                       (store_of (resume hooks (simplifyActionContext ctx) true s0))))
               ++ (if has_onSuspend hooks then [OnSuspend (simplifyActionContext ctx)] else [])).
  { intros s0. rewrite wrapNext_run. cbv zeta. cbn [result_of log_of fst snd].
    split; [reflexivity|].
    rewrite !callsFor_app, callsFor_resume, callsFor_suspend. reflexivity. }
  assert (Hfinal : forall tag,
             asyncStepType ctx = Some Return \/ asyncStepType ctx = Some Throw ->
             tag = match asyncStepType ctx with Some Throw => RThrow | _ => RReturn end ->
             result_of (mware asyncStepTypeText hooks ctx origNext s) =
               result_of (origNext (store_of (resume hooks (simplifyActionContext ctx) true s))) /\
             callsFor (simplifyActionContext ctx)
               (log_of (mware asyncStepTypeText hooks ctx origNext s)) =
               (if has_onResume hooks then [OnResume (simplifyActionContext ctx)] else [])
               ++ callsFor (simplifyActionContext ctx)
                    (log_of (origNext
                       (store_of (resume hooks (simplifyActionContext ctx) true s))))
               ++ (if has_onSuspend hooks then [OnSuspend (simplifyActionContext ctx)] else [])
               ++ match result_of (origNext
                          (store_of (resume hooks (simplifyActionContext ctx) true s))) with
                  | Normal v => [OnFinish (simplifyActionContext ctx) tag v]
                  | Thrown _ => []
                  end).
  { intros tag Hstep ->. rewrite (mware_final_wrapped _ _ _ _ _ Hty Hstep). cbv zeta.
    destruct (Hwrap s) as [Hres Hcalls]. rewrite <- Hres.
    destruct (result_of (wrapNext hooks (simplifyActionContext ctx) origNext s)) as [v|err];
      cbn [result_of log_of fst snd].
    - split; [reflexivity|].
      rewrite callsFor_app, Hcalls, callsFor_finish, <- !app_assoc. reflexivity.
    - split; [reflexivity|]. rewrite Hcalls, !app_nil_r. reflexivity. }
  destruct (asyncStepType ctx) as [[| | | |]|] eqn:Hstep.
  - rewrite (mware_spawn_wrapped _ _ _ _ _ Hty Hstep). cbv zeta.
    cbn [result_of log_of fst snd].
    destruct (Hwrap (store_of (start (simplifyActionContext ctx) s))) as [Hres Hcalls].
    split; [exact Hres|]. rewrite callsFor_app, callsFor_start, Hcalls. reflexivity.
  - apply Hfinal; [left; reflexivity|reflexivity].
  - apply Hfinal; [right; reflexivity|reflexivity].
  - intros Hon. rewrite (mware_resume_wrapped _ _ _ _ _ Hty (or_introl Hstep) Hon).
    apply Hwrap.
  - intros Hon. rewrite (mware_resume_wrapped _ _ _ _ _ Hty (or_intror Hstep) Hon).
    apply Hwrap.
  - unfold mware. rewrite Hty, Hstep. reflexivity.
Qed.

Lemma async_step_hook_sequence_witness :
  callsFor (simplifyActionContext fetchReturn)
    (log_of (mware stepText bothHooks fetchReturn (ret (Thrown (JsString "boom"))) ∅)) =
  [OnResume (simplifyActionContext fetchReturn);
   OnSuspend (simplifyActionContext fetchReturn)].
Proof.
  exact (proj2 (async_step_hook_sequence stepText bothHooks fetchReturn
                  (ret (Thrown (JsString "boom"))) ∅ eq_refl)).
Defined.

(** [suspend] only goes up through fake-resumed records: a bag other
    than the context's own whose record is not in state fakeResumed is
    not written. *)
Lemma suspend_skips hooks c :
  forall s l,
    l <> Simple.data c ->
    stateAt l s <> Some FakeResumed ->
    store_of (suspend hooks c s) !! l = s !! l.
Proof.
  induction c as [c IH] using SimpleActionContext_nested_ind.
  intros s l Hne Hst. rewrite store_of_suspend.
  assert (Hmark : mark (Simple.data c) Suspended s !! l = s !! l)
    by (apply lookup_mark_ne; congruence).
  destruct (Simple.parentContext c) as [p|] eqn:Hp; [|exact Hmark].
  destruct (acceptedInState FakeResumed
              (getCtxData (Simple.data p) (mark (Simple.data c) Suspended s))) eqn:Hcond;
    [|exact Hmark].
  apply acceptedInState_tracked in Hcond. destruct Hcond as [_ Hfake].
  rewrite (IH p eq_refl (mark (Simple.data c) Suspended s) l); [exact Hmark| |].
  - intros ->. apply Hst. unfold stateAt. rewrite <- Hmark. exact Hfake.
  - unfold stateAt. rewrite Hmark. exact Hst.
Qed.

Lemma finish_own_state hooks c result value s :
  (forall p, Simple.parentContext c = Some p -> Simple.data p <> Simple.data c) ->
  stateAt (Simple.data c) (store_of (finish hooks c result value s)) = Some Finished.
Proof.
  intros Hparent. rewrite finish_run. cbv zeta.
  destruct (Simple.parentContext c) as [p|] eqn:Hp; [|apply stateAt_mark].
  destruct (acceptedInState Suspended (getCtxData (Simple.data p) s)); [|apply stateAt_mark].
  cbn [store_of fst snd]. unfold stateAt at 1.
  rewrite suspend_skips.
  - apply stateAt_mark.
  - apply not_eq_sym, Hparent. reflexivity.
  - rewrite stateAt_mark. discriminate.
Qed.

(** X11. The state the middleware leaves in the record of the invocation
    itself, by step: [finished] after a sync step, whether the callback
    returned or threw, and after a Return or Throw step whose callback
    returned (the parent having a bag of its own); [suspended] after a
    Spawn step, after a Resume or ResumeError step, and after a Return or
    Throw step whose callback threw, since the suspend of the bracket runs
    on every way out and [finish] is skipped then. *)
Theorem step_leaves_invocation_state
    asyncStepTypeText hooks (ctx : ActionContext) (origNext : M Outcome) (s : Store) :
  let c := simplifyActionContext ctx in
  let r := mware asyncStepTypeText hooks ctx origNext s in
  let final :=
    parentShares ctx = false ->
    stateAt (Simple.data c) (store_of r) =
    Some (match result_of r with Normal _ => Finished | Thrown _ => Suspended end) in
  match type ctx, asyncStepType ctx with
  | Sync, _ =>
      parentShares ctx = false -> stateAt (Simple.data c) (store_of r) = Some Finished
  | Async, Some Spawn => stateAt (Simple.data c) (store_of r) = Some Suspended
  | Async, Some Return => final
  | Async, Some Throw => final
  | Async, (Some Resume | Some ResumeError) =>
      if has_onResume hooks || has_onSuspend hooks
      then stateAt (Simple.data c) (store_of r) = Some Suspended
      else store_of r = s
  | Async, None => store_of r = s
  end.
Proof.
  cbv zeta.
  assert (Hwrap : forall s0,
             stateAt (Simple.data (simplifyActionContext ctx))
               (store_of (wrapNext hooks (simplifyActionContext ctx) origNext s0))
             = Some Suspended).
  { intros s0. rewrite wrapNext_run. cbv zeta. cbn [store_of fst snd].
    apply suspend_own_state. }
  assert (Hfinal : asyncStepType ctx = Some Return \/ asyncStepType ctx = Some Throw ->
                   type ctx = Async ->
                   parentShares ctx = false ->
                   stateAt (Simple.data (simplifyActionContext ctx))
                     (store_of (mware asyncStepTypeText hooks ctx origNext s)) =
                   Some (match result_of (mware asyncStepTypeText hooks ctx origNext s) with
                         | Normal _ => Finished
                         | Thrown _ => Suspended
                         end)).
  { intros Hstep Hty Hshare. rewrite (mware_final_wrapped _ _ _ _ _ Hty Hstep). cbv zeta.
    destruct (result_of (wrapNext hooks (simplifyActionContext ctx) origNext s)) as [v|err];
      cbn [result_of store_of fst snd].
    - apply finish_own_state, parentShares_distinct, Hshare.
    - apply Hwrap. }
  destruct (type ctx) eqn:Hty.
  - intros Hshare. rewrite (mware_sync_wrapped _ _ _ _ _ Hty). cbv zeta.
    cbn [store_of fst snd].
    destruct (result_of (wrapNext _ _ _ _));
      apply finish_own_state, parentShares_distinct, Hshare.
  - destruct (asyncStepType ctx) as [[| | | |]|] eqn:Hstep.
    + rewrite (mware_spawn_wrapped _ _ _ _ _ Hty Hstep). cbv zeta.
      cbn [store_of fst snd]. apply Hwrap.
    + apply Hfinal; [left; reflexivity|reflexivity].
    + apply Hfinal; [right; reflexivity|reflexivity].
    + destruct (has_onResume hooks || has_onSuspend hooks) eqn:Hon.
      * rewrite (mware_resume_wrapped _ _ _ _ _ Hty (or_introl Hstep) Hon). apply Hwrap.
      * unfold mware. rewrite Hty, Hstep. unfold resumeSuspendSupport. rewrite Hon.
        reflexivity.
    + destruct (has_onResume hooks || has_onSuspend hooks) eqn:Hon.
      * rewrite (mware_resume_wrapped _ _ _ _ _ Hty (or_intror Hstep) Hon). apply Hwrap.
      * unfold mware. rewrite Hty, Hstep. unfold resumeSuspendSupport. rewrite Hon.
        reflexivity.
    + unfold mware. rewrite Hty, Hstep. reflexivity.
Qed.

Lemma step_leaves_invocation_state_witness :
  stateAt 1%positive
    (store_of (mware stepText bothHooks (syncStepOf "add" 1%positive)
                 (ret (Thrown (JsString "boom"))) ∅))
  = Some Finished.
Proof.
  exact (step_leaves_invocation_state stepText bothHooks (syncStepOf "add" 1%positive)
           (ret (Thrown (JsString "boom"))) ∅ eq_refl).
Defined.

(** ** Fake resumes are undone *)

Lemma mark_mark l st st' (s : Store) : mark l st (mark l st' s) = mark l st s.
Proof.
  apply map_eq. intros l'. destruct (decide (l = l')) as [<-|Hne].
  - rewrite !lookup_mark. destruct (s !! l) as [[sa x]|]; reflexivity.
  - rewrite !lookup_mark_ne by exact Hne. reflexivity.
Qed.

Lemma mark_comm l l' st st' (s : Store) :
  l <> l' -> mark l st (mark l' st' s) = mark l' st' (mark l st s).
Proof.
  intros Hne. apply map_eq. intros k.
  destruct (decide (l = k)) as [<-|Hk].
  - rewrite lookup_mark, (lookup_mark_ne l' l) by congruence.
    rewrite (lookup_mark_ne l' l) by congruence. rewrite lookup_mark. reflexivity.
  - rewrite (lookup_mark_ne l k) by exact Hk.
    destruct (decide (l' = k)) as [<-|Hk'].
    + rewrite !lookup_mark, (lookup_mark_ne l l') by exact Hne. reflexivity.
    + rewrite !lookup_mark_ne by assumption. reflexivity.
Qed.

Lemma mark_same l st (s : Store) : stateAt l s = Some st -> mark l st s = s.
Proof.
  intros Hst. apply map_eq. intros k. destruct (decide (l = k)) as [<-|Hk].
  - rewrite lookup_mark. unfold stateAt in Hst.
    destruct (s !! l) as [[sa x]|]; simpl in Hst; [|discriminate].
    subst x. reflexivity.
  - apply lookup_mark_ne, Hk.
Qed.

(** A mark at a bag that is neither the context's nor an ancestor's
    passes through [suspend]. *)
Lemma suspend_foreign_mark hooks c :
  forall s l st,
    (forall a, In a (c :: ancestors c) -> Simple.data a <> l) ->
    fakeResumedRun (mark l st s) c = fakeResumedRun s c /\
    store_of (suspend hooks c (mark l st s)) = mark l st (store_of (suspend hooks c s)).
Proof.
  induction c as [c IH] using SimpleActionContext_nested_ind.
  intros s l st Hpath.
  assert (Hc : Simple.data c <> l) by (apply Hpath; left; reflexivity).
  rewrite !(fakeResumedRun_eq _ c), !(store_of_suspend hooks c).
  rewrite (mark_comm (Simple.data c) l Suspended st s Hc).
  destruct (Simple.parentContext c) as [p|] eqn:Hp; [|split; reflexivity].
  assert (Hp' : forall a, In a (p :: ancestors p) -> Simple.data a <> l).
  { intros a Ha. apply Hpath. right. apply (ancestors_parent c p a Hp Ha). }
  unfold getCtxData. rewrite (lookup_mark_ne l (Simple.data p))
    by (apply not_eq_sym, Hp'; left; reflexivity).
  destruct (acceptedInState FakeResumed (mark (Simple.data c) Suspended s !! Simple.data p));
    [|split; reflexivity].
  destruct (IH p eq_refl (mark (Simple.data c) Suspended s) l st Hp') as [Hrun Hstore].
  rewrite Hrun, Hstore. split; reflexivity.
Qed.

Lemma resume_makes_parent_fake hooks p s :
  acceptedInState Suspended (getCtxData (Simple.data p) s) = true ->
  acceptedInState FakeResumed
    (getCtxData (Simple.data p) (store_of (resume hooks p false s))) = true.
Proof.
  intros Hcond. apply acceptedInState_state in Hcond. destruct Hcond as [Hacc _].
  pose proof (keeps_startAccepted_resume hooks (Simple.data p) _ p false s eq_refl) as Hkeep.
  cbv beta in Hkeep. unfold startAcceptedAt in Hkeep. rewrite Hacc in Hkeep.
  pose proof (stateAt_mark (Simple.data p) FakeResumed
                (match Simple.parentContext p with
                 | Some q =>
                     if acceptedInState Suspended (getCtxData (Simple.data q) s)
                     then store_of (resume hooks q false s)
                     else s
                 | None => s
                 end)) as Hst.
  rewrite <- (store_of_resume hooks p false s) in Hst. unfold stateAt in Hst.
  unfold getCtxData in *.
  destruct (store_of (resume hooks p false s) !! Simple.data p) as [[[[|]|] [x|]]|];
    simpl in *; try discriminate.
  injection Hst as ->. reflexivity.
Qed.

(** The core of the round trip: a suspend right after a resume walks the
    same ancestors back and leaves their records as they were. *)
Lemma suspend_after_resume hooks c :
  forall real s,
    List.NoDup (map Simple.data (c :: ancestors c)) ->
    Forall (fun a => acceptedInState FakeResumed (getCtxData (Simple.data a) s) = false)
           (ancestors c) ->
    fakeResumedRun (store_of (resume hooks c real s)) c = suspendedRun s c /\
    store_of (suspend hooks c (store_of (resume hooks c real s))) =
      mark (Simple.data c) Suspended s.
Proof.
  induction c as [c IH] using SimpleActionContext_nested_ind.
  intros real s Hnodup Hnofake.
  rewrite fakeResumedRun_eq, store_of_suspend, suspendedRun_eq.
  rewrite (store_of_resume hooks c real s), mark_mark.
  destruct (Simple.parentContext c) as [p|] eqn:Hp; [|split; reflexivity].
  assert (Hanc : ancestors c = p :: ancestors p).
  { destruct c as [n t tg ar par d]. simpl in Hp. subst par. reflexivity. }
  rewrite Hanc in Hnodup, Hnofake. cbn [map] in Hnodup.
  assert (Hforeign : forall a, In a (p :: ancestors p) -> Simple.data a <> Simple.data c).
  { intros a Ha Heq. apply List.NoDup_cons_iff in Hnodup. destruct Hnodup as [Hnotin _].
    apply Hnotin. rewrite <- Heq. apply (in_map Simple.data (p :: ancestors p) a Ha). }
  assert (Hpc : Simple.data c <> Simple.data p).
  { apply not_eq_sym, Hforeign. left. reflexivity. }
  destruct (acceptedInState Suspended (getCtxData (Simple.data p) s)) eqn:Hcond.
  - destruct (suspend_foreign_mark hooks p (store_of (resume hooks p false s))
                (Simple.data c) Suspended Hforeign) as [Hrun Hstore].
    destruct (IH p eq_refl false s) as [Hrun' Hstore'].
    { apply List.NoDup_cons_iff in Hnodup. exact (proj2 Hnodup). }
    { apply Forall_inv_tail in Hnofake. exact Hnofake. }
    assert (Hfake : acceptedInState FakeResumed
                      (getCtxData (Simple.data p)
                         (mark (Simple.data c) Suspended
                            (store_of (resume hooks p false s)))) = true).
    { unfold getCtxData. rewrite lookup_mark_ne by exact Hpc.
      apply (resume_makes_parent_fake hooks p s Hcond). }
    rewrite Hfake, Hrun, Hstore, Hrun', Hstore'. split; [reflexivity|].
    rewrite (mark_same (Simple.data p) Suspended s); [reflexivity|].
    apply acceptedInState_state in Hcond. exact (proj2 Hcond).
  - assert (Hfake : acceptedInState FakeResumed
                      (getCtxData (Simple.data p) (mark (Simple.data c) Suspended s))
                    = false).
    { unfold getCtxData. rewrite lookup_mark_ne by exact Hpc.
      apply Forall_inv in Hnofake. exact Hnofake. }
    rewrite Hfake. split; reflexivity.
Qed.

(** X12. The bracket around the continuation undoes its own fake resumes.
    Let the context and its ancestors have bags of their own, let no
    ancestor be fake-resumed at the call, and let the continuation leave
    the store as it finds it. Then the ancestors that the real resume of
    the context fake-resumes are exactly those that its closing suspend
    re-suspends, in the opposite order, and the store afterwards is the
    store before with the context itself marked suspended. *)
Theorem bracket_restores_ancestors
    hooks (c : SimpleActionContext) (origNext : M Outcome) (s : Store) :
  List.NoDup (map Simple.data (c :: ancestors c)) ->
  Forall (fun a => acceptedInState FakeResumed (getCtxData (Simple.data a) s) = false)
         (ancestors c) ->
  store_of (origNext (store_of (resume hooks c true s))) = store_of (resume hooks c true s) ->
  store_of (wrapNext hooks c origNext s) = mark (Simple.data c) Suspended s /\
  map shape (log_of (resume hooks c true s)) =
    flat_map (resumeShape hooks false) (rev (suspendedRun s c)) ++ resumeShape hooks true c /\
  map shape (log_of (suspend hooks c (store_of (resume hooks c true s)))) =
    suspendShape hooks c ++ flat_map (suspendShape hooks) (suspendedRun s c).
Proof.
  intros Hnodup Hnofake Hbody.
  destruct (suspend_after_resume hooks c true s Hnodup Hnofake) as [Hrun Hstore].
  split; [|split].
  - rewrite wrapNext_run. cbv zeta. cbn [store_of fst snd]. rewrite Hbody. exact Hstore.
  - apply shape_resume.
  - rewrite shape_suspend, Hrun. reflexivity.
Qed.

Lemma bracket_restores_ancestors_witness :
  store_of (wrapNext bothHooks untrackedParentCtx (ret (Normal JsUndefined))
              grandparentSuspended)
  = mark 2%positive Suspended grandparentSuspended.
Proof.
  refine (proj1 (bracket_restores_ancestors bothHooks untrackedParentCtx
                   (ret (Normal JsUndefined)) grandparentSuspended _ _ eq_refl)).
  - change (List.NoDup [2%positive; 1%positive]).
    constructor; [intros [H|[]]; discriminate H|].
    constructor; [intros []|constructor].
  - repeat constructor.
Defined.

(** X13. [finish] leaves every ancestor as it found it. With bags of their
    own along the ancestor path and no ancestor fake-resumed at the call,
    the only record [finish] changes is the one of the finishing
    invocation, and the ancestors it fake-resumes before [onFinish] are
    exactly the ones it re-suspends after it, in the opposite order. *)
Theorem finish_restores_ancestors
    hooks (c : SimpleActionContext) (result : ActionTrackingResult)
    (value : JsValue) (s : Store) :
  List.NoDup (map Simple.data (c :: ancestors c)) ->
  Forall (fun a => acceptedInState FakeResumed (getCtxData (Simple.data a) s) = false)
         (ancestors c) ->
  store_of (finish hooks c result value s) = mark (Simple.data c) Finished s /\
  map shape (log_of (finish hooks c result value s)) =
    flat_map (resumeShape hooks false) (rev (suspendedRun s c))
    ++ finishShape c result value
    ++ flat_map (suspendShape hooks) (suspendedRun s c).
Proof.
  intros Hnodup Hnofake.
  rewrite shape_finish, finish_run, suspendedRun_eq. cbv zeta.
  destruct (Simple.parentContext c) as [p|] eqn:Hp;
    [|split; [reflexivity|symmetry; apply app_nil_r]].
  destruct (acceptedInState Suspended (getCtxData (Simple.data p) s)) eqn:Hcond;
    [|split; [reflexivity|symmetry; apply app_nil_r]].
  assert (Hanc : ancestors c = p :: ancestors p).
  { destruct c as [n t tg ar par d]. simpl in Hp. subst par. reflexivity. }
  rewrite Hanc in Hnodup, Hnofake. cbn [map] in Hnodup.
  assert (Hforeign : forall a, In a (p :: ancestors p) -> Simple.data a <> Simple.data c).
  { intros a Ha Heq. apply List.NoDup_cons_iff in Hnodup. destruct Hnodup as [Hnotin _].
    apply Hnotin. rewrite <- Heq. apply (in_map Simple.data (p :: ancestors p) a Ha). }
  destruct (suspend_foreign_mark hooks p (store_of (resume hooks p false s))
              (Simple.data c) Finished Hforeign) as [Hrun Hstore].
  destruct (suspend_after_resume hooks p false s) as [Hrun' Hstore'].
  { apply List.NoDup_cons_iff in Hnodup. exact (proj2 Hnodup). }
  { apply Forall_inv_tail in Hnofake. exact Hnofake. }
  cbn [store_of fst snd]. rewrite Hrun, Hstore, Hrun', Hstore'. split.
  - rewrite (mark_same (Simple.data p) Suspended s); [reflexivity|].
    apply acceptedInState_state in Hcond. exact (proj2 Hcond).
  - cbn [rev flat_map]. rewrite flat_map_app. cbn [flat_map].
    rewrite app_nil_r, <- !app_assoc. reflexivity.
Qed.

Lemma finish_restores_ancestors_witness :
  store_of (finish bothHooks untrackedParentCtx RReturn JsUndefined grandparentSuspended)
  = mark 2%positive Finished grandparentSuspended.
Proof.
  refine (proj1 (finish_restores_ancestors bothHooks untrackedParentCtx RReturn JsUndefined
                   grandparentSuspended _ _)).
  - change (List.NoDup [2%positive; 1%positive]).
    constructor; [intros [H|[]]; discriminate H|].
    constructor; [intros []|constructor].
  - repeat constructor.
Defined.

(** ** The middleware and the outcome of the wrapped action *)


